(** * cuzk_tools: the DMR5G tile catalogue ([src/cuzk_tools/dmr5g.py])

    A shallow embedding of [Dmr5gParser] and of the helper classes
    [Circle] and [Rectangle], followed by the properties of the tile
    resolver, of the footprint normaliser and of the tile cache.

    Conventions of the embedding.
    - A Python [float] (and a numpy [float64]) is a rational [Q], and two
      numbers are the same when they are [==].  The arithmetic is the
      exact one where a property does not depend on the rounding; the
      footprint normaliser, whose idempotence does, is also embedded with
      the arithmetic of binary64, every operation rounded to the nearest
      number of 53 bits ([fix_tile_coords_float64]).
    - A Python [int] is a [Z]; list indices follow Python (negative
      indices count from the end, anything else raises [IndexError]).
    - A call that may raise returns a [Result]; the exception tells which
      [raise] of the source produced it.
    - A numpy array is a [list Q]; a shapely [Polygon] is the coordinate
      list of its exterior ring, and [Polygon.contains] of a point is
      decided on that ring.
    - An entry of the catalogue is the text of its [atom:id] and
      [atom:updated] elements and the floats of its [georss:polygon].
    - pyproj, [np.sqrt], the queries of the R-tree and shapely's
      [intersects] are the fields of the class [Collaborators], and the
      path that [ZipFile.extract] writes to is the field of the class
      [Unpacker]; the remote service is a [Network] and the cache
      directory a finite map from paths to files. *)

From Stdlib Require Import QArith Qpower Qround Qabs Qminmax Lqa ZArith Lia Bool.
From Stdlib Require Floats Uint63.
From stdpp Require Import gmap strings list pretty.

Local Open Scope Z_scope.

(** ** Exceptions and results *)

(** Which of the three [raise PointOutOfTileError] statements of
    [get_tile_id] was executed. *)
Inductive PointOutOfTile : Set :=
| NoneOfSelected   (* "None of selected tiles contains the point" *)
| OnlyOneSelected  (* "Only one tile selected and it is not containing point" *)
| NoTileFound.     (* "No tile found which could contain the point" *)

Inductive Exception : Type :=
| IndexError_out_of_bounds (id n : Z)  (* raised by [get_tile] itself *)
| IndexError_sequence                  (* Python: index out of range *)
| PointOutOfTileError (why : PointOutOfTile) (point : Q * Q)
| RTreeError                           (* a box that the R-tree refuses *)
| AttributeError                       (* a method of [None] *)
| URLError                             (* the network is unreachable *)
| BadZipFile
| TypeError                            (* an item assigned to a value that is no dict *)
| FileNotFoundError_rename.            (* [os.rename] of a path that does not exist *)

(** The exceptions of the class [IndexError]. *)
Definition is_IndexError (e : Exception) : bool :=
  match e with
  | IndexError_out_of_bounds _ _ | IndexError_sequence => true
  | _ => false
  end.

Inductive Result (A : Type) : Type :=
| Ok (a : A)
| Raise (e : Exception).
Arguments Ok {A} a.
Arguments Raise {A} e.

(** The error monad; [x ← r; k] runs [k] unless [r] raised. *)
#[export] Instance Result_ret : MRet Result := fun _ a => Ok a.
#[export] Instance Result_bind : MBind Result := fun _ _ k r =>
  match r with
  | Ok a => k a
  | Raise e => Raise e
  end.

(** ** Python and numpy primitives *)

(** [l[i]] on a list or a tuple. *)
Definition py_getitem {A} (l : list A) (i : Z) : Result A :=
  let len := Z.of_nat (length l) in
  let k := if i <? 0 then len + i else i in
  if (k <? 0) || (len <=? k) then Raise IndexError_sequence
  else match l !! Z.to_nat k with
       | Some a => Ok a
       | None => Raise IndexError_sequence
       end.

(** [l[i] = v] on a list. *)
Definition py_setitem {A} (l : list A) (i : Z) (v : A) : Result (list A) :=
  let len := Z.of_nat (length l) in
  let k := if i <? 0 then len + i else i in
  if (k <? 0) || (len <=? k) then Raise IndexError_sequence
  else Ok (<[Z.to_nat k := v]> l).

(** [range(0, stop, 2)]. *)
Definition range_step2 (stop : nat) : list Z :=
  map (fun k => 2 * Z.of_nat k) (seq 0 (Nat.div2 (S stop))).

Local Open Scope Q_scope.

Definition Qlt_bool (x y : Q) : bool := negb (Qle_bool y x).

(** [np.floor], with a float result. *)
Definition np_floor (x : Q) : Q := inject_Z (Qfloor x).

(** [x % s] on floats: the remainder has the sign of the divisor. *)
Definition py_mod (x s : Q) : Q := x - s * np_floor (x / s).

(** [int(x)]: truncation towards zero. *)
Definition py_int (x : Q) : Z :=
  if Qlt_bool x 0 then Qceiling x else Qfloor x.

(** [a[mask]]: the elements of [a] at the positions where [mask] holds. *)
Fixpoint np_select (mask : list bool) (a : list Q) : list Q :=
  match mask, a with
  | m :: mask', x :: a' =>
      if m then x :: np_select mask' a' else np_select mask' a'
  | _, _ => []
  end.

(** [a[mask] = vals]: [vals] written, in order, at the positions of [a]
    where [mask] holds.  (numpy raises when [vals] is too short; every
    use below selects [vals] with the same mask.) *)
Fixpoint np_put (mask : list bool) (a vals : list Q) : list Q :=
  match mask, a with
  | m :: mask', x :: a' =>
      if m then
        match vals with
        | v :: vals' => v :: np_put mask' a' vals'
        | [] => x :: np_put mask' a' []
        end
      else x :: np_put mask' a' vals
  | _, _ => a
  end.

(** Element-wise operations of two arrays of one shape. *)
Fixpoint np_zip_with (f : Q -> Q -> Q) (a b : list Q) : list Q :=
  match a, b with
  | x :: a', y :: b' => f x y :: np_zip_with f a' b'
  | _, _ => []
  end.

(** [a[mask] -= v] and [a[mask] += v]. *)
Definition np_isub_masked (mask : list bool) (a v : list Q) : list Q :=
  np_put mask a (np_zip_with Qminus (np_select mask a) v).
Definition np_iadd_masked (mask : list bool) (a v : list Q) : list Q :=
  np_put mask a (np_zip_with Qplus (np_select mask a) v).

(** ** Geometry *)

Abbreviation point := (Q * Q)%type.

Definition point_eqb (p q : point) : bool :=
  Qeq_bool (fst p) (fst q) && Qeq_bool (snd p) (snd q).

(** A shapely polygon without holes: the coordinates of its exterior
    ring, as [tile.exterior.coords] lists them. *)
Record Polygon : Type := mkPolygon { exterior_coords : list point }.

(** shapely closes a ring whose last coordinate is not its first. *)
Definition close_ring (coords : list point) : list point :=
  match coords with
  | [] => []
  | p :: _ => if point_eqb p (List.last coords p) then coords else coords ++ [p]
  end.

(** [Polygon(coords)]. *)
Definition Polygon_new (coords : list point) : Polygon :=
  mkPolygon (close_ring coords).

(** [tile.exterior.coords.xy]: the array of the x's and the array of the y's. *)
Definition coords_xy (tile : Polygon) : list Q * list Q :=
  (map fst (exterior_coords tile), map snd (exterior_coords tile)).

(** *** The footprint normaliser *)

Definition fix_tile_coords (tile : Polygon) : Polygon :=
  let '(x, y) := coords_xy tile in
  let x_fixed := x in
  let y_fixed := y in
  let x_mod := map (fun v => py_mod v 2500) x in
  let x_mask := map (fun r => Qlt_bool r 1250) x_mod in
  let x_fixed := np_isub_masked x_mask x_fixed (np_select x_mask x_mod) in
  let x_fixed := np_iadd_masked (map negb x_mask) x_fixed
                   (map (fun r => 2500 - r) (np_select (map negb x_mask) x_mod)) in
  let y_mod := map (fun v => py_mod v 2000) y in
  let y_mask := map (fun r => Qlt_bool r 1000) y_mod in
  let y_fixed := np_isub_masked y_mask y_fixed (np_select y_mask y_mod) in
  let y_fixed := np_iadd_masked (map negb y_mask) y_fixed
                   (map (fun r => 2000 - r) (np_select (map negb y_mask) y_mod)) in
  Polygon_new (combine x_fixed y_fixed).

(** *** The footprint normaliser in binary64

    The numbers of a float64 are the rationals [m * 2^e] with
    [|m| < 2^53] and [e >= -1074].  An operation returns the exact result
    rounded to the nearest of them, and to the one whose [m] is even when
    two are as near.  Overflow is left out: every number below is far
    from [2^1024]. *)

(** The nearest integer, the even one of two that are as near. *)
Definition round_half_even (q : Q) : Z :=
  let f := Qfloor q in
  match Qcompare (q - inject_Z f) (1 # 2) with
  | Lt => f
  | Gt => (f + 1)%Z
  | Eq => if Z.even f then f else (f + 1)%Z
  end.

(** The exponent of the last place of the float64 numbers about [q]: the
    [e] with [2^52 <= |q| / 2^e < 2^53], and -1074 for the subnormal
    ones. *)
Definition ulp_exponent (q : Q) : Z :=
  let a := Qabs q in
  let e0 := (Z.log2 (Qnum a) - Z.log2 (Zpos (Qden a)) - 52)%Z in
  let e := if Qle_bool (2 ^ (52 + e0)) a then e0 else (e0 - 1)%Z in
  Z.max e (-1074).

(** The float64 nearest to [q]. *)
Definition round64 (q : Q) : Q :=
  let e := ulp_exponent q in
  inject_Z (round_half_even (q / 2 ^ e)) * 2 ^ e.

(** C's [fmod(x, s)]: the remainder of the division truncated towards
    zero.  Its result is exact. *)
Definition fmod (x s : Q) : Q := x - s * inject_Z (py_int (x / s)).

(** [x % s] on float64, for [s] other than zero: numpy takes [fmod] and
    adds [s] to a remainder whose sign is not that of [s]. *)
Definition np_remainder (x s : Q) : Q :=
  let mod_ := fmod x s in
  if Qeq_bool mod_ 0 then 0
  else if xorb (Qlt_bool s 0) (Qlt_bool mod_ 0) then round64 (mod_ + s)
  else mod_.

(** [a - b] and [a + b] on float64. *)
Definition sub64 (a b : Q) : Q := round64 (a - b).
Definition add64 (a b : Q) : Q := round64 (a + b).

(** [a[mask] -= v] and [a[mask] += v] on float64 arrays. *)
Definition np_isub_masked64 (mask : list bool) (a v : list Q) : list Q :=
  np_put mask a (np_zip_with sub64 (np_select mask a) v).
Definition np_iadd_masked64 (mask : list bool) (a v : list Q) : list Q :=
  np_put mask a (np_zip_with add64 (np_select mask a) v).

(** [fix_tile_coords] with the arithmetic of float64. *)
Definition fix_tile_coords_float64 (tile : Polygon) : Polygon :=
  let '(x, y) := coords_xy tile in
  let x_fixed := x in
  let y_fixed := y in
  let x_mod := map (fun v => np_remainder v 2500) x in
  let x_mask := map (fun r => Qlt_bool r 1250) x_mod in
  let x_fixed := np_isub_masked64 x_mask x_fixed (np_select x_mask x_mod) in
  let x_fixed := np_iadd_masked64 (map negb x_mask) x_fixed
                   (map (fun r => sub64 2500 r) (np_select (map negb x_mask) x_mod)) in
  let y_mod := map (fun v => np_remainder v 2000) y in
  let y_mask := map (fun r => Qlt_bool r 1000) y_mod in
  let y_fixed := np_isub_masked64 y_mask y_fixed (np_select y_mask y_mod) in
  let y_fixed := np_iadd_masked64 (map negb y_mask) y_fixed
                   (map (fun r => sub64 2000 r) (np_select (map negb y_mask) y_mod)) in
  Polygon_new (combine x_fixed y_fixed).

(** The number that a float of the machine holds, to compare [round64]
    with the arithmetic of the machine. *)
Definition Q_of_float (f : PrimFloat.float) : option Q :=
  match FloatOps.Prim2SF f with
  | SpecFloat.S754_zero _ => Some 0
  | SpecFloat.S754_finite s m e =>
      Some ((if s then -1 else 1) * inject_Z (Zpos m) * 2 ^ e)
  | _ => None
  end.

Definition float_of_Z (z : Z) : PrimFloat.float := PrimFloat.of_uint63 (Uint63.of_Z z).

(** *** The shapely predicate [Polygon.contains(Point)]

    shapely: [a.contains(b)] holds when no point of [b] lies in the
    exterior of [a] and a point of the interior of [b] lies in the interior
    of [a].  For a point [b] this is: [b] lies in the interior of the
    polygon, so a point of the boundary is not contained.  The interior is
    decided by counting the edges that a ray from the point towards larger
    x crosses ([contains_canonical_ring] below checks it on rectangles). *)

Definition ring_edges (ring : list point) : list (point * point) :=
  combine ring (tail ring).

Definition Qbetween (a b v : Q) : bool :=
  (Qle_bool a v && Qle_bool v b) || (Qle_bool b v && Qle_bool v a).

Definition on_segment (p : point) (e : point * point) : bool :=
  let '((ax, ay), (bx, by_)) := e in
  let '(px, py) := p in
  Qeq_bool ((bx - ax) * (py - ay) - (by_ - ay) * (px - ax)) 0
  && Qbetween ax bx px && Qbetween ay by_ py.

Definition ray_crosses (p : point) (e : point * point) : bool :=
  let '((ax, ay), (bx, by_)) := e in
  let '(px, py) := p in
  xorb (Qlt_bool py ay) (Qlt_bool py by_)
  && Qlt_bool px (ax + (py - ay) * (bx - ax) / (by_ - ay)).

Definition on_boundary (poly : Polygon) (p : point) : bool :=
  existsb (on_segment p) (ring_edges (exterior_coords poly)).

Definition contains (poly : Polygon) (p : point) : bool :=
  negb (on_boundary poly p)
  && Nat.odd (length (List.filter (ray_crosses p)
                        (ring_edges (exterior_coords poly)))).

(** *** [Circle] and [Rectangle] *)

Record Circle : Type := mkCircle { circle_x : Q; circle_y : Q; circle_r : Q }.

(** [Circle(center, radius)]. *)
Definition Circle_new (center : point) (radius : Q) : Circle :=
  mkCircle (fst center) (snd center) radius.

Record Rectangle : Type := mkRectangle { rect_x : Q; rect_y : Q; rect_w : Q; rect_h : Q }.

(** [Rectangle(points)], [points] being the pair of coordinate arrays. *)
Definition Rectangle_new (points : list Q * list Q) : Result Rectangle :=
  l ← py_getitem (fst points) 0%Z;
  b ← py_getitem (snd points) 0%Z;
  r ← py_getitem (fst points) 1%Z;
  t ← py_getitem (snd points) 2%Z;
  mret (mkRectangle ((l + r) / 2) ((b + t) / 2) (r - l) (t - b)).

Definition c_r_intersects (circle : Circle) (rect : Rectangle) : bool :=
  let circleDistanceX := Qabs (circle_x circle - rect_x rect) in
  let circleDistanceY := Qabs (circle_y circle - rect_y rect) in
  if Qlt_bool (rect_w rect / 2 + circle_r circle) circleDistanceX then false
  else if Qlt_bool (rect_h rect / 2 + circle_r circle) circleDistanceY then false
  else if Qle_bool circleDistanceX (rect_w rect / 2) then true
  else if Qle_bool circleDistanceY (rect_h rect / 2) then true
  else
    let cornerDistance_sq :=
      (circleDistanceX - rect_w rect / 2) ^ 2 + (circleDistanceY - rect_h rect / 2) ^ 2 in
    Qle_bool cornerDistance_sq (circle_r circle ^ 2).

(** ** The catalogue and its index *)

(** An [atom:entry] of the catalogue: the [.text] of its [atom:id] and
    [atom:updated] elements, which ElementTree gives as [None] for an
    element without text, and the numbers of its [georss:polygon],
    "lat lon lat lon ...", already read as floats.  The entries are the
    children of the root, each with these three elements, as in an Atom
    feed. *)
Record Entry : Type := mkEntry {
  entry_id : option string;
  entry_updated : option string;
  entry_polygon : list Q
}.

(** A box as the R-tree stores it: (left, bottom, right, top). *)
Abbreviation Box := (Q * Q * Q * Q)%type.

(** The R-tree, as the list of the entries inserted so far. *)
Abbreviation Index := (list (Z * Box)).

(** [[left, bottom] <= [right, top]], as Python compares two lists: the
    first pair of elements that differ decides. *)
Definition list_le2 (box : Box) : bool :=
  let '(left_, bottom_, right_, top_) := box in
  if Qeq_bool left_ right_ then Qle_bool bottom_ top_ else Qle_bool left_ right_.

(** [idx.insert(id, box)]; the R-tree refuses a box when
    [not mins <= maxs], the comparison being that of the two lists.  So a
    box with [bottom > top] is stored when [left < right]. *)
Definition rtree_insert (idx : Index) (id : Z) (box : Box) : Result Index :=
  if list_le2 box
  then Ok (idx ++ [(id, box)])
  else Raise RTreeError.

(** What the program uses and does not define: the two pyproj
    transformers, [np.sqrt], shapely's [intersects] and the two queries of
    the R-tree. *)
Class Collaborators : Type := {
  WGS_TO_SJTSK : Q -> Q -> point;
  SJTSK_TO_WGS : Q -> Q -> point;
  np_sqrt : Q -> Q;
  intersects : Polygon -> Polygon -> bool;
  rtree_intersection : Index -> point -> list Z;
  rtree_nearest : Index -> point -> Z -> list Z
}.

(** The R-tree answers with ids that were inserted. *)
Definition rtree_sound (C : Collaborators) : Prop :=
  forall (idx : Index) (q : point) (id : Z),
    (In id (rtree_intersection idx q) -> In id (map fst idx))
    /\ (forall k, In id (rtree_nearest idx q k) -> In id (map fst idx)).

Record Dmr5gParser : Type := mkParser {
  cache_dir : string;
  root : list Entry;
  n : Z;
  tile_idx : Index;
  tile_polygons : list (list point)
}.

(** [(float_list[i], float_list[i + 1])]. *)
Definition pair_at (float_list : list Q) (i : Z) : Result point :=
  a ← py_getitem float_list i; b ← py_getitem float_list (i + 1)%Z; mret (a, b).

(** The pairs of [float_list], one per index of [range(0, len, 2)]. *)
Definition pairs_of (float_list : list Q) : Result (list point) :=
  mapM (pair_at float_list) (range_step2 (length float_list)).

(** One turn of the loop of [get_tiles]. *)
Definition get_tiles_entry (st : Z * Index * list (list point)) (entry : Entry)
  : Result (Z * Index * list (list point)) :=
  let '(i, idx, polygons) := st in
  let float_list := entry_polygon entry in
  pairs ← pairs_of float_list;
  polygons ← py_setitem polygons i pairs;
  left_ ← py_getitem float_list 1%Z;
  bottom_ ← py_getitem float_list 0%Z;
  right_ ← py_getitem float_list 3%Z;
  top_ ← py_getitem float_list 4%Z;
  idx ← rtree_insert idx i (left_, bottom_, right_, top_);
  mret ((i + 1)%Z, idx, polygons).

Fixpoint get_tiles_loop (entries : list Entry) (st : Z * Index * list (list point))
  : Result (Z * Index * list (list point)) :=
  match entries with
  | [] => Ok st
  | entry :: entries' => st' ← get_tiles_entry st entry; get_tiles_loop entries' st'
  end.

Definition get_tiles (root : list Entry) (n : Z) : Result (Index * list (list point)) :=
  let polygons := replicate (Z.to_nat n) [(0, 0); (0, 0); (0, 0); (0, 0); (0, 0)] in
  '(_, idx, polygons) ← get_tiles_loop root (0%Z, [], polygons);
  mret (idx, polygons).

(** [__init__], from the catalogue that [get_dmr5g_xml] has loaded. *)
Definition Dmr5gParser_init (cache_dir : string) (root : list Entry) : Result Dmr5gParser :=
  let n := Z.of_nat (length root) in
  '(tile_idx, tile_polygons) ← get_tiles root n;
  mret (mkParser cache_dir root n tile_idx tile_polygons).

(** ** The tile resolver *)

Section Resolver.
Context {C : Collaborators}.

Definition get_intersection_tile_ids (self : Dmr5gParser) (point : point) : list Z :=
  rtree_intersection (tile_idx self) point.

Definition get_tile (self : Dmr5gParser) (id : Z) : Result (list point) :=
  if (n self <=? id)%Z then Raise (IndexError_out_of_bounds id (n self))
  else py_getitem (tile_polygons self) id.

(** [Polygon(np.array(WGS_TO_SJTSK.transform(tile[:,0], tile[:,1])).T)]. *)
Definition tile_to_sjtsk (tile : list point) : Polygon :=
  Polygon_new (map (fun v => WGS_TO_SJTSK (fst v) (snd v)) tile).

(** The [for] loop of [get_tile_id]. *)
Fixpoint get_tile_id_loop (self : Dmr5gParser) (point point_sjtsk : point)
    (ids : list Z) : Result Z :=
  match ids with
  | [] => Raise (PointOutOfTileError NoneOfSelected point)
  | id :: ids' =>
      tile ← get_tile self id;
      let tile_sjtsk := tile_to_sjtsk tile in
      let tile_sjtsk_fixed := fix_tile_coords tile_sjtsk in
      if contains tile_sjtsk_fixed point_sjtsk then Ok id
      else get_tile_id_loop self point point_sjtsk ids'
  end.

Definition get_tile_id (self : Dmr5gParser) (point : point) : Result Z :=
  let ids := get_intersection_tile_ids self point in
  let point_sjtsk := WGS_TO_SJTSK (snd point) (fst point) in
  if (1 <? length ids)%nat then
    get_tile_id_loop self point point_sjtsk ids
  else if (length ids =? 1)%nat then
    id ← py_getitem ids 0%Z;
    tile ← get_tile self id;
    let tile_sjtsk := tile_to_sjtsk tile in
    let tile_sjtsk_fixed := fix_tile_coords tile_sjtsk in
    if negb (contains tile_sjtsk_fixed point_sjtsk)
    then Raise (PointOutOfTileError OnlyOneSelected point)
    else Ok id
  else Raise (PointOutOfTileError NoTileFound point).

(** [int((2+2*np.floor((1.1+np.floor(radius/1000))/2))**2)], the
    expression of [get_tile_ids] and of [get_tile_ids_rect]. *)
Definition necessary_num_near_tiles (radius : Q) : Z :=
  py_int ((2 + 2 * np_floor (((11 # 10) + np_floor (radius / 1000)) / 2)) ^ 2).

(** The [for] loop of [get_tile_ids]; [ids] is the list built so far. *)
Fixpoint get_tile_ids_loop (self : Dmr5gParser) (circle : Circle)
    (tile_ids ids : list Z) : Result (list Z) :=
  match tile_ids with
  | [] => Ok ids
  | id :: tile_ids' =>
      tile ← get_tile self id;
      let tile_sjtsk := tile_to_sjtsk tile in
      let tile_sjtsk_fixed := fix_tile_coords tile_sjtsk in
      rect ← Rectangle_new (coords_xy tile_sjtsk_fixed);
      if c_r_intersects circle rect
      then get_tile_ids_loop self circle tile_ids' (ids ++ [id])
      else get_tile_ids_loop self circle tile_ids' ids
  end.

Definition get_tile_ids (self : Dmr5gParser) (point_sjtsk : point) (radius : Q)
  : Result (list Z) :=
  let point_wgs := SJTSK_TO_WGS (fst point_sjtsk) (snd point_sjtsk) in
  let tile_ids :=
    rtree_nearest (tile_idx self) (snd point_wgs, fst point_wgs)
      (necessary_num_near_tiles radius) in
  get_tile_ids_loop self (Circle_new point_sjtsk radius) tile_ids [].

(** The [for] loop of [get_tile_ids_rect]. *)
Fixpoint get_tile_ids_rect_loop (self : Dmr5gParser) (poly2check : Polygon)
    (tile_ids ids : list Z) : Result (list Z) :=
  match tile_ids with
  | [] => Ok ids
  | id :: tile_ids' =>
      tile ← get_tile self id;
      let tile_sjtsk := tile_to_sjtsk tile in
      let tile_sjtsk_fixed := fix_tile_coords tile_sjtsk in
      if intersects poly2check tile_sjtsk_fixed
      then get_tile_ids_rect_loop self poly2check tile_ids' (ids ++ [id])
      else get_tile_ids_rect_loop self poly2check tile_ids' ids
  end.

(** The radius that [get_tile_ids_rect] derives from two corners. *)
Definition rect_radius (tr_sjtsk bl_sjtsk : point) : Q :=
  np_sqrt ((fst tr_sjtsk - fst bl_sjtsk) ^ 2 + (snd tr_sjtsk - snd bl_sjtsk) ^ 2) / 2.

Definition get_tile_ids_rect (self : Dmr5gParser)
    (tl_sjtsk tr_sjtsk bl_sjtsk br_sjtsk : point) : Result (list Z) :=
  let poly2check := Polygon_new [tl_sjtsk; bl_sjtsk; br_sjtsk; tr_sjtsk] in
  let centre_point :=
    ((fst tl_sjtsk + fst br_sjtsk + fst tr_sjtsk + fst bl_sjtsk) / 4,
     (snd tl_sjtsk + snd br_sjtsk + snd tr_sjtsk + snd bl_sjtsk) / 4) in
  let centre_point_wgs := SJTSK_TO_WGS (fst centre_point) (snd centre_point) in
  let radius := rect_radius tr_sjtsk bl_sjtsk in
  let tile_ids :=
    rtree_nearest (tile_idx self) (snd centre_point_wgs, fst centre_point_wgs)
      (necessary_num_near_tiles radius) in
  get_tile_ids_rect_loop self poly2check tile_ids [].

End Resolver.

(** ** Looking an entry up by its ordinal *)

(** The loop of [get_tile_xml] and of [get_tile_update_date] over
    [enumerate(entries)]: [field] of the entry whose position is [id], and
    [None] when the loop ends without a [return]. *)
Fixpoint enumerate_find (field : Entry -> option string) (entries : list Entry) (i id : Z)
  : option string :=
  match entries with
  | [] => None
  | entry :: entries' =>
      if (i =? id)%Z then field entry
      else enumerate_find field entries' (i + 1)%Z id
  end.

Definition get_tile_xml (self : Dmr5gParser) (id : Z) : option string :=
  enumerate_find entry_id (root self) 0%Z id.

Definition get_tile_update_date (self : Dmr5gParser) (id : Z) : option string :=
  enumerate_find entry_updated (root self) 0%Z id.

(** [s.find(sub)]: the first position of [sub] in [s], or -1. *)
Definition str_find (s sub : string) : Z :=
  match String.index 0 sub s with
  | Some k => Z.of_nat k
  | None => (-1)%Z
  end.

(** [s[start:stop]] for a [start] that is not negative. *)
Definition str_slice (s : string) (start stop : Z) : string :=
  let len := Z.of_nat (String.length s) in
  let stop := if (stop <? 0)%Z then Z.max 0 (len + stop) else Z.min len stop in
  let start := Z.min len start in
  String.substring (Z.to_nat start) (Z.to_nat (stop - start)) s.

Definition get_tile_code (self : Dmr5gParser) (id : Z) : Result string :=
  match get_tile_xml self id with
  | None => Raise AttributeError
  | Some tile_url =>
      let tile_id_index :=
        (str_find tile_url "CUZK_DMR5G-SJTSK_"
         + Z.of_nat (String.length "CUZK_DMR5G-SJTSK_"))%Z in
      Ok (str_slice tile_url tile_id_index (-4)%Z)
  end.

(** ** The tile cache *)

(** A value of a JSON object: [null], a string, or any other value (a
    number, a boolean, a list, an object) by its text. *)
Inductive JsonValue : Type :=
| Json_null
| Json_string (s : string)
| Json_other (text : string).

(** [json.dumps] of what [get_tile_update_date] returned. *)
Definition json_of_date (update_date : option string) : JsonValue :=
  match update_date with
  | Some s => Json_string s
  | None => Json_null
  end.

(** What a file of the cache directory holds, as its readers find it: a
    ZIP archive (its file members, name and content, in the order of
    [namelist()]); a JSON document whose value is an object; a JSON
    document whose value is not an object ([null], a string, a number, a
    boolean or a list), by its text; or any other content, which
    [zipfile] and [json.load] both refuse. *)
Inductive FileContent : Type :=
| ZipArchive (members : list (string * string))
| JsonObject (d : gmap string JsonValue)
| JsonNotObject (text : string)
| Text (s : string).

(** The files of the cache directory, by path. *)
Abbreviation FileSystem := (gmap string FileContent).

(** The remote service at the time of a call: what [urlopen] reads from a
    locator and what [urlretrieve] fetches from it, [None] when the
    connection fails; and the archive locator that
    [ET.fromstring(data).find(entry).find(id).text] reads out of a tile
    descriptor, [None] when the document has none. *)
Record Network : Type := mkNetwork {
  urlopen : string -> option string;
  urlretrieve : string -> option FileContent;
  descriptor_archive : string -> option string
}.

Definition open_url (net : Network) (url : option string) : Result string :=
  match url with
  | None => Raise AttributeError
  | Some url =>
      match urlopen net url with
      | Some xml_data => Ok xml_data
      | None => Raise URLError
      end
  end.

Definition get_tile_zip (net : Network) (self : Dmr5gParser) (id : Z) : Result string :=
  let tile_url := get_tile_xml self id in
  tile_xml_data ← open_url net tile_url;
  match descriptor_archive net tile_xml_data with
  | Some zip_url => Ok zip_url
  | None => Raise AttributeError
  end.

(** The last character of a string. *)
Fixpoint last_char (s : string) : option Ascii.ascii :=
  match s with
  | EmptyString => None
  | String c EmptyString => Some c
  | String _ s' => last_char s'
  end.

(** What [zipfile] and [os.path] do and the program does not:
    [ZipFile.extract(member, path)] writes the member to
    [extract_target path member], which is [os.path.join] of [path] and of
    the member name without its empty, "." and ".." components,
    normalised by [os.path.normpath]. *)
Class Unpacker : Type := {
  extract_target : string -> string -> string
}.

(** [json.load] of the manifest, with the [except] that starts from an
    empty dictionary: the dictionary of a document that is an object, the
    empty one for a file that is no JSON document, and [None] for a
    document whose value is not an object, which [json.load] returns as
    it is. *)
Definition load_update_dict (fs : FileSystem) (path : string)
  : option (gmap string JsonValue) :=
  match fs !! path with
  | Some (JsonObject d) => Some d
  | Some (JsonNotObject _) => None
  | _ => Some ∅
  end.

(** [download_tile]: the value returned or the exception raised, and the
    cache directory as the call leaves it.  The directory is a flat map
    from paths to files: every path can be written.  (A member that is
    extracted over the archive it is read from is outside the model.) *)
Definition download_tile {U : Unpacker} (net : Network) (self : Dmr5gParser) (id : Z)
    (fs : FileSystem) : Result (option string) * FileSystem :=
  match get_tile_zip net self id with
  | Raise _ => (Ok None, fs)
  | Ok tile_zip =>
      match get_tile_code self id with
      | Raise e => (Raise e, fs)
      | Ok tile_code =>
          let tile_zip_fn := cache_dir self +:+ tile_code +:+ ".zip" in
          let tile_laz_fn := cache_dir self +:+ tile_code +:+ ".laz" in
          match urlretrieve net tile_zip with
          | None => (Raise URLError, fs)
          | Some archive =>
              let fs := <[tile_zip_fn := archive]> fs in
              match archive with
              | ZipArchive members =>
                  let update_dates_path := cache_dir self +:+ "update_dates.json" in
                  let fs :=
                    match fs !! update_dates_path with
                    | Some _ => fs
                    | None => <[update_dates_path := Text ""]> fs
                    end in
                  match load_update_dict fs update_dates_path with
                  | None =>
                      (* [open(update_dates_path, 'w')] has emptied the file
                         when the item assignment raises *)
                      (Raise TypeError, <[update_dates_path := Text ""]> fs)
                  | Some update_dict =>
                      let update_date := get_tile_update_date self id in
                      let update_dict := <[tile_code := json_of_date update_date]> update_dict in
                      let fs := <[update_dates_path := JsonObject update_dict]> fs in
                      match members with
                      | [] => (Raise IndexError_sequence, fs)
                      | (file_name, data) :: _ =>
                          let fs := <[extract_target (cache_dir self) file_name := Text data]> fs in
                          (* [os.rename(self.cache_dir + file_name, tile_laz_fn)] *)
                          match fs !! (cache_dir self +:+ file_name) with
                          | None => (Raise FileNotFoundError_rename, fs)
                          | Some content =>
                              (Ok (Some tile_laz_fn),
                               <[tile_laz_fn := content]>
                                 (delete (cache_dir self +:+ file_name) fs))
                          end
                      end
                  end
              | _ => (Raise BadZipFile, fs)
              end
          end
      end
  end.

(** The numbers "lat lon lat lon ..." of the rectangle between the given
    parallels and meridians, listed from the south-west corner eastwards
    and closed. *)
Definition rectangle_footprint (south west north east : Q) : list Q :=
  [south; west; south; east; north; east; north; west; south; west].

(** The extent (least x, least y, greatest x, greatest y) of a ring. *)
Definition extent (ring : list point) : Box :=
  match ring with
  | [] => (0, 0, 0, 0)
  | p :: ring' =>
      foldr (fun v '(l, b, r, t) =>
               (Qmin (fst v) l, Qmin (snd v) b, Qmax (fst v) r, Qmax (snd v) t))
            (fst p, snd p, fst p, snd p) ring'
  end.

(** ** A small world to run the program in

    Stand-ins for the collaborators, used by the concrete examples only: a
    linear chart in place of the projection (a degree is 1000 planar
    units), an R-tree that answers by scanning its entries in insertion
    order, the integer square root, and an [intersects] that compares the
    extents of the two rings (exact for the axis-parallel rectangles of
    the examples). *)
Module Example.

Definition box_has_point (b : Box) (q : point) : bool :=
  let '(left_, bottom_, right_, top_) := b in
  Qle_bool left_ (fst q) && Qle_bool (fst q) right_
  && Qle_bool bottom_ (snd q) && Qle_bool (snd q) top_.

Definition axis_gap (lo hi v : Q) : Q :=
  if Qlt_bool v lo then lo - v else if Qlt_bool hi v then v - hi else 0.

Definition box_distance_sq (q : point) (b : Box) : Q :=
  let '(left_, bottom_, right_, top_) := b in
  axis_gap left_ right_ (fst q) ^ 2 + axis_gap bottom_ top_ (snd q) ^ 2.

Fixpoint insert_by_distance (q : point) (e : Z * Box) (sorted : list (Z * Box))
  : list (Z * Box) :=
  match sorted with
  | [] => [e]
  | e' :: rest =>
      if Qlt_bool (box_distance_sq q (snd e)) (box_distance_sq q (snd e'))
      then e :: sorted
      else e' :: insert_by_distance q e rest
  end.

Definition scan_nearest (idx : Index) (q : point) (k : Z) : list Z :=
  map fst (take (Z.to_nat k) (foldr (insert_by_distance q) [] idx)).

Definition scan_intersection (idx : Index) (q : point) : list Z :=
  map fst (List.filter (fun e => box_has_point (snd e) q) idx).

Definition extents_meet (a b : Polygon) : bool :=
  let '(l1, b1, r1, t1) := extent (exterior_coords a) in
  let '(l2, b2, r2, t2) := extent (exterior_coords b) in
  Qle_bool l1 r2 && Qle_bool l2 r1 && Qle_bool b1 t2 && Qle_bool b2 t1.

(** [os.path.join] of a directory and a plain file name, on a system
    whose separator is "/". *)
Definition posix_join (path name : string) : string :=
  match last_char path with
  | None => name
  | Some c =>
      if Ascii.eqb c (Ascii.ascii_of_nat 47) then path +:+ name else path +:+ "/" +:+ name
  end.

(** The members of the examples have plain file names and the cache
    directories are written in normal form. *)
#[export] Instance unpacker : Unpacker := {| extract_target := posix_join |}.

#[export] Instance chart : Collaborators := {|
  WGS_TO_SJTSK lat lon := (lon * 1000, lat * 1000);
  SJTSK_TO_WGS x y := (y / 1000, x / 1000);
  np_sqrt v := inject_Z (Z.sqrt (Qfloor v));
  intersects := extents_meet;
  rtree_intersection := scan_intersection;
  rtree_nearest := scan_nearest
|}.

(** Three tiles whose reported extents overlap at the seams: tile 0 and
    tile 1 meet at planar x = 2500, tile 2 lies north of tile 0. *)
Definition catalogue : list Entry :=
  [ mkEntry (Some "https://atom.cuzk.cz/DMR5G-SJTSK/datasetFeeds/CZ-00025712-CUZK_DMR5G-SJTSK_TILE00.xml")
      (Some "2020-01-01T00:00:00") (rectangle_footprint 0 0 2 (26 # 10));
    mkEntry (Some "https://atom.cuzk.cz/DMR5G-SJTSK/datasetFeeds/CZ-00025712-CUZK_DMR5G-SJTSK_TILE01.xml")
      (Some "2021-06-01T00:00:00") (rectangle_footprint 0 (24 # 10) 2 (51 # 10));
    mkEntry (Some "https://atom.cuzk.cz/DMR5G-SJTSK/datasetFeeds/CZ-00025712-CUZK_DMR5G-SJTSK_TILE02.xml")
      (Some "2022-03-01T00:00:00") (rectangle_footprint (19 # 10) (-1 # 10) (405 # 100) (255 # 100)) ].

(** The parser built from [catalogue], as [Dmr5gParser_init] returns it. *)
Definition parser : Dmr5gParser :=
  match Dmr5gParser_init "/cache/" catalogue with
  | Ok self => self
  | Raise _ => mkParser "/cache/" [] 0 [] []
  end.

(** A catalogue of one tile whose footprint is not parallel to the
    axes: south-west, south-east, north-east, north-west and back. *)
Definition skewed_footprint : list Q :=
  [ 4990 # 100; 1420 # 100;  4989 # 100; 1424 # 100;  4991 # 100; 1425 # 100;
    4992 # 100; 1421 # 100;  4990 # 100; 1420 # 100 ].

Definition skewed_catalogue : list Entry :=
  [ mkEntry (Some "https://atom.cuzk.cz/DMR5G-SJTSK/datasetFeeds/CZ-00025712-CUZK_DMR5G-SJTSK_SKEW00.xml")
      (Some "2020-01-01T00:00:00") skewed_footprint ].

(** Three states of the remote service: everything is served; nothing is
    reachable; the descriptors are served and the archives are not. *)
Definition net_up : Network :=
  mkNetwork (fun _ => Some "<feed><entry><id>https://openzu.cuzk.cz/TILE.zip</id></entry></feed>")
            (fun _ => Some (ZipArchive [("TILE.laz", "points")]))
            (fun _ => Some "https://openzu.cuzk.cz/TILE.zip").

Definition net_down : Network :=
  mkNetwork (fun _ => None) (fun _ => None) (fun _ => None).

Definition net_archive_down : Network :=
  mkNetwork (urlopen net_up) (fun _ => None) (descriptor_archive net_up).

(** A cache that already holds the catalogue and a manifest. *)
Definition cache : gmap string FileContent :=
  <["/cache/DMR5G-SJTSK.xml" := Text "<feed/>"]>
    (<["/cache/update_dates.json" :=
         JsonObject (<["TILE07" := Json_string "2019-05-05T00:00:00"]> ∅)]> ∅).

(** A cache whose manifest is the JSON document "[1, 2]". *)
Definition listed_cache : gmap string FileContent :=
  <["/cache/update_dates.json" := JsonNotObject "[1, 2]"]> ∅.

(** The parser of a cache directory written without its final separator. *)
Definition bare_parser : Dmr5gParser :=
  match Dmr5gParser_init "/cache" catalogue with
  | Ok self => self
  | Raise _ => mkParser "/cache" [] 0 [] []
  end.

(** A catalogue of one tile, the rectangle of tile 0 listed the other way
    round: south-west, north-west, north-east, south-east and back. *)
Definition clockwise_catalogue : list Entry :=
  [ mkEntry (Some "https://atom.cuzk.cz/DMR5G-SJTSK/datasetFeeds/CZ-00025712-CUZK_DMR5G-SJTSK_TURN00.xml")
      (Some "2020-01-01T00:00:00")
      [0; 0;  2; 0;  2; 25 # 10;  0; 25 # 10;  0; 0] ].

Definition clockwise_parser : Dmr5gParser :=
  match Dmr5gParser_init "/cache/" clockwise_catalogue with
  | Ok self => self
  | Raise _ => mkParser "/cache/" [] 0 [] []
  end.

(** A footprint in planar coordinates as the projection returns it, a
    few metres off the grid at every corner. *)
Definition drifted_ring : list point :=
  [ (-745010, -1042003); (-742490, -1041995); (-742510, -1039990);
    (-744995, -1040020); (-745010, -1042003) ].

(** A footprint whose coordinates have a fraction, quarters of a metre. *)
Definition projected_ring : list point :=
  [ (-2980041 # 4, -4168013 # 4); (-2969963 # 4, -4167981 # 4);
    (-2970041 # 4, -4159961 # 4); (-2979981 # 4, -4160081 # 4);
    (-2980041 # 4, -4168013 # 4) ].


(** The tile of the grid that [drifted_ring] reports. *)
Definition grid_ring : list point :=
  [ (-745000, -1042000); (-742500, -1042000); (-742500, -1040000);
    (-745000, -1040000); (-745000, -1042000) ].

End Example.

(** The concrete examples below run in this world. *)
#[local] Existing Instance Example.chart.
#[local] Existing Instance Example.unpacker.

(** ** The transformers to and from a UTM zone *)

(** The result of a call whose exceptions are of the type [E]. *)
Inductive Outcome (E A : Type) : Type :=
| Returned (a : A)
| Raised (e : E).
Arguments Returned {E A} a.
Arguments Raised {E A} e.

Definition SJTSK : string := "EPSG:5514".
Definition WGS : string := "EPSG:4326".

(** [UTMZoneError]; its message quotes the letter. *)
Inductive UTMZoneError : Type :=
| UTMZoneError_letter (utm_letter : string).

(** [str(n)] of an integer: its decimal digits, after a minus sign when it
    is negative. *)
Definition py_str (n : Z) : string := pretty n.

Section UTM.
(** [pyproj.Transformer.from_crs], from the names of the two systems. *)
Context {Transformer : Type}.
Variable from_crs : string -> string -> Transformer.

Definition get_wgs_to_utm_trans (utm_letter : string) (utm_num : Z)
  : Outcome UTMZoneError Transformer :=
  if String.eqb utm_letter "N" then
    Returned (from_crs WGS ("EPSG:326" +:+ py_str utm_num))
  else if String.eqb utm_letter "S" then
    Returned (from_crs WGS ("EPSG:327" +:+ py_str utm_num))
  else Raised (UTMZoneError_letter utm_letter).

Definition get_sjtsk_to_utm_trans (utm_letter : string) (utm_num : Z)
  : Outcome UTMZoneError Transformer :=
  if String.eqb utm_letter "N" then
    Returned (from_crs SJTSK ("EPSG:326" +:+ py_str utm_num))
  else if String.eqb utm_letter "S" then
    Returned (from_crs SJTSK ("EPSG:327" +:+ py_str utm_num))
  else Raised (UTMZoneError_letter utm_letter).

Definition get_utm_to_sjtsk_trans (utm_letter : string) (utm_num : Z)
  : Outcome UTMZoneError Transformer :=
  if String.eqb utm_letter "N" then
    Returned (from_crs ("EPSG:326" +:+ py_str utm_num) SJTSK)
  else if String.eqb utm_letter "S" then
    Returned (from_crs ("EPSG:327" +:+ py_str utm_num) SJTSK)
  else Raised (UTMZoneError_letter utm_letter).

End UTM.

(** ** Loading the catalogue *)

(** What [get_dmr5g_xml] and [__init__] may raise: the error of the
    program, a document that is not well-formed, a file that does not read
    as text, and the exceptions of the calls they make. *)
Inductive CatalogueError : Type :=
| NoXMLFileError
| ParseError
| NotText
| FileNotFoundError
| Uncaught (e : Exception).

(** The world of a call of [get_dmr5g_xml]: the [Last-Modified] header
    that [requests.head] reads ([None] when the request or the header
    fails), the remote service, and the entries that [ET.fromstring] and
    [ET.parse] find in a document ([None] when it is not well-formed). *)
Record World : Type := mkWorld {
  head_last_modified : option string;
  world_net : Network;
  ET_entries : string -> option (list Entry)
}.

Definition xml_url : string := "https://atom.cuzk.cz/DMR5G-SJTSK/DMR5G-SJTSK.xml".

(** [f.readline()] at the start of a file opened in text mode: the text up
    to the end of the first line, that end included.  A line ends at a line
    feed, at a carriage return, or at the two together, and the reader
    gives each of them as a line feed. *)
Fixpoint readline (s : string) : string :=
  match s with
  | EmptyString => EmptyString
  | String c s' =>
      if Ascii.eqb c (Ascii.ascii_of_nat 10) || Ascii.eqb c (Ascii.ascii_of_nat 13)
      then String (Ascii.ascii_of_nat 10) EmptyString
      else String c (readline s')
  end.

(** The text of a file of the cache. *)
Definition read_text (fs : gmap string FileContent) (path : string)
  : Outcome CatalogueError string :=
  match fs !! path with
  | Some (Text s) => Returned s
  | Some _ => Raised NotText
  | None => Raised FileNotFoundError
  end.

(** [ET.parse(path).getroot()], as the entries of the document. *)
Definition ET_parse (w : World) (fs : gmap string FileContent) (path : string)
  : Outcome CatalogueError (list Entry) :=
  match read_text fs path with
  | Returned s =>
      match ET_entries w s with
      | Some root => Returned root
      | None => Raised ParseError
      end
  | Raised e => Raised e
  end.

(** [get_dmr5g_xml]: the catalogue that becomes [self.root], or the
    exception, and the cache directory as the call leaves it. *)
Definition get_dmr5g_xml (w : World) (cache_dir : string) (fs : gmap string FileContent)
  : Outcome CatalogueError (list Entry) * gmap string FileContent :=
  let xml_fn := cache_dir +:+ "DMR5G-SJTSK.xml" in
  match head_last_modified w with
  | None =>
      match fs !! xml_fn with
      | Some _ => (ET_parse w fs xml_fn, fs)
      | None => (Raised NoXMLFileError, fs)
      end
  | Some xml_updated =>
      let prev_xml_updated_fn := cache_dir +:+ "DMR5G_last_modified.txt" in
      let fetch_xml :=
        match fs !! prev_xml_updated_fn with
        | Some _ =>
            match read_text fs prev_xml_updated_fn with
            | Returned content =>
                let prev_xml_updated := readline content in
                Returned (negb (String.eqb prev_xml_updated xml_updated))
            | Raised e => Raised e
            end
        | None => Returned true
        end in
      match fetch_xml with
      | Raised e => (Raised e, fs)
      | Returned fetch_xml =>
          if fetch_xml || negb (bool_decide (is_Some (fs !! xml_fn))) then
            match open_url (world_net w) (Some xml_url) with
            | Raise e => (Raised (Uncaught e), fs)
            | Ok xml_data =>
                match ET_entries w xml_data with
                | None => (Raised ParseError, fs)
                | Some root =>
                    (Returned root,
                     <[prev_xml_updated_fn := Text xml_updated]>
                       (<[xml_fn := Text xml_data]> fs))
                end
            end
          else (ET_parse w fs xml_fn, fs)
      end
  end.

(** [Dmr5gParser(cache_dir)]: [get_dmr5g_xml], then the count of the
    entries and [get_tiles]. *)
Definition Dmr5gParser_new (w : World) (cache_dir : string) (fs : gmap string FileContent)
  : Outcome CatalogueError Dmr5gParser * gmap string FileContent :=
  match get_dmr5g_xml w cache_dir fs with
  | (Raised e, fs') => (Raised e, fs')
  | (Returned root, fs') =>
      match Dmr5gParser_init cache_dir root with
      | Ok self => (Returned self, fs')
      | Raise e => (Raised (Uncaught e), fs')
      end
  end.

(** ** Worlds to load the example catalogue in *)
Module Scenario.

(** The text of the catalogue on the remote service, and the one document
    that the parser of the scenario reads: its entries are those of
    [Example.catalogue]. *)
Definition catalogue_text : string := "<feed><entry>TILE00</entry><entry>TILE01</entry><entry>TILE02</entry></feed>".

Definition entries_of (document : string) : option (list Entry) :=
  if String.eqb document catalogue_text then Some Example.catalogue else None.

(** The service is reachable and dates the catalogue. *)
Definition online : World :=
  mkWorld (Some "Tue, 03 Nov 2026 08:00:00 GMT")
          (mkNetwork (fun _ => Some catalogue_text)
                     (urlretrieve Example.net_up) (descriptor_archive Example.net_up))
          entries_of.

(** Nothing is reachable. *)
Definition offline : World := mkWorld None Example.net_down entries_of.

(** The header is served and the catalogue is not. *)
Definition header_only : World :=
  mkWorld (head_last_modified online) Example.net_down entries_of.

(** An empty cache directory, and the cache that a first load leaves. *)
Definition empty_cache : gmap string FileContent := ∅.

Definition loaded_cache : gmap string FileContent :=
  snd (get_dmr5g_xml online "/cache/" empty_cache).

End Scenario.

(** ** Notions the properties are stated with *)

(** The normaliser as the specification words it, on one coordinate: with
    [r] the coordinate modulo the grid step [S], the coordinate less [r]
    when [r < S/2], and the coordinate plus [S - r] otherwise. *)
Definition snap (S c : Q) : Q :=
  let r := py_mod c S in
  if Qlt_bool r (S / 2) then c - r else c + (S - r).

(** The grid steps are 2500 on x and 2000 on y. *)
Definition snap_vertex (v : point) : point := (snap 2500 (fst v), snap 2000 (snd v)).

(** The ring ends where it starts, as the exterior of every polygon does. *)
Definition ring_closed (coords : list point) : bool :=
  match coords with
  | [] => true
  | p :: _ => point_eqb p (List.last coords p)
  end.

(** Two points, and two polygons, with the same numbers. *)
Definition point_equiv (p q : point) : Prop := fst p == fst q /\ snd p == snd q.
Definition polygon_equiv (a b : Polygon) : Prop :=
  Forall2 point_equiv (exterior_coords a) (exterior_coords b).

(** The vertex lies on the 2500 x 2000 grid. *)
Definition on_grid (v : point) : Prop :=
  (exists k : Z, fst v == 2500 * inject_Z k) /\ (exists k : Z, snd v == 2000 * inject_Z k).


(** The normaliser of float64 on one coordinate. *)
Definition snap64 (S half c : Q) : Q :=
  let r := np_remainder c S in
  if Qlt_bool r half then sub64 c r else add64 c (sub64 S r).

Definition snap_vertex64 (v : point) : point :=
  (snap64 2500 1250 (fst v), snap64 2000 1000 (snd v)).

(** The multiples of [2^-k]. *)
Definition lattice (k : Z) (q : Q) : Prop := exists j : Z, q == inject_Z j * 2 ^ (- k).

(** The numbers [j / 2^k] of magnitude below [2^(53-k)]: float64 numbers
    when [k <= 1074]. *)
Definition representable (k : Z) (q : Q) : Prop :=
  lattice k q /\ Qabs q < 2 ^ (53 - k).

(** The coordinates on which the normaliser of float64 computes without
    rounding: float64 numbers that are not negative or are -2048 at most,
    and 2500 away from [2^53]. *)
Definition float_safe (c : Q) : Prop :=
  (exists k : Z, (0 <= k <= 1074)%Z /\ representable k c)
  /\ Qabs c + 2500 < 2 ^ 53
  /\ (0 <= c \/ c <= -2048).

Definition float_safe_vertex (v : point) : Prop := float_safe (fst v) /\ float_safe (snd v).

(** The footprint that an entry reports: its numbers two by two, each
    pair a latitude and a longitude. *)
Fixpoint reported_footprint (float_list : list Q) : list point :=
  match float_list with
  | a :: b :: rest => (a, b) :: reported_footprint rest
  | _ => []
  end.

(** The box (left, bottom, right, top) that [get_tiles] reads off the
    numbers of an entry: the longitude and the latitude of the first
    vertex, the longitude of the second and the latitude of the third. *)
Definition stored_box (float_list : list Q) : Box :=
  (nth 1 float_list 0, nth 0 float_list 0, nth 3 float_list 0, nth 4 float_list 0).

(** The entries on which a turn of the loop of [get_tiles] raises
    nothing: an even number of floats, five at least, and a box that the
    R-tree accepts. *)
Definition entry_ok (entry : Entry) : bool :=
  let float_list := entry_polygon entry in
  Nat.even (length float_list) && (5 <=? length float_list)%nat
  && list_le2 (stored_box float_list).

(** The entries of the index for the catalogue entries numbered from [i]. *)
Fixpoint index_entries (i : Z) (entries : list Entry) : Index :=
  match entries with
  | [] => []
  | entry :: entries' => (i, stored_box (entry_polygon entry)) :: index_entries (i + 1)%Z entries'
  end.

(** The vertex (latitude, longitude) lies within the box. *)
Definition box_has_vertex (b : Box) (v : point) : Prop :=
  let '(left_, bottom_, right_, top_) := b in
  left_ <= snd v <= right_ /\ bottom_ <= fst v <= top_.

(** The number of candidates as the specification words it:
    (2 + 2 floor((1.1 + floor(radius / 1000)) / 2)) squared. *)
Definition candidate_count (radius : Q) : Z :=
  ((2 + 2 * Qfloor (((11 # 10) + inject_Z (Qfloor (radius / 1000))) / 2)) ^ 2)%Z.

(** The normalised footprint of the tile of ordinal [id]. *)
Definition normalized_footprint {C : Collaborators} (self : Dmr5gParser) (id : Z) : Polygon :=
  fix_tile_coords (tile_to_sjtsk (nth (Z.to_nat id) (tile_polygons self) [])).

(** The rectangle that [Rectangle] reads off a polygon: left and bottom
    from the first vertex, right from the second, top from the third. *)
Definition footprint_rectangle (poly : Polygon) : Rectangle :=
  let xs := map fst (exterior_coords poly) in
  let ys := map snd (exterior_coords poly) in
  let l := nth 0 xs 0 in
  let b := nth 0 ys 0 in
  let r := nth 1 xs 0 in
  let t := nth 2 ys 0 in
  mkRectangle ((l + r) / 2) ((b + t) / 2) (r - l) (t - b).

(** The axis-aligned bounding rectangle of a polygon, from the least and
    the greatest coordinate of its vertices on each axis. *)
Definition bounding_rectangle (poly : Polygon) : Rectangle :=
  let '(l, b, r, t) := extent (exterior_coords poly) in
  mkRectangle ((l + r) / 2) ((b + t) / 2) (r - l) (t - b).

Definition rectangle_equiv (a b : Rectangle) : Prop :=
  rect_x a == rect_x b /\ rect_y a == rect_y b
  /\ rect_w a == rect_w b /\ rect_h a == rect_h b.

(** The ring of the axis-parallel rectangle from (l, b) to (r, t), listed
    from its lower-left corner through the lower-right and the upper-right. *)
Definition canonical_ring (l b r t : Q) : list point :=
  [(l, b); (r, b); (r, t); (l, t); (l, b)].

(** The circle-rectangle test as the specification words it. *)
Definition circle_meets_rectangle (circle : Circle) (rect : Rectangle) : Prop :=
  let dx := Qabs (circle_x circle - rect_x rect) in
  let dy := Qabs (circle_y circle - rect_y rect) in
  dx <= rect_w rect / 2 + circle_r circle
  /\ dy <= rect_h rect / 2 + circle_r circle
  /\ (dx <= rect_w rect / 2 \/ dy <= rect_h rect / 2
      \/ (dx - rect_w rect / 2) ^ 2 + (dy - rect_h rect / 2) ^ 2 <= circle_r circle ^ 2).

(** The disc of the circle and the rectangle have a point in common. *)
Definition disc_meets_rectangle (circle : Circle) (rect : Rectangle) : Prop :=
  exists x y : Q,
    Qabs (x - rect_x rect) <= rect_w rect / 2
    /\ Qabs (y - rect_y rect) <= rect_h rect / 2
    /\ (x - circle_x circle) ^ 2 + (y - circle_y circle) ^ 2 <= circle_r circle ^ 2.

(* ===================================================================== *)
(** * Properties *)

(** ** Arithmetic of the grid *)

Lemma Qlt_bool_iff (x y : Q) : Qlt_bool x y = true <-> x < y.
Proof.
  unfold Qlt_bool. rewrite negb_true_iff, <- not_true_iff_false, Qle_bool_iff.
  split; [apply Qnot_le_lt | apply Qlt_not_le].
Qed.

Lemma Qlt_bool_false_iff (x y : Q) : Qlt_bool x y = false <-> y <= x.
Proof.
  unfold Qlt_bool. rewrite negb_false_iff. apply Qle_bool_iff.
Qed.

#[export] Instance Qlt_bool_comp : Proper (Qeq ==> Qeq ==> eq) Qlt_bool.
Proof. intros x x' Hx y y' Hy. unfold Qlt_bool. now rewrite Hx, Hy. Qed.

#[export] Instance np_floor_comp : Proper (Qeq ==> Qeq) np_floor.
Proof. intros x y H. unfold np_floor. now rewrite H. Qed.

#[export] Instance py_mod_comp : Proper (Qeq ==> Qeq ==> Qeq) py_mod.
Proof. intros x x' Hx s s' Hs. unfold py_mod. now rewrite Hx, Hs. Qed.

#[export] Instance snap_comp : Proper (Qeq ==> Qeq ==> Qeq) snap.
Proof.
  intros s s' Hs x x' Hx. unfold snap.
  assert (Hr : py_mod x s == py_mod x' s') by now rewrite Hx, Hs.
  assert (Hh : s / 2 == s' / 2) by now rewrite Hs.
  rewrite (Qlt_bool_comp _ _ Hr _ _ Hh).
  destruct (Qlt_bool _ _); rewrite Hr, Hx; [reflexivity | now rewrite Hs].
Qed.

(** [snap] lands on a multiple of the step. *)
Lemma snap_multiple (s c : Q) :
  0 < s -> exists k : Z, snap s c == s * inject_Z k.
Proof.
  intros Hs. unfold snap, py_mod, np_floor.
  destruct (Qlt_bool _ _).
  - exists (Qfloor (c / s)). ring.
  - exists (Qfloor (c / s) + 1)%Z. rewrite inject_Z_plus. ring.
Qed.

(** A multiple of the step is left where it is. *)
Lemma snap_fixed (s c : Q) (k : Z) :
  0 < s -> c == s * inject_Z k -> snap s c == c.
Proof.
  intros Hs Hc.
  assert (Hmod : py_mod c s == 0).
  { unfold py_mod, np_floor.
    assert (Hq : c / s == inject_Z k) by (rewrite Hc; field; lra).
    rewrite Hq, Qfloor_Z, Hc. ring. }
  unfold snap. cbv zeta.
  assert (Hlt : Qlt_bool (py_mod c s) (s / 2) = true).
  { apply Qlt_bool_iff. rewrite Hmod. apply Qlt_shift_div_l; lra. }
  rewrite Hlt, Hmod. ring.
Qed.

Lemma snap_idempotent (s c : Q) : 0 < s -> snap s (snap s c) == snap s c.
Proof.
  intros Hs. destruct (snap_multiple s c Hs) as [k Hk].
  now apply (snap_fixed s _ k).
Qed.

Lemma py_mod_range (c s : Q) : 0 < s -> 0 <= py_mod c s /\ py_mod c s < s.
Proof.
  intros Hs. unfold py_mod, np_floor.
  pose proof (Qfloor_le (c / s)) as Hlo. pose proof (Qlt_floor (c / s)) as Hhi.
  rewrite inject_Z_plus in Hhi. change (inject_Z 1) with 1 in Hhi.
  assert (Hc : c == s * (c / s)) by (field; lra).
  set (f := inject_Z (Qfloor (c / s))) in *.
  assert (H1 : s * f <= s * (c / s)) by (apply Qmult_le_l; assumption).
  assert (H2 : s * (c / s) < s * (f + 1)) by (apply Qmult_lt_l; assumption).
  split; lra.
Qed.

Lemma snap_cases (s c : Q) :
  0 < s ->
  let f := inject_Z (Qfloor (c / s)) in
  s * f <= c /\ c < s * f + s
  /\ ((c - s * f < s / 2 /\ snap s c == s * f)
      \/ (s / 2 <= c - s * f /\ snap s c == s * f + s)).
Proof.
  intros Hs f. destruct (py_mod_range c s Hs) as [Hlo Hhi].
  unfold snap. cbv zeta. unfold py_mod, np_floor in *. fold f in Hlo, Hhi |- *.
  split; [lra|]. split; [lra|].
  destruct (Qlt_bool (c - s * f) (s / 2)) eqn:E.
  - left. apply Qlt_bool_iff in E. split; [exact E | ring].
  - right. apply Qlt_bool_false_iff in E. split; [exact E | ring].
Qed.

(** [snap] moves a coordinate by half a step at most, and no multiple of
    the step is nearer to the coordinate than the one it chooses. *)
Lemma snap_nearest (s c : Q) (k : Z) :
  0 < s ->
  Qabs (snap s c - c) <= s / 2
  /\ Qabs (snap s c - c) <= Qabs (s * inject_Z k - c).
Proof.
  intros Hs. destruct (snap_cases s c Hs) as (Hlo & Hhi & Hcase). cbv zeta in *.
  set (f := Qfloor (c / s)) in *.
  assert (Hk : s * inject_Z k <= s * inject_Z f \/ s * inject_Z f + s <= s * inject_Z k).
  { destruct (Z_le_gt_dec k f) as [Hle|Hgt].
    - left. apply Qmult_le_l; [exact Hs|]. now rewrite <- Zle_Qle.
    - right. assert (H : (f + 1 <= k)%Z) by lia.
      rewrite Zle_Qle, inject_Z_plus in H. change (inject_Z 1) with 1 in H.
      assert (H' : s * (inject_Z f + 1) <= s * inject_Z k)
        by (apply Qmult_le_l; assumption).
      lra. }
  assert (Hhalf : s / 2 == s * (1 # 2)) by (unfold Qdiv; reflexivity).
  destruct Hcase as [[Hr E] | [Hr E]]; rewrite E; split;
    apply Qabs_case; intros; try (apply Qabs_case; intros); destruct Hk; lra.
Qed.

(** ** The masked updates of numpy, element by element *)

Lemma np_isub_masked_map (f : Q -> Q) (p : Q -> bool) (xs : list Q) :
  np_isub_masked (map p (map f xs)) xs (np_select (map p (map f xs)) (map f xs))
  = map (fun x => if p (f x) then x - f x else x) xs.
Proof.
  unfold np_isub_masked. induction xs as [|x xs IH]; [reflexivity|].
  cbn [map np_select]. destruct (p (f x)); cbn [np_zip_with np_put]; now rewrite IH.
Qed.

Lemma np_iadd_masked_map (f g h : Q -> Q) (q : Q -> bool) (xs : list Q) :
  np_iadd_masked (map q (map f xs)) (map h xs)
    (map g (np_select (map q (map f xs)) (map f xs)))
  = map (fun x => if q (f x) then h x + g (f x) else h x) xs.
Proof.
  unfold np_iadd_masked. induction xs as [|x xs IH]; [reflexivity|].
  cbn [map np_select]. destruct (q (f x)); cbn [map np_zip_with np_put]; now rewrite IH.
Qed.

(** The two masked updates of one axis amount to [snap]. *)
Lemma axis_fixed (s half : Q) (xs : list Q) :
  half == s / 2 ->
  let x_mod := map (fun v => py_mod v s) xs in
  let x_mask := map (fun r => Qlt_bool r half) x_mod in
  np_iadd_masked (map negb x_mask)
    (np_isub_masked x_mask xs (np_select x_mask x_mod))
    (map (fun r => s - r) (np_select (map negb x_mask) x_mod))
  = map (snap s) xs.
Proof.
  intros Hhalf x_mod x_mask. subst x_mod x_mask.
  rewrite np_isub_masked_map.
  rewrite (map_map (fun r => Qlt_bool r half) negb).
  rewrite (np_iadd_masked_map (fun v => py_mod v s) (fun r => s - r)
             (fun x => if Qlt_bool (py_mod x s) half then x - py_mod x s else x)
             (fun r => negb (Qlt_bool r half))).
  apply map_ext. intros x. unfold snap. cbv zeta.
  rewrite <- (Qlt_bool_comp _ _ (Qeq_refl (py_mod x s)) _ _ Hhalf).
  now destruct (Qlt_bool (py_mod x s) half).
Qed.

Lemma combine_map_fst_snd {A B} (f : Q -> A) (g : Q -> B) (l : list point) :
  combine (map f (map fst l)) (map g (map snd l)) = map (fun v => (f (fst v), g (snd v))) l.
Proof. induction l as [|v l IH]; [reflexivity|]. cbn. now rewrite IH. Qed.

(** Whatever the ring, the normaliser builds the polygon of the snapped
    vertices. *)
Lemma fix_tile_coords_unfold (tile : Polygon) :
  fix_tile_coords tile = Polygon_new (map snap_vertex (exterior_coords tile)).
Proof.
  unfold fix_tile_coords, coords_xy.
  rewrite (axis_fixed 2500 1250 (map fst (exterior_coords tile))) by reflexivity.
  rewrite (axis_fixed 2000 1000 (map snd (exterior_coords tile))) by reflexivity.
  now rewrite combine_map_fst_snd.
Qed.

Lemma close_ring_closed (coords : list point) :
  ring_closed coords = true -> close_ring coords = coords.
Proof.
  unfold ring_closed, close_ring. destruct coords as [|p l]; [reflexivity|].
  now intros ->.
Qed.

Lemma point_eqb_equiv (p q : point) : point_eqb p q = true <-> point_equiv p q.
Proof.
  unfold point_eqb, point_equiv. now rewrite andb_true_iff, !Qeq_bool_iff.
Qed.

Lemma snap_vertex_equiv (p q : point) :
  point_equiv p q -> point_equiv (snap_vertex p) (snap_vertex q).
Proof.
  intros [Hx Hy]. split; cbn [snap_vertex fst snd]; now apply snap_comp.
Qed.

Lemma last_map {A B} (f : A -> B) (l : list A) (d : A) :
  List.last (map f l) (f d) = f (List.last l d).
Proof.
  induction l as [|a l IH]; [reflexivity|].
  destruct l as [|b l]; [reflexivity|]. exact IH.
Qed.

Lemma ring_closed_snap (coords : list point) :
  ring_closed coords = true -> ring_closed (map snap_vertex coords) = true.
Proof.
  destruct coords as [|p l]; [reflexivity|].
  unfold ring_closed. intros H.
  pose proof (last_map snap_vertex (p :: l) p) as E.
  cbn [map] in E |- *. rewrite E. apply point_eqb_equiv, snap_vertex_equiv, point_eqb_equiv, H.
Qed.

Lemma ring_closed_close_ring (coords : list point) :
  ring_closed (close_ring coords) = true.
Proof.
  unfold close_ring. destruct coords as [|p l]; [reflexivity|].
  destruct (point_eqb p (List.last (p :: l) p)) eqn:E; [exact E|].
  unfold ring_closed. cbn [app].
  change (p :: l ++ [p]) with ((p :: l) ++ [p]). rewrite List.last_last.
  apply point_eqb_equiv. split; reflexivity.
Qed.

Lemma snap_vertex_on_grid (v : point) : on_grid (snap_vertex v).
Proof. split; cbn [snap_vertex fst snd]; apply snap_multiple; reflexivity. Qed.

Lemma snap_vertex_fixed (v : point) : on_grid v -> point_equiv (snap_vertex v) v.
Proof.
  intros [[k Hk] [j Hj]]. split; cbn [snap_vertex fst snd].
  - now apply (snap_fixed 2500 _ k).
  - now apply (snap_fixed 2000 _ j).
Qed.

Lemma map_snap_vertex_fixed (l : list point) :
  Forall on_grid l -> Forall2 point_equiv (map snap_vertex l) l.
Proof.
  induction 1 as [|v l Hv _ IH]; cbn [map]; constructor; auto using snap_vertex_fixed.
Qed.

Lemma close_ring_Forall (P : point -> Prop) (l : list point) :
  Forall P l -> Forall P (close_ring l).
Proof.
  intros H. unfold close_ring. destruct l as [|p l]; [constructor|].
  destruct (point_eqb _ _); [exact H|].
  apply Forall_app. split; [exact H|]. constructor; [|constructor].
  now inversion H.
Qed.

Lemma fix_tile_coords_on_grid (tile : Polygon) :
  Forall on_grid (exterior_coords (fix_tile_coords tile)).
Proof.
  rewrite fix_tile_coords_unfold. cbn [Polygon_new exterior_coords].
  apply close_ring_Forall, List.Forall_forall. intros v Hv.
  apply in_map_iff in Hv as (w & <- & _). apply snap_vertex_on_grid.
Qed.

Lemma fix_tile_coords_closed (tile : Polygon) :
  ring_closed (exterior_coords (fix_tile_coords tile)) = true.
Proof. rewrite fix_tile_coords_unfold. apply ring_closed_close_ring. Qed.

Lemma fix_tile_coords_of_closed (tile : Polygon) :
  ring_closed (exterior_coords tile) = true ->
  exterior_coords (fix_tile_coords tile) = map snap_vertex (exterior_coords tile).
Proof.
  intros H. rewrite fix_tile_coords_unfold. cbn [Polygon_new exterior_coords].
  now apply close_ring_closed, ring_closed_snap.
Qed.

(** ** The footprint normaliser *)

(** C3.  [fix_tile_coords] maps every vertex of a polygon by itself and each
    axis by itself, with the step 2500 on x and 2000 on y: the coordinate
    [c], with [r = c mod S], becomes [c - r] when [r < S/2] and
    [c + (S - r)] otherwise ([snap]).  The vertices keep their number and
    their order. *)
Theorem fix_tile_coords_snaps_each_vertex (tile : Polygon) :
  ring_closed (exterior_coords tile) = true ->
  exterior_coords (fix_tile_coords tile) = map snap_vertex (exterior_coords tile)
  /\ length (exterior_coords (fix_tile_coords tile)) = length (exterior_coords tile)
  /\ (forall i : nat,
        exterior_coords (fix_tile_coords tile) !! i
        = snap_vertex <$> exterior_coords tile !! i).
Proof.
  intros H. rewrite (fix_tile_coords_of_closed tile H). split; [reflexivity|]. split.
  - apply length_map.
  - intros i. apply list_lookup_fmap.
Qed.

(** In exact arithmetic, normalising twice is normalising once, and a
    polygon whose vertices all lie on the 2500 x 2000 grid comes back with
    the same vertices. *)
Lemma fix_tile_coords_idempotent_exact (P : Polygon) :
  polygon_equiv (fix_tile_coords (fix_tile_coords P)) (fix_tile_coords P)
  /\ (ring_closed (exterior_coords P) = true ->
      Forall on_grid (exterior_coords P) ->
      polygon_equiv (fix_tile_coords P) P).
Proof.
  split.
  - unfold polygon_equiv.
    rewrite (fix_tile_coords_of_closed _ (fix_tile_coords_closed P)).
    apply map_snap_vertex_fixed, fix_tile_coords_on_grid.
  - intros Hc Hg. unfold polygon_equiv.
    rewrite (fix_tile_coords_of_closed _ Hc). now apply map_snap_vertex_fixed.
Qed.

Lemma fix_tile_coords_snaps_each_vertex_witness :
  ring_closed Example.drifted_ring = true
  /\ exterior_coords (fix_tile_coords (mkPolygon Example.drifted_ring))
     = map snap_vertex Example.drifted_ring
  /\ length (exterior_coords (fix_tile_coords (mkPolygon Example.drifted_ring)))
     = length Example.drifted_ring
  /\ (forall i : nat,
        exterior_coords (fix_tile_coords (mkPolygon Example.drifted_ring)) !! i
        = snap_vertex <$> Example.drifted_ring !! i).
Proof.
  split; [reflexivity|].
  apply (fix_tile_coords_snaps_each_vertex (mkPolygon Example.drifted_ring)).
  reflexivity.
Defined.

(** The drifted footprint is normalised to the tile of the grid. *)
Example fix_tile_coords_drifted :
  polygon_equiv (fix_tile_coords (mkPolygon Example.drifted_ring))
                (mkPolygon Example.grid_ring).
Proof. unfold polygon_equiv. vm_compute. repeat constructor. Qed.

Example fix_tile_coords_idempotent_exact_samples :
  polygon_equiv (fix_tile_coords (fix_tile_coords (mkPolygon Example.drifted_ring)))
                (fix_tile_coords (mkPolygon Example.drifted_ring))
  /\ polygon_equiv (fix_tile_coords (mkPolygon Example.grid_ring))
                   (mkPolygon Example.grid_ring).
Proof.
  split.
  - apply (fix_tile_coords_idempotent_exact (mkPolygon Example.drifted_ring)).
  - apply (fix_tile_coords_idempotent_exact (mkPolygon Example.grid_ring)).
    + reflexivity.
    + unfold Example.grid_ring. cbn [exterior_coords].
      repeat constructor;
        match goal with
        | |- exists k : Z, ?c == 2500 * _ => exists (Qfloor (c / 2500)); reflexivity
        | |- exists k : Z, ?c == 2000 * _ => exists (Qfloor (c / 2000)); reflexivity
        end.
Qed.

(** ** The footprint normaliser in the arithmetic of float64 *)

Lemma two_neq_0 : ~ 2 == 0.
Proof. discriminate. Qed.

Lemma pow2_pos (e : Z) : 0 < 2 ^ e.
Proof. apply Qpower_0_lt. reflexivity. Qed.

#[export] Instance round_half_even_comp : Proper (Qeq ==> eq) round_half_even.
Proof.
  intros x y H. unfold round_half_even. cbv zeta.
  rewrite (Qfloor_comp _ _ H).
  assert (E : x - inject_Z (Qfloor y) == y - inject_Z (Qfloor y)) by now rewrite H.
  now rewrite (Qcompare_comp _ _ E _ _ (Qeq_refl (1 # 2))).
Qed.

Lemma round_half_even_Z (z : Z) : round_half_even (inject_Z z) = z.
Proof.
  unfold round_half_even. cbv zeta. rewrite Qfloor_Z.
  assert (E : inject_Z z - inject_Z z == 0) by ring.
  now rewrite (Qcompare_comp _ _ E _ _ (Qeq_refl (1 # 2))).
Qed.

Lemma ulp_exponent_le (k : Z) (q : Q) :
  (k <= 1074)%Z -> ~ q == 0 -> Qabs q < 2 ^ (53 - k) -> (ulp_exponent q <= - k)%Z.
Proof.
  intros Hk Hq Hlt. unfold ulp_exponent. cbv zeta.
  apply Z.max_lub; [|lia].
  set (n := Qnum (Qabs q)). set (d := Qden (Qabs q)).
  destruct (Qle_bool (2 ^ (52 + (Z.log2 n - Z.log2 (Zpos d) - 52))) (Qabs q)) eqn:E.
  - apply Qle_bool_iff in E.
    assert (H : 2 ^ (52 + (Z.log2 n - Z.log2 (Zpos d) - 52)) < 2 ^ (53 - k))
      by (eapply Qle_lt_trans; eassumption).
    apply Qpower_lt_compat_l_inv in H; [lia | reflexivity].
  - clear E.
    assert (Hn : (0 < n)%Z).
    { unfold n. destruct q as [qn qd]. cbn [Qabs Qnum].
      assert (qn <> 0)%Z by (intros ->; apply Hq; reflexivity). lia. }
    destruct (Z.log2_spec n Hn) as [Hlo _].
    destruct (Z.log2_spec (Zpos d) (Pos2Z.is_pos d)) as [_ Hhi].
    assert (Ha : Qabs q == inject_Z n / inject_Z (Zpos d)).
    { unfold n, d. destruct (Qabs q) as [an ad]. cbn [Qnum Qden]. apply Qmake_Qdiv. }
    assert (Hd0 : 0 < inject_Z (Zpos d)) by reflexivity.
    assert (H1 : 2 ^ (Z.log2 n) <= inject_Z n).
    { rewrite <- (Zpower_Qpower 2) by apply Z.log2_nonneg. now rewrite <- Zle_Qle. }
    assert (H2 : inject_Z (Zpos d) < 2 ^ (Z.log2 (Zpos d) + 1)).
    { rewrite <- (Zpower_Qpower 2) by (pose proof (Z.log2_nonneg (Zpos d)); lia).
      rewrite <- Zlt_Qlt. exact Hhi. }
    assert (H3 : 2 ^ (Z.log2 n - Z.log2 (Zpos d) - 1) < 2 ^ (53 - k)).
    { eapply Qlt_trans; [|exact Hlt]. rewrite Ha.
      apply Qlt_shift_div_l; [exact Hd0|].
      apply Qlt_le_trans
        with (2 ^ (Z.log2 n - Z.log2 (Zpos d) - 1) * 2 ^ (Z.log2 (Zpos d) + 1)).
      - apply Qmult_lt_l; [apply pow2_pos | exact H2].
      - rewrite <- Qpower_plus by apply two_neq_0.
        replace (Z.log2 n - Z.log2 (Zpos d) - 1 + (Z.log2 (Zpos d) + 1))%Z
          with (Z.log2 n) by lia.
        exact H1. }
    apply Qpower_lt_compat_l_inv in H3; [lia | reflexivity].
Qed.

Lemma round64_exact (k : Z) (q : Q) :
  (k <= 1074)%Z -> representable k q -> round64 q == q.
Proof.
  intros Hk [[j Hj] Hlt]. unfold round64. cbv zeta.
  destruct (Qeq_dec q 0) as [H0|H0].
  - generalize (ulp_exponent q). intros e.
    assert (E : q / 2 ^ e == inject_Z 0).
    { rewrite H0. unfold Qdiv. ring. }
    rewrite (round_half_even_comp _ _ E), round_half_even_Z, H0. ring.
  - pose proof (ulp_exponent_le k q Hk H0 Hlt) as He.
    set (e := ulp_exponent q) in *.
    assert (E : q / 2 ^ e == inject_Z (j * 2 ^ (- k - e))).
    { rewrite inject_Z_mult, (Zpower_Qpower 2) by lia.
      change (inject_Z 2) with 2. rewrite Hj.
      replace (- k - e)%Z with (- k + - e)%Z by lia.
      rewrite Qpower_plus by apply two_neq_0. rewrite (Qpower_opp 2 e).
      unfold Qdiv. ring. }
    rewrite (round_half_even_comp _ _ E), round_half_even_Z.
    rewrite inject_Z_mult, (Zpower_Qpower 2) by lia.
    change (inject_Z 2) with 2. rewrite Hj.
    rewrite <- Qmult_assoc, <- Qpower_plus by apply two_neq_0.
    now replace (- k - e + e)%Z with (- k)%Z by lia.
Qed.

(** *** Multiples of a power of two *)

#[export] Instance lattice_comp (k : Z) : Proper (Qeq ==> iff) (lattice k).
Proof. intros x y H. unfold lattice. now setoid_rewrite H. Qed.

Lemma lattice_Z (k z : Z) : (0 <= k)%Z -> lattice k (inject_Z z).
Proof.
  intros Hk. exists (z * 2 ^ k)%Z.
  rewrite inject_Z_mult, (Zpower_Qpower 2) by exact Hk. change (inject_Z 2) with 2.
  rewrite <- Qmult_assoc, <- Qpower_plus by apply two_neq_0.
  replace (k + - k)%Z with 0%Z by lia. change (2 ^ 0) with 1. ring.
Qed.

Lemma lattice_plus (k : Z) (a b : Q) : lattice k a -> lattice k b -> lattice k (a + b).
Proof.
  intros [i Hi] [j Hj]. exists (i + j)%Z. rewrite inject_Z_plus, Hi, Hj. ring.
Qed.

Lemma lattice_minus (k : Z) (a b : Q) : lattice k a -> lattice k b -> lattice k (a - b).
Proof.
  intros [i Hi] [j Hj]. exists (i - j)%Z.
  unfold Z.sub. rewrite inject_Z_plus, inject_Z_opp, Hi, Hj. ring.
Qed.

Lemma lattice_mult_Z (k z : Z) (a : Q) : lattice k a -> lattice k (inject_Z z * a).
Proof.
  intros [i Hi]. exists (z * i)%Z. rewrite inject_Z_mult, Hi. ring.
Qed.

Lemma representable_intro (k : Z) (q : Q) :
  lattice k q -> Qabs q < 2 ^ (53 - k) -> representable k q.
Proof. intros H1 H2. split; assumption. Qed.

Lemma round64_exact_lattice (k : Z) (q : Q) :
  (k <= 1074)%Z -> lattice k q -> Qabs q < 2 ^ (53 - k) -> round64 q == q.
Proof. intros Hk H1 H2. apply (round64_exact k); [exact Hk | now split]. Qed.

(** A binary64 number of magnitude [2^a] at least has its last place at
    [2^(a-52)] at least. *)
Lemma representable_exponent (k a : Z) (q : Q) :
  representable k q -> 2 ^ a <= Qabs q -> (k <= 52 - a)%Z.
Proof.
  intros [_ Hlt] Hle.
  assert (H : 2 ^ a < 2 ^ (53 - k)) by (eapply Qle_lt_trans; eassumption).
  apply Qpower_lt_compat_l_inv in H; [lia | reflexivity].
Qed.

Lemma pow2_mono (a b : Z) : (a <= b)%Z -> 2 ^ a <= 2 ^ b.
Proof. intros H. apply Qpower_le_compat_l; [exact H | discriminate]. Qed.

Lemma Qabs_bound (q b : Q) : - b <= q -> q <= b -> Qabs q <= b.
Proof. intros H1 H2. apply Qabs_Qle_condition. split; assumption. Qed.

Lemma Qabs_lower (q : Q) : - Qabs q <= q /\ q <= Qabs q.
Proof.
  split.
  - rewrite <- (Qopp_involutive q) at 2. apply Qopp_le_compat.
    rewrite <- Qabs_opp. apply Qle_Qabs.
  - apply Qle_Qabs.
Qed.

(** *** [round64] rounds to the nearest float64 *)

(** The last place that [ulp_exponent] gives is the one of float64: a
    number that is not zero lies in the binade of 53 bits above it, or
    below the least normal number. *)
Lemma ulp_exponent_spec (q : Q) :
  ~ q == 0 ->
  (ulp_exponent q = (-1074)%Z /\ Qabs q < 2 ^ (-1021))
  \/ (2 ^ (52 + ulp_exponent q) <= Qabs q /\ Qabs q < 2 ^ (53 + ulp_exponent q)).
Proof.
  intros Hq. unfold ulp_exponent. cbv zeta.
  set (n := Qnum (Qabs q)). set (d := Qden (Qabs q)).
  assert (Hn : (0 < n)%Z).
  { unfold n. destruct q as [qn qd]. cbn [Qabs Qnum].
    assert (qn <> 0)%Z by (intros ->; apply Hq; reflexivity). lia. }
  destruct (Z.log2_spec n Hn) as [Hnlo Hnhi].
  destruct (Z.log2_spec (Zpos d) (Pos2Z.is_pos d)) as [Hdlo Hdhi].
  pose proof (Z.log2_nonneg n) as Hn0. pose proof (Z.log2_nonneg (Zpos d)) as Hd0.
  assert (Ha : Qabs q == inject_Z n / inject_Z (Zpos d)).
  { unfold n, d. destruct (Qabs q) as [an ad]. cbn [Qnum Qden]. apply Qmake_Qdiv. }
  assert (Hdpos : 0 < inject_Z (Zpos d)) by reflexivity.
  assert (N1 : 2 ^ Z.log2 n <= inject_Z n).
  { rewrite <- (Zpower_Qpower 2) by lia. now rewrite <- Zle_Qle. }
  assert (N2 : inject_Z n < 2 ^ (Z.log2 n + 1)).
  { rewrite <- (Zpower_Qpower 2) by lia. rewrite <- Zlt_Qlt. exact Hnhi. }
  assert (D1 : 2 ^ Z.log2 (Zpos d) <= inject_Z (Zpos d)).
  { rewrite <- (Zpower_Qpower 2) by lia. now rewrite <- Zle_Qle. }
  assert (D2 : inject_Z (Zpos d) < 2 ^ (Z.log2 (Zpos d) + 1)).
  { rewrite <- (Zpower_Qpower 2) by lia. rewrite <- Zlt_Qlt. exact Hdhi. }
  set (e0 := (Z.log2 n - Z.log2 (Zpos d) - 52)%Z).
  (* the quotient lies between 2^(51+e0) and 2^(53+e0) *)
  assert (Lo : 2 ^ (51 + e0) < Qabs q).
  { rewrite Ha. apply Qlt_shift_div_l; [exact Hdpos|].
    apply Qlt_le_trans with (2 ^ (51 + e0) * 2 ^ (Z.log2 (Zpos d) + 1)).
    - apply Qmult_lt_l; [apply pow2_pos | exact D2].
    - rewrite <- Qpower_plus by apply two_neq_0.
      replace (51 + e0 + (Z.log2 (Zpos d) + 1))%Z with (Z.log2 n) by (unfold e0; lia).
      exact N1. }
  assert (Hi : Qabs q < 2 ^ (53 + e0)).
  { rewrite Ha. apply Qlt_shift_div_r; [exact Hdpos|].
    apply Qlt_le_trans with (2 ^ (Z.log2 n + 1)); [exact N2|].
    replace (Z.log2 n + 1)%Z with (53 + e0 + Z.log2 (Zpos d))%Z by (unfold e0; lia).
    rewrite Qpower_plus by apply two_neq_0.
    apply Qmult_le_l; [apply pow2_pos | exact D1]. }
  destruct (Qle_bool (2 ^ (52 + e0)) (Qabs q)) eqn:E.
  - apply Qle_bool_iff in E.
    destruct (Z.max_spec e0 (-1074)) as [[Hlt ->]|[Hge ->]].
    + left. split; [reflexivity|].
      eapply Qlt_le_trans; [exact Hi|]. apply pow2_mono. lia.
    + right. split; assumption.
  - assert (E' : Qabs q < 2 ^ (52 + e0)).
    { apply Qnot_le_lt. intros H. apply Qle_bool_iff in H. congruence. }
    destruct (Z.max_spec (e0 - 1) (-1074)) as [[Hlt ->]|[Hge ->]].
    + left. split; [reflexivity|].
      eapply Qlt_le_trans; [exact E'|]. apply pow2_mono. lia.
    + right. split.
      * replace (52 + (e0 - 1))%Z with (51 + e0)%Z by lia. now apply Qlt_le_weak.
      * now replace (53 + (e0 - 1))%Z with (52 + e0)%Z by lia.
Qed.

Lemma round_half_even_near (x : Q) :
  Qabs (inject_Z (round_half_even x) - x) <= 1 # 2.
Proof.
  unfold round_half_even. cbv zeta.
  pose proof (Qfloor_le x) as H1. pose proof (Qlt_floor x) as H2.
  rewrite inject_Z_plus in H2. change (inject_Z 1) with 1 in H2.
  destruct (Qcompare (x - inject_Z (Qfloor x)) (1 # 2)) eqn:E.
  - apply Qeq_alt in E.
    destruct (Z.even (Qfloor x)); [|rewrite inject_Z_plus; change (inject_Z 1) with 1];
      apply Qabs_bound; lra.
  - apply Qlt_alt in E. apply Qabs_bound; lra.
  - apply Qgt_alt in E. rewrite inject_Z_plus. change (inject_Z 1) with 1.
    apply Qabs_bound; lra.
Qed.

(** [round64 q] is a multiple of the last place of [q], half a last place
    from [q] at most. *)
Lemma round64_nearest (q : Q) :
  (exists m : Z, round64 q == inject_Z m * 2 ^ ulp_exponent q)
  /\ Qabs (round64 q - q) <= (1 # 2) * 2 ^ ulp_exponent q.
Proof.
  unfold round64. cbv zeta. set (e := ulp_exponent q).
  split; [eexists; reflexivity|].
  pose proof (pow2_pos e) as He.
  pose proof (round_half_even_near (q / 2 ^ e)) as H.
  set (m := inject_Z (round_half_even (q / 2 ^ e))) in *.
  assert (E : m * 2 ^ e - q == (m - q / 2 ^ e) * 2 ^ e) by (field; lra).
  rewrite E, Qabs_Qmult, (Qabs_pos (2 ^ e)) by lra.
  apply Qmult_le_compat_r; lra.
Qed.

(** *** [%] on float64 and on the rationals *)

Lemma py_int_cases (x : Q) :
  (0 <= x /\ py_int x = Qfloor x)
  \/ (x < 0 /\ x == inject_Z (Qfloor x) /\ py_int x = Qfloor x)
  \/ (x < 0 /\ ~ x == inject_Z (Qfloor x) /\ py_int x = (Qfloor x + 1)%Z).
Proof.
  unfold py_int. destruct (Qlt_bool x 0) eqn:E.
  - apply Qlt_bool_iff in E. right.
    pose proof (Qfloor_le x) as H1. pose proof (Qlt_floor x) as H2.
    pose proof (Qle_ceiling x) as H3. pose proof (Qceiling_lt x) as H4.
    assert (Hc : (Qceiling x = Qfloor x \/ Qceiling x = Qfloor x + 1)%Z).
    { assert (A : inject_Z (Qfloor x) <= inject_Z (Qceiling x)) by lra.
      assert (B : inject_Z (Qceiling x - 1) < inject_Z (Qfloor x + 1)) by lra.
      rewrite <- Zle_Qle in A. rewrite <- Zlt_Qlt in B. lia. }
    destruct Hc as [Hc|Hc].
    + left. split; [exact E|]. split; [|exact Hc]. rewrite Hc in H3. lra.
    + right. split; [exact E|]. split; [|exact Hc].
      intros Hx. rewrite Hc in H4.
      replace (Qfloor x + 1 - 1)%Z with (Qfloor x) in H4 by lia. lra.
  - apply Qlt_bool_false_iff in E. left. now split.
Qed.

Lemma np_remainder_cases (c s : Q) :
  0 < s ->
  (py_mod c s == 0 /\ np_remainder c s == 0)
  \/ (0 <= c /\ np_remainder c s == py_mod c s)
  \/ (c < 0 /\ np_remainder c s = round64 (fmod c s + s) /\ fmod c s + s == py_mod c s).
Proof.
  intros Hs. destruct (py_mod_range c s Hs) as [Hlo Hhi].
  unfold np_remainder, fmod. cbv zeta. unfold py_mod, np_floor in *.
  assert (Hsign : forall x, 0 <= x / s <-> 0 <= x).
  { intros x. split; intros H.
    - assert (E : x == s * (x / s)) by (field; lra). rewrite E.
      apply Qmult_le_0_compat; lra.
    - apply Qle_shift_div_l; lra. }
  assert (Hs0 : Qlt_bool s 0 = false) by (apply Qlt_bool_false_iff; lra).
  rewrite Hs0.
  destruct (py_int_cases (c / s)) as [[Hx E]|[[Hx [Hi E]]|[Hx [Hi E]]]]; rewrite E.
  - apply (proj1 (Hsign c)) in Hx.
    destruct (Qeq_bool (c - s * inject_Z (Qfloor (c / s))) 0) eqn:E0.
    + apply Qeq_bool_iff in E0. left. split; [exact E0 | reflexivity].
    + right. left. split; [exact Hx|].
      assert (E1 : Qlt_bool (c - s * inject_Z (Qfloor (c / s))) 0 = false)
        by (apply Qlt_bool_false_iff; exact Hlo).
      rewrite E1. reflexivity.
  - left. assert (E0 : c - s * inject_Z (Qfloor (c / s)) == 0).
    { rewrite <- Hi. field. lra. }
    split; [exact E0|]. apply Qeq_bool_iff in E0. now rewrite E0.
  - assert (Hc : c < 0).
    { apply Qnot_le_lt. intros H. apply (proj2 (Hsign c)) in H. lra. }
    assert (Hne : ~ c - s * inject_Z (Qfloor (c / s)) == 0).
    { intros H. apply Hi. 
      assert (E1 : c == s * inject_Z (Qfloor (c / s))) by lra.
      rewrite E1 at 1. field. lra. }
    rewrite inject_Z_plus. change (inject_Z 1) with 1.
    assert (Hneg : c - s * (inject_Z (Qfloor (c / s)) + 1) < 0) by lra.
    destruct (Qeq_bool (c - s * (inject_Z (Qfloor (c / s)) + 1)) 0) eqn:E0.
    { apply Qeq_bool_iff in E0. lra. }
    assert (E1 : Qlt_bool (c - s * (inject_Z (Qfloor (c / s)) + 1)) 0 = true)
      by (apply Qlt_bool_iff; exact Hneg).
    rewrite E1. cbn [xorb]. right. right. split; [exact Hc|].
    split; [reflexivity | ring].
Qed.

Lemma py_mod_lattice (k s : Z) (c : Q) :
  (0 <= k)%Z -> lattice k c -> lattice k (py_mod c (inject_Z s)).
Proof.
  intros Hk Hc. unfold py_mod, np_floor.
  apply lattice_minus; [exact Hc|].
  rewrite <- inject_Z_mult. now apply lattice_Z.
Qed.

Lemma py_mod_multiple (s : Z) (c : Q) :
  exists z : Z, c - py_mod c (inject_Z s) == inject_Z z.
Proof.
  exists (s * Qfloor (c / inject_Z s))%Z. unfold py_mod, np_floor.
  rewrite inject_Z_mult. ring.
Qed.

Lemma py_mod_le_nonneg (c s : Q) : 0 < s -> 0 <= c -> py_mod c s <= c.
Proof.
  intros Hs Hc. unfold py_mod, np_floor.
  assert (H : 0 <= inject_Z (Qfloor (c / s))).
  { change 0 with (inject_Z 0). rewrite <- Zle_Qle.
    rewrite <- (Qfloor_Z 0). apply Qfloor_resp_le. change (inject_Z 0) with 0.
    apply Qle_shift_div_l; lra. }
  assert (H1 : 0 <= s * inject_Z (Qfloor (c / s)))
    by (apply Qmult_le_0_compat; [now apply Qlt_le_weak | exact H]).
  set (p := s * inject_Z (Qfloor (c / s))) in *. clearbody p. clear H. lra.
Qed.

(** The remainder of float64 is the exact one for a number that is not
    negative, or is -2048 at most. *)
Lemma np_remainder_exact (s : Z) (c : Q) :
  0 < inject_Z s -> inject_Z s <= 2500 ->
  float_safe c ->
  np_remainder c (inject_Z s) == py_mod c (inject_Z s).
Proof.
  intros Hs Hs' ((k & Hk & [Hlat Hlt]) & Hmag & Hsign).
  destruct (py_mod_range c (inject_Z s) Hs) as [Hlo Hhi].
  destruct (np_remainder_cases c (inject_Z s) Hs) as [[E1 E2]|[[_ E]|(Hc & E1 & E2)]].
  - now rewrite E1, E2.
  - exact E.
  - rewrite E1, <- E2.
    assert (Hc' : c <= -2048) by (destruct Hsign; [lra | assumption]).
    assert (Hk' : (k <= 41)%Z).
    { apply (representable_exponent k 11 c); [now split|].
      pose proof (Qabs_lower c) as [H1 H2]. change (2 ^ 11) with 2048.
      rewrite <- Qabs_opp. pose proof (Qle_Qabs (- c)). lra. }
    apply (round64_exact_lattice k); [lia | |].
    + rewrite E2. apply py_mod_lattice; [lia | exact Hlat].
    + rewrite E2. rewrite Qabs_pos by exact Hlo.
      apply Qlt_le_trans with (2 ^ 12); [change (2 ^ 12) with 4096; lra|].
      apply pow2_mono. lia.
Qed.

Lemma snap64_exact (s : Z) (half c : Q) :
  0 < inject_Z s -> inject_Z s <= 2500 -> half == inject_Z s / 2 ->
  float_safe c ->
  snap64 (inject_Z s) half c == snap (inject_Z s) c.
Proof.
  intros Hs Hs' Hhalf Hsafe.
  pose proof (np_remainder_exact s c Hs Hs' Hsafe) as Hr.
  destruct Hsafe as ((k & Hk & [Hlat Hlt]) & Hmag & Hsign).
  destruct (py_mod_range c (inject_Z s) Hs) as [Hlo Hhi].
  destruct (py_mod_multiple s c) as [z Hz].
  pose proof (Qabs_lower c) as [Ha1 Ha2].
  assert (H53 : forall q (w : Z), q == inject_Z w -> - (Qabs c + 2500) <= q ->
            q <= Qabs c + 2500 -> round64 q == q).
  { intros q w Hq H1 H2. apply (round64_exact_lattice 0); [lia | |].
    - rewrite Hq. apply lattice_Z. lia.
    - change (53 - 0)%Z with 53%Z.
      apply Qle_lt_trans with (Qabs c + 2500); [|exact Hmag].
      now apply Qabs_bound. }
  unfold snap64, snap. cbv zeta.
  rewrite (Qlt_bool_comp _ _ Hr _ _ Hhalf).
  set (r64 := np_remainder c (inject_Z s)) in *.
  set (m := py_mod c (inject_Z s)) in *.
  destruct (Qlt_bool m (inject_Z s / 2)) eqn:E.
  - unfold sub64. rewrite (H53 (c - r64) z); [now rewrite Hr | | |].
    + now rewrite Hr.
    + rewrite Hr. lra.
    + rewrite Hr. lra.
  - apply Qlt_bool_false_iff in E.
    assert (Hhalf2 : inject_Z s / 2 == inject_Z s * (1 # 2)) by reflexivity.
    assert (Hinner : sub64 (inject_Z s) r64 == inject_Z s - m).
    { unfold sub64. rewrite <- Hr.
      apply (round64_exact_lattice k); [lia | |].
      - apply lattice_minus; [apply lattice_Z; lia|].
        rewrite Hr. apply py_mod_lattice; [lia | exact Hlat].
      - rewrite Hr. rewrite Qabs_pos by lra.
        destruct Hsign as [Hpos|Hneg].
        + pose proof (py_mod_le_nonneg c (inject_Z s) Hs Hpos) as Hle. fold m in Hle.
          rewrite Qabs_pos in Hlt by exact Hpos. lra.
        + assert (Hk' : (k <= 41)%Z).
          { apply (representable_exponent k 11 c); [now split|].
            change (2 ^ 11) with 2048.
            rewrite <- Qabs_opp. pose proof (Qle_Qabs (- c)). lra. }
          apply Qlt_le_trans with (2 ^ 12); [change (2 ^ 12) with 4096; lra|].
          apply pow2_mono. lia. }
    unfold add64.
    rewrite (H53 (c + sub64 (inject_Z s) r64) (z + s)%Z).
    + now rewrite Hinner.
    + rewrite Hinner, inject_Z_plus, <- Hz. ring.
    + rewrite Hinner. lra.
    + rewrite Hinner. lra.
Qed.


(** *** The normaliser on float64 *)

Lemma np_isub_masked64_map (f : Q -> Q) (p : Q -> bool) (xs : list Q) :
  np_isub_masked64 (map p (map f xs)) xs (np_select (map p (map f xs)) (map f xs))
  = map (fun x => if p (f x) then sub64 x (f x) else x) xs.
Proof.
  unfold np_isub_masked64. induction xs as [|x xs IH]; [reflexivity|].
  cbn [map np_select]. destruct (p (f x)); cbn [np_zip_with np_put]; now rewrite IH.
Qed.

Lemma np_iadd_masked64_map (f g h : Q -> Q) (q : Q -> bool) (xs : list Q) :
  np_iadd_masked64 (map q (map f xs)) (map h xs)
    (map g (np_select (map q (map f xs)) (map f xs)))
  = map (fun x => if q (f x) then add64 (h x) (g (f x)) else h x) xs.
Proof.
  unfold np_iadd_masked64. induction xs as [|x xs IH]; [reflexivity|].
  cbn [map np_select]. destruct (q (f x)); cbn [map np_zip_with np_put]; now rewrite IH.
Qed.

Lemma axis_fixed64 (s half : Q) (xs : list Q) :
  let x_mod := map (fun v => np_remainder v s) xs in
  let x_mask := map (fun r => Qlt_bool r half) x_mod in
  np_iadd_masked64 (map negb x_mask)
    (np_isub_masked64 x_mask xs (np_select x_mask x_mod))
    (map (fun r => sub64 s r) (np_select (map negb x_mask) x_mod))
  = map (snap64 s half) xs.
Proof.
  intros x_mod x_mask. subst x_mod x_mask.
  rewrite np_isub_masked64_map.
  rewrite (map_map (fun r => Qlt_bool r half) negb).
  rewrite (np_iadd_masked64_map (fun v => np_remainder v s) (fun r => sub64 s r)
             (fun x => if Qlt_bool (np_remainder x s) half
                       then sub64 x (np_remainder x s) else x)
             (fun r => negb (Qlt_bool r half))).
  apply map_ext. intros x. unfold snap64. cbv zeta.
  now destruct (Qlt_bool (np_remainder x s) half).
Qed.

Lemma fix_tile_coords_float64_unfold (tile : Polygon) :
  fix_tile_coords_float64 tile = Polygon_new (map snap_vertex64 (exterior_coords tile)).
Proof.
  unfold fix_tile_coords_float64, coords_xy.
  rewrite (axis_fixed64 2500 1250 (map fst (exterior_coords tile))).
  rewrite (axis_fixed64 2000 1000 (map snd (exterior_coords tile))).
  now rewrite combine_map_fst_snd.
Qed.

Lemma last_equiv (l1 l2 : list point) (d1 d2 : point) :
  Forall2 point_equiv l1 l2 -> point_equiv d1 d2 ->
  point_equiv (List.last l1 d1) (List.last l2 d2).
Proof.
  intros H Hd. induction H as [|a b l1 l2 Hab H IH]; [exact Hd|].
  destruct H as [|a' b' l1' l2' Hab' H']; [exact Hab|]. exact IH.
Qed.

Lemma point_eqb_equiv_comp (p p' q q' : point) :
  point_equiv p p' -> point_equiv q q' -> point_eqb p q = point_eqb p' q'.
Proof.
  intros [H1 H2] [H3 H4].
  destruct (point_eqb p q) eqn:E; destruct (point_eqb p' q') eqn:E'; try reflexivity.
  - apply point_eqb_equiv in E as [Ex Ey]. rewrite <- E'. symmetry.
    apply point_eqb_equiv. split; [now rewrite <- H1, <- H3 | now rewrite <- H2, <- H4].
  - apply point_eqb_equiv in E' as [Ex Ey]. rewrite <- E.
    apply point_eqb_equiv. split; [now rewrite H1, H3 | now rewrite H2, H4].
Qed.

Lemma close_ring_equiv (l1 l2 : list point) :
  Forall2 point_equiv l1 l2 -> Forall2 point_equiv (close_ring l1) (close_ring l2).
Proof.
  intros H. unfold close_ring. destruct H as [|a b l1 l2 Hab H]; [constructor|].
  assert (Hl : Forall2 point_equiv (a :: l1) (b :: l2)) by now constructor.
  rewrite (point_eqb_equiv_comp a b _ _ Hab (last_equiv _ _ a b Hl Hab)).
  destruct (point_eqb b _); [exact Hl|].
  apply Forall2_app; [exact Hl|]. constructor; [exact Hab | constructor].
Qed.

Lemma snap_vertex64_exact (v : point) :
  float_safe_vertex v -> point_equiv (snap_vertex64 v) (snap_vertex v).
Proof.
  intros [Hx Hy]. split; cbn [snap_vertex64 snap_vertex fst snd].
  - apply (snap64_exact 2500 1250 (fst v)); [reflexivity | discriminate | reflexivity | exact Hx].
  - apply (snap64_exact 2000 1000 (snd v)); [reflexivity | discriminate | reflexivity | exact Hy].
Qed.

Lemma fix_tile_coords_float64_exact (P : Polygon) :
  Forall float_safe_vertex (exterior_coords P) ->
  polygon_equiv (fix_tile_coords_float64 P) (fix_tile_coords P).
Proof.
  intros H. unfold polygon_equiv.
  rewrite fix_tile_coords_float64_unfold, fix_tile_coords_unfold.
  cbn [Polygon_new exterior_coords]. apply close_ring_equiv.
  induction H as [|v l Hv _ IH]; cbn [map]; constructor;
    [now apply snap_vertex64_exact | exact IH].
Qed.


Lemma polygon_equiv_refl_list (l : list point) : Forall2 point_equiv l l.
Proof. induction l; constructor; [split; reflexivity | assumption]. Qed.



#[export] Instance on_grid_comp : Proper (point_equiv ==> iff) on_grid.
Proof.
  intros p q [Hx Hy]. unfold on_grid. now setoid_rewrite Hx; setoid_rewrite Hy.
Qed.







(** The steps of the normaliser on the float64 nearest to -0.3 are the
    same on the floats of the machine as with [round64]: the remainder
    [-0.3 + 2500], its complement to 2500, and the sum. *)
Example round64_agrees_with_machine :
  let x := PrimFloat.opp (PrimFloat.div (float_of_Z 3) (float_of_Z 10)) in
  let s := float_of_Z 2500 in
  let x_mod := PrimFloat.add x s in
  let x_fixed := PrimFloat.add x (PrimFloat.sub s x_mod) in
  option_map Qred (Q_of_float x) = Some (Qred (round64 (-3 # 10)))
  /\ option_map Qred (Q_of_float x_mod) = Some (Qred (np_remainder (round64 (-3 # 10)) 2500))
  /\ option_map Qred (Q_of_float x_fixed)
     = Some (Qred (snap64 2500 1250 (round64 (-3 # 10))))
  /\ Qred (round64 (-3 # 10)) = -5404319552844595 # 18014398509481984
  /\ Qred (snap64 2500 1250 (round64 (-3 # 10))) = 3277 # 18014398509481984.
Proof. vm_compute. repeat split; reflexivity. Qed.


(** A negative multiple of a quarter, between 2048 and [2^51] in
    magnitude, is a float64 on which the normaliser is exact. *)
Ltac quarter_is_float_safe :=
  split;
  [ exists 2%Z; split; [lia|]; split;
    [ match goal with
      | |- lattice _ ?c => exists (Qfloor (c * 4)); reflexivity
      end
    | reflexivity ]
  | split; [reflexivity | right; discriminate] ].

Ltac quarters_are_float_safe :=
  repeat (apply List.Forall_cons; [split; quarter_is_float_safe|]); apply List.Forall_nil.



(** ** Python indexing *)

Lemma py_getitem_nonneg {A} (l : list A) (i : Z) :
  (0 <= i)%Z ->
  py_getitem l i = match l !! Z.to_nat i with
                   | Some a => Ok a
                   | None => Raise IndexError_sequence
                   end.
Proof.
  intros Hi. unfold py_getitem.
  destruct (i <? 0)%Z eqn:E; [apply Z.ltb_lt in E; lia|].
  destruct (i <? 0)%Z eqn:E1; [discriminate|]. cbn [orb].
  destruct (Z.of_nat (length l) <=? i)%Z eqn:E2; [|reflexivity].
  apply Z.leb_le in E2. rewrite lookup_ge_None_2; [reflexivity | lia].
Qed.

Lemma py_getitem_nth (l : list Q) (k : nat) :
  (k < length l)%nat -> py_getitem l (Z.of_nat k) = Ok (nth k l 0).
Proof.
  intros Hk. rewrite py_getitem_nonneg by lia. rewrite Nat2Z.id.
  destruct (l !! k) as [a|] eqn:E.
  - now rewrite (nth_lookup_Some _ _ _ _ E).
  - apply lookup_ge_None_1 in E. lia.
Qed.

Lemma py_getitem_out {A} (l : list A) (k : nat) :
  (length l <= k)%nat -> py_getitem l (Z.of_nat k) = Raise IndexError_sequence.
Proof.
  intros Hk. rewrite py_getitem_nonneg by lia. rewrite Nat2Z.id.
  now rewrite lookup_ge_None_2.
Qed.

Lemma py_setitem_nonneg {A} (l : list A) (i : Z) (v : A) :
  (0 <= i < Z.of_nat (length l))%Z ->
  py_setitem l i v = Ok (<[Z.to_nat i := v]> l).
Proof.
  intros Hi. unfold py_setitem.
  destruct (i <? 0)%Z eqn:E; [apply Z.ltb_lt in E; lia|].
  rewrite E. cbn [orb].
  destruct (Z.of_nat (length l) <=? i)%Z eqn:E2; [apply Z.leb_le in E2; lia|].
  reflexivity.
Qed.

(** ** The pairs of a footprint *)

Lemma pair_at_shift (a b : Q) (rest : list Q) (k : nat) :
  pair_at (a :: b :: rest) (2 * Z.of_nat (S k)) = pair_at rest (2 * Z.of_nat k).
Proof.
  unfold pair_at.
  replace (2 * Z.of_nat (S k))%Z with (Z.of_nat (S (S (2 * k)))) by lia.
  replace (Z.of_nat (S (S (2 * k))) + 1)%Z with (Z.of_nat (S (S (2 * k + 1)))) by lia.
  replace (2 * Z.of_nat k)%Z with (Z.of_nat (2 * k)) by lia.
  replace (Z.of_nat (2 * k) + 1)%Z with (Z.of_nat (2 * k + 1)) by lia.
  rewrite !py_getitem_nonneg by lia. rewrite !Nat2Z.id. reflexivity.
Qed.

Lemma mapM_ext_in {A B} (f g : A -> Result B) (l : list A) :
  (forall a, In a l -> f a = g a) -> mapM f l = mapM g l.
Proof.
  induction l as [|a l IH]; intros H; [reflexivity|].
  cbn [mapM]. rewrite (H a) by now left. rewrite IH; [reflexivity|].
  intros a' Ha'. apply H. now right.
Qed.

Lemma pairs_of_cons2 (a b : Q) (rest : list Q) :
  pairs_of (a :: b :: rest) = ps ← pairs_of rest; mret ((a, b) :: ps).
Proof.
  unfold pairs_of, range_step2. cbn [length Nat.div2].
  cbn [seq map mapM]. rewrite <- seq_shift, map_map.
  assert (E0 : pair_at (a :: b :: rest) (2 * Z.of_nat 0) = Ok (a, b)).
  { unfold pair_at. change (2 * Z.of_nat 0)%Z with 0%Z.
    rewrite !py_getitem_nonneg by lia. reflexivity. }
  rewrite E0.
  cbn [mbind Result_bind].
  rewrite <- (map_map S (fun k => (2 * Z.of_nat k)%Z)).
  rewrite (map_map S).
  assert (E : forall ks : list nat,
             mapM (pair_at (a :: b :: rest)) (map (fun x => (2 * Z.of_nat (S x))%Z) ks)
             = mapM (pair_at rest) (map (fun k => (2 * Z.of_nat k)%Z) ks)).
  { induction ks as [|k ks IH]; [reflexivity|].
    cbn [map mapM]. now rewrite pair_at_shift, IH. }
  rewrite E. reflexivity.
Qed.

Lemma pairs_of_nil : pairs_of [] = Ok [].
Proof. reflexivity. Qed.

Lemma pairs_of_single (a : Q) : pairs_of [a] = Raise IndexError_sequence.
Proof. reflexivity. Qed.

(** [pairs_of] returns the reported footprint when the floats are in even
    number and raises otherwise. *)
Lemma pairs_of_spec (float_list : list Q) :
  pairs_of float_list =
    if Nat.even (length float_list) then Ok (reported_footprint float_list)
    else Raise IndexError_sequence.
Proof.
  assert (H : forall m l, (length l <= m)%nat ->
            pairs_of l = if Nat.even (length l) then Ok (reported_footprint l)
                         else Raise IndexError_sequence).
  { induction m as [|m IH]; intros l Hl.
    - destruct l; [reflexivity | cbn in Hl; lia].
    - destruct l as [|a [|b rest]]; [reflexivity | reflexivity |].
      rewrite pairs_of_cons2, IH by (cbn in Hl; lia).
      cbn [length Nat.even reported_footprint].
      now destruct (Nat.even (length rest)). }
  now apply (H (length float_list)).
Qed.

(** ** Building the index *)

Lemma rtree_insert_spec (idx : Index) (id : Z) (float_list : list Q) :
  rtree_insert idx id (stored_box float_list)
  = if list_le2 (stored_box float_list)
    then Ok (idx ++ [(id, stored_box float_list)]) else Raise RTreeError.
Proof. reflexivity. Qed.

(** A turn of the loop on an entry that is [entry_ok]. *)
Lemma get_tiles_entry_ok (i : Z) (idx : Index) (polygons : list (list point)) (entry : Entry) :
  (0 <= i < Z.of_nat (length polygons))%Z ->
  entry_ok entry = true ->
  get_tiles_entry (i, idx, polygons) entry
  = Ok ((i + 1)%Z, idx ++ [(i, stored_box (entry_polygon entry))],
        <[Z.to_nat i := reported_footprint (entry_polygon entry)]> polygons).
Proof.
  intros Hi Hok. unfold entry_ok in Hok. cbv zeta in Hok.
  apply andb_true_iff in Hok as [Hok Hbox].
  apply andb_true_iff in Hok as [Heven Hlen]. apply Nat.leb_le in Hlen.
  unfold get_tiles_entry. cbv zeta.
  rewrite pairs_of_spec, Heven. cbn [mbind Result_bind].
  rewrite py_setitem_nonneg by exact Hi. cbn [mbind Result_bind].
  rewrite (py_getitem_nth _ 1), (py_getitem_nth _ 0), (py_getitem_nth _ 3),
    (py_getitem_nth _ 4) by lia.
  cbn [mbind Result_bind].
  change (nth 1 (entry_polygon entry) 0, nth 0 (entry_polygon entry) 0,
          nth 3 (entry_polygon entry) 0, nth 4 (entry_polygon entry) 0)
    with (stored_box (entry_polygon entry)).
  rewrite rtree_insert_spec, Hbox. reflexivity.
Qed.

(** A turn of the loop on any other entry raises. *)
Lemma get_tiles_entry_raises (i : Z) (idx : Index) (polygons : list (list point)) (entry : Entry) :
  entry_ok entry = false ->
  exists e, get_tiles_entry (i, idx, polygons) entry = Raise e.
Proof.
  intros Hok. unfold entry_ok in Hok. cbv zeta in Hok.
  unfold get_tiles_entry. cbv zeta. rewrite pairs_of_spec.
  destruct (Nat.even (length (entry_polygon entry))); [|eexists; reflexivity].
  cbn [mbind Result_bind andb] in *.
  destruct (py_setitem polygons i _); [|eexists; reflexivity]. cbn [mbind Result_bind].
  destruct (5 <=? length (entry_polygon entry))%nat eqn:Hlen.
  - apply Nat.leb_le in Hlen.
    rewrite (py_getitem_nth _ 1), (py_getitem_nth _ 0), (py_getitem_nth _ 3),
      (py_getitem_nth _ 4) by lia.
    cbn [mbind Result_bind andb] in *.
    change (nth 1 (entry_polygon entry) 0, nth 0 (entry_polygon entry) 0,
            nth 3 (entry_polygon entry) 0, nth 4 (entry_polygon entry) 0)
      with (stored_box (entry_polygon entry)).
    rewrite rtree_insert_spec, Hok. eexists; reflexivity.
  - apply Nat.leb_gt in Hlen.
    rewrite (py_getitem_out _ 4) by lia.
    destruct (py_getitem _ 1%Z); [|eexists; reflexivity].
    destruct (py_getitem _ 0%Z); [|eexists; reflexivity].
    destruct (py_getitem _ 3%Z); eexists; reflexivity.
Qed.

(** The loop over entries that are all [entry_ok]: one index entry per
    catalogue entry, numbered from [i], and the reported footprints written
    from position [i] on. *)
Lemma get_tiles_loop_ok (entries : list Entry) :
  forall (i : nat) (idx : Index) (before after : list (list point)) (junk : list (list point)),
    forallb entry_ok entries = true ->
    length before = i -> length junk = length entries ->
    get_tiles_loop entries (Z.of_nat i, idx, before ++ junk ++ after)
    = Ok (Z.of_nat (i + length entries), idx ++ index_entries (Z.of_nat i) entries,
          before ++ map (fun e => reported_footprint (entry_polygon e)) entries ++ after).
Proof.
  induction entries as [|entry entries IH]; intros i idx before after junk Hok Hb Hj.
  - destruct junk; [|discriminate]. cbn. now rewrite Nat.add_0_r, app_nil_r.
  - destruct junk as [|j junk]; [discriminate|].
    cbn [forallb] in Hok. apply andb_true_iff in Hok as [Hok1 Hok].
    cbn [get_tiles_loop].
    rewrite get_tiles_entry_ok; [|rewrite !length_app; cbn [length]; lia|exact Hok1].
    cbn [mbind Result_bind]. rewrite Nat2Z.id.
    replace (<[i := reported_footprint (entry_polygon entry)]> (before ++ (j :: junk) ++ after))
      with ((before ++ [reported_footprint (entry_polygon entry)]) ++ junk ++ after).
    2:{ rewrite insert_app_r_alt by lia. rewrite Hb, Nat.sub_diag.
        cbn. now rewrite <- app_assoc. }
    replace (Z.of_nat i + 1)%Z with (Z.of_nat (S i)) by lia.
    rewrite (IH (S i)); [|exact Hok|rewrite length_app; cbn [length]; lia|cbn in Hj; lia].
    cbn [index_entries map length].
    replace (Z.of_nat i + 1)%Z with (Z.of_nat (S i)) by lia.
    rewrite <- !app_assoc. cbn [app].
    now replace (S i + length entries)%nat with (i + S (length entries))%nat by lia.
Qed.

Lemma get_tiles_loop_raises (entries : list Entry) :
  forall (st : Z * Index * list (list point)),
    forallb entry_ok entries = false ->
    exists e, get_tiles_loop entries st = Raise e.
Proof.
  induction entries as [|entry entries IH]; intros st Hok; [discriminate|].
  cbn [forallb] in Hok. cbn [get_tiles_loop]. destruct st as [[i idx] polygons].
  destruct (entry_ok entry) eqn:E.
  - destruct (get_tiles_entry (i, idx, polygons) entry) as [st'|e];
      [|eexists; reflexivity].
    cbn [mbind Result_bind]. apply IH. exact Hok.
  - destruct (get_tiles_entry_raises i idx polygons entry E) as [e He].
    rewrite He. eexists; reflexivity.
Qed.

(** [get_tiles] on a catalogue of [n] entries: it returns exactly when
    every entry is [entry_ok], and then the index holds one entry per
    catalogue entry, in document order, and the list of polygons is the
    list of the reported footprints. *)
Lemma get_tiles_spec (root : list Entry) :
  get_tiles root (Z.of_nat (length root))
  = if forallb entry_ok root
    then Ok (index_entries 0 root,
             map (fun e => reported_footprint (entry_polygon e)) root)
    else get_tiles root (Z.of_nat (length root)).
Proof.
  destruct (forallb entry_ok root) eqn:Hok; [|reflexivity].
  unfold get_tiles. cbv zeta. rewrite Nat2Z.id.
  pose proof (get_tiles_loop_ok root 0 [] [] []
                (replicate (length root) [(0, 0); (0, 0); (0, 0); (0, 0); (0, 0)])
                Hok eq_refl (length_replicate _ _)) as H.
  change (Z.of_nat 0) with 0%Z in H. cbn [app] in H.
  rewrite !app_nil_r in H.
  match goal with
  | |- context [get_tiles_loop root ?st] =>
      pose proof (H : get_tiles_loop root st = _) as E; rewrite E
  end.
  reflexivity.
Qed.

Lemma get_tiles_raises (root : list Entry) :
  forallb entry_ok root = false ->
  exists e, get_tiles root (Z.of_nat (length root)) = Raise e.
Proof.
  intros Hok. unfold get_tiles. cbv zeta.
  match goal with
  | |- context [get_tiles_loop root ?st] =>
      destruct (get_tiles_loop_raises root st Hok) as [e He]; rewrite He
  end.
  eexists; reflexivity.
Qed.

(** The parser that [__init__] returns. *)
Lemma Dmr5gParser_init_spec (dir : string) (root : list Entry) (self : Dmr5gParser) :
  Dmr5gParser_init dir root = Ok self ->
  forallb entry_ok root = true
  /\ self = mkParser dir root (Z.of_nat (length root)) (index_entries 0 root)
              (map (fun e => reported_footprint (entry_polygon e)) root).
Proof.
  unfold Dmr5gParser_init. intros H.
  destruct (forallb entry_ok root) eqn:Hok.
  - rewrite get_tiles_spec, Hok in H. cbn [mbind Result_bind] in H.
    split; [reflexivity|]. now inversion H.
  - destruct (get_tiles_raises root Hok) as [e He]. rewrite He in H. discriminate.
Qed.

Lemma Dmr5gParser_init_ok (dir : string) (root : list Entry) :
  forallb entry_ok root = true ->
  Dmr5gParser_init dir root
  = Ok (mkParser dir root (Z.of_nat (length root)) (index_entries 0 root)
          (map (fun e => reported_footprint (entry_polygon e)) root)).
Proof.
  intros Hok. unfold Dmr5gParser_init. rewrite get_tiles_spec, Hok. reflexivity.
Qed.

Lemma index_entries_length (i : Z) (entries : list Entry) :
  length (index_entries i entries) = length entries.
Proof.
  revert i. induction entries as [|e entries IH]; intros i; [reflexivity|].
  cbn [index_entries length]. now rewrite IH.
Qed.

Lemma index_entries_lookup (entries : list Entry) :
  forall (i : Z) (k : nat) (entry : Entry),
    entries !! k = Some entry ->
    index_entries i entries !! k
    = Some ((i + Z.of_nat k)%Z, stored_box (entry_polygon entry)).
Proof.
  induction entries as [|e entries IH]; intros i k entry Hk; [discriminate|].
  destruct k as [|k]; cbn [index_entries].
  - inversion Hk; subst. cbn. now rewrite Z.add_0_r.
  - cbn in Hk |- *. rewrite (IH _ _ _ Hk). do 2 f_equal. lia.
Qed.

Lemma index_entries_ids (entries : list Entry) (i : Z) :
  map fst (index_entries i entries)
  = map (fun k => (i + Z.of_nat k)%Z) (seq 0 (length entries)).
Proof.
  revert i. induction entries as [|e entries IH]; intros i; [reflexivity|].
  cbn [index_entries map length seq fst]. rewrite Z.add_0_r. f_equal.
  rewrite IH, <- seq_shift, map_map. apply map_ext. intros k. lia.
Qed.

Lemma index_entries_id_range (entries : list Entry) (id : Z) :
  In id (map fst (index_entries 0 entries)) <-> (0 <= id < Z.of_nat (length entries))%Z.
Proof.
  rewrite index_entries_ids, in_map_iff. split.
  - intros (k & <- & Hk). apply in_seq in Hk. lia.
  - intros Hid. exists (Z.to_nat id). split; [lia|]. apply in_seq. lia.
Qed.

(** ** Looking a footprint up *)

Lemma get_tile_in_range (self : Dmr5gParser) (id : Z) :
  (0 <= id < n self)%Z ->
  get_tile self id = match tile_polygons self !! Z.to_nat id with
                     | Some tile => Ok tile
                     | None => Raise IndexError_sequence
                     end.
Proof.
  intros Hid. unfold get_tile.
  destruct (n self <=? id)%Z eqn:E; [apply Z.leb_le in E; lia|].
  apply py_getitem_nonneg. lia.
Qed.

(** Below [-n] the ordinal is refused by the list itself, and from [-n] to
    [-1] it counts from the end of the catalogue. *)
Lemma get_tile_negative (dir : string) (root : list Entry) (self : Dmr5gParser) (id : Z) :
  Dmr5gParser_init dir root = Ok self ->
  (id < 0)%Z ->
  get_tile self id
  = if (id <? - n self)%Z then Raise IndexError_sequence
    else get_tile self (n self + id).
Proof.
  intros Hinit Hid. apply Dmr5gParser_init_spec in Hinit as [_ ->].
  unfold get_tile. cbn [n tile_polygons].
  destruct (Z.of_nat (length root) <=? id)%Z eqn:E; [apply Z.leb_le in E; lia|].
  unfold py_getitem. cbv zeta. rewrite length_map.
  destruct (id <? 0)%Z eqn:E1; [|apply Z.ltb_ge in E1; lia].
  destruct (id <? - Z.of_nat (length root))%Z eqn:E2.
  - apply Z.ltb_lt in E2.
    destruct (Z.of_nat (length root) + id <? 0)%Z eqn:E3; [reflexivity|].
    apply Z.ltb_ge in E3. lia.
  - apply Z.ltb_ge in E2.
    destruct (Z.of_nat (length root) <=? Z.of_nat (length root) + id)%Z eqn:E3;
      [apply Z.leb_le in E3; lia|].
    destruct (Z.of_nat (length root) + id <? 0)%Z eqn:E4; [apply Z.ltb_lt in E4; lia|].
    rewrite E3, E4. reflexivity.
Qed.

(** C9, as the program has it.  [get_tile] raises nothing but an
    [IndexError], and raises one exactly when the ordinal is not below the
    size [n] of the catalogue or is below [-n]: its own, with the message,
    in the first case and the one of the list in the second.  For
    [0 <= id < n] it returns the footprint that entry [id] reports, and for
    [-n <= id < 0] the footprint of entry [n + id]. *)
Theorem get_tile_out_of_range_iff (dir : string) (root : list Entry)
    (self : Dmr5gParser) (id : Z) :
  Dmr5gParser_init dir root = Ok self ->
  n self = Z.of_nat (length root)
  /\ ((exists e, get_tile self id = Raise e) <-> (n self <= id \/ id < - n self)%Z)
  /\ (forall e, get_tile self id = Raise e -> is_IndexError e = true)
  /\ (get_tile self id = Raise (IndexError_out_of_bounds id (n self))
      <-> (n self <= id)%Z)
  /\ (get_tile self id = Raise IndexError_sequence <-> (id < - n self)%Z)
  /\ ((0 <= id < n self)%Z ->
      exists entry, root !! Z.to_nat id = Some entry
                    /\ get_tile self id = Ok (reported_footprint (entry_polygon entry)))
  /\ ((- n self <= id < 0)%Z ->
      exists entry, root !! Z.to_nat (n self + id) = Some entry
                    /\ get_tile self id = Ok (reported_footprint (entry_polygon entry))).
Proof.
  intros Hinit.
  pose proof (get_tile_negative dir root self id Hinit) as Hneg.
  apply Dmr5gParser_init_spec in Hinit as [_ ->].
  cbn [n] in *. split; [reflexivity|].
  set (len := Z.of_nat (length root)) in *.
  set (self := mkParser dir root len (index_entries 0 root)
                 (map (fun e => reported_footprint (entry_polygon e)) root)) in *.
  assert (Hin : forall k, (0 <= k < len)%Z ->
            exists entry, root !! Z.to_nat k = Some entry
                          /\ get_tile self k = Ok (reported_footprint (entry_polygon entry))).
  { intros k Hk. rewrite get_tile_in_range by exact Hk. cbn [tile_polygons self].
    destruct (root !! Z.to_nat k) as [entry|] eqn:E.
    - exists entry. split; [reflexivity|]. now rewrite list_lookup_fmap, E.
    - apply lookup_ge_None_1 in E. unfold len in Hk. lia. }
  assert (Hcases : ((len <= id)%Z
                    /\ get_tile self id = Raise (IndexError_out_of_bounds id len))
                   \/ ((id < - len)%Z /\ get_tile self id = Raise IndexError_sequence)
                   \/ ((- len <= id < len)%Z
                       /\ exists tile, get_tile self id = Ok tile)).
  { destruct (Z.le_gt_cases len id) as [H|H].
    - left. split; [exact H|]. unfold get_tile. cbn [n self].
      destruct (Z.leb_spec len id); [reflexivity | lia].
    - destruct (Z.lt_ge_cases id 0) as [H0|H0].
      + specialize (Hneg H0). destruct (Z.ltb_spec id (- len)) as [H1|H1].
        * right. left. split; [exact H1 | exact Hneg].
        * right. right. split; [lia|].
          destruct (Hin (len + id)%Z) as (entry & _ & E); [lia|].
          eexists. rewrite Hneg. exact E.
      + right. right. split; [lia|].
        destruct (Hin id) as (entry & _ & E); [lia|]. eexists. exact E. }
  split; [|split; [|split; [|split; [|split]]]].
  - split.
    + intros [e He]. destruct Hcases as [[H _]|[[H _]|[_ [tile Ht]]]]; [lia | lia | congruence].
    + intros [H|H]; destruct Hcases as [[H1 E]|[[H1 E]|[H1 _]]]; try lia; eauto.
  - intros e He. destruct Hcases as [[_ E]|[[_ E]|[_ [tile E]]]];
      rewrite E in He; inversion He; reflexivity.
  - split.
    + intros He. destruct Hcases as [[H _]|[[_ E]|[_ [tile E]]]];
        [exact H | congruence | congruence].
    + intros H. destruct Hcases as [[_ E]|[[H1 _]|[H1 _]]]; [exact E | lia | lia].
  - split.
    + intros He. destruct Hcases as [[_ E]|[[H _]|[_ [tile E]]]];
        [congruence | exact H | congruence].
    + intros H. destruct Hcases as [[H1 _]|[[_ E]|[H1 _]]]; [lia | exact E | lia].
  - exact (Hin id).
  - intros Hid. destruct (Hin (len + id)%Z) as (entry & Hentry & E); [lia|].
    exists entry. split; [exact Hentry|].
    rewrite Hneg by lia. destruct (Z.ltb_spec id (- len)); [lia | exact E].
Qed.

Lemma get_tile_out_of_range_iff_witness :
  n Example.parser = Z.of_nat (length Example.catalogue)
  /\ ((exists e, get_tile Example.parser (-1) = Raise e)
      <-> (n Example.parser <= -1 \/ -1 < - n Example.parser)%Z)
  /\ (forall e, get_tile Example.parser (-1) = Raise e -> is_IndexError e = true)
  /\ (get_tile Example.parser (-1) = Raise (IndexError_out_of_bounds (-1) (n Example.parser))
      <-> (n Example.parser <= -1)%Z)
  /\ (get_tile Example.parser (-1) = Raise IndexError_sequence
      <-> (-1 < - n Example.parser)%Z)
  /\ ((0 <= -1 < n Example.parser)%Z ->
      exists entry, Example.catalogue !! Z.to_nat (-1) = Some entry
                    /\ get_tile Example.parser (-1)
                       = Ok (reported_footprint (entry_polygon entry)))
  /\ ((- n Example.parser <= -1 < 0)%Z ->
      exists entry, Example.catalogue !! Z.to_nat (n Example.parser + -1) = Some entry
                    /\ get_tile Example.parser (-1)
                       = Ok (reported_footprint (entry_polygon entry))).
Proof.
  apply (get_tile_out_of_range_iff "/cache/" Example.catalogue Example.parser (-1)).
  reflexivity.
Defined.

(** C9, as the claim has it, fails: the catalogue has three entries, the
    ordinal -4 does not exceed its size, and [get_tile] raises the
    [IndexError] of the list on it. *)
Lemma get_tile_below_size_raises :
  n Example.parser = 3%Z
  /\ ~ (n Example.parser <= -4)%Z
  /\ get_tile Example.parser (-4) = Raise IndexError_sequence
  /\ is_IndexError IndexError_sequence = true.
Proof.
  split; [reflexivity|]. split; [|split; reflexivity].
  change (n Example.parser) with 3%Z. lia.
Qed.

(** ** The index and the footprints *)

Lemma rectangle_footprint_box (south west north east : Q) :
  stored_box (rectangle_footprint south west north east) = (west, south, east, north).
Proof. reflexivity. Qed.

Lemma rectangle_footprint_vertices (south west north east : Q) :
  reported_footprint (rectangle_footprint south west north east)
  = [(south, west); (south, east); (north, east); (north, west); (south, west)].
Proof. reflexivity. Qed.

Lemma list_le2_iff (left_ bottom_ right_ top_ : Q) :
  list_le2 (left_, bottom_, right_, top_) = true
  <-> left_ < right_ \/ (left_ == right_ /\ bottom_ <= top_).
Proof.
  unfold list_le2. destruct (Qeq_bool left_ right_) eqn:E.
  - apply Qeq_bool_iff in E. rewrite Qle_bool_iff. split; [tauto|].
    intros [H|[_ H]]; [rewrite E in H; now apply Qlt_irrefl in H | exact H].
  - apply Qeq_bool_neq in E. rewrite Qle_bool_iff. split.
    + intros H. left. apply Qle_lteq in H. tauto.
    + intros [H|[H _]]; [now apply Qlt_le_weak | contradiction].
Qed.

Lemma entry_ok_box (entry : Entry) :
  entry_ok entry = true ->
  let '(left_, bottom_, right_, top_) := stored_box (entry_polygon entry) in
  left_ <= right_ /\ (left_ == right_ -> bottom_ <= top_).
Proof.
  unfold entry_ok, stored_box. cbv zeta. rewrite !andb_true_iff, list_le2_iff.
  intros [_ [H|[H1 H2]]].
  - split; [now apply Qlt_le_weak|]. intros E. rewrite E in H. now apply Qlt_irrefl in H.
  - split; [rewrite H1; apply Qle_refl | intros _; exact H2].
Qed.

(** A catalogue of rectangles is loaded without an exception. *)
Lemma Dmr5gParser_init_rectangles (dir : string) (root : list Entry) :
  Forall (fun entry => exists south west north east,
            entry_polygon entry = rectangle_footprint south west north east
            /\ south <= north /\ west <= east) root ->
  exists self, Dmr5gParser_init dir root = Ok self.
Proof.
  intros H. eexists. apply Dmr5gParser_init_ok.
  induction H as [|entry root (s & w & nth_ & e & Hp & Hsn & Hwe) _ IH]; [reflexivity|].
  cbn [forallb]. rewrite IH, andb_true_r.
  unfold entry_ok. rewrite Hp. cbv zeta.
  rewrite rectangle_footprint_box. cbn [rectangle_footprint length Nat.even Nat.leb andb].
  apply list_le2_iff. apply Qle_lteq in Hwe. tauto.
Qed.

(** C7, as the program has it.  When [get_tiles] returns, every entry of
    the catalogue has exactly one entry in the index, under its ordinal,
    and the box of that entry is [stored_box]: the longitude and the
    latitude of the first vertex, the longitude of the second and the
    latitude of the third.  That box holds the whole footprint when the
    footprint is a rectangle between two parallels and two meridians
    (the southern one not north of the northern one, the western one not
    east of the eastern one), listed from its south-west corner
    eastwards. *)
Theorem get_tiles_index_invariant (dir : string) (root : list Entry) (self : Dmr5gParser) :
  Dmr5gParser_init dir root = Ok self ->
  length (tile_idx self) = length root
  /\ map fst (tile_idx self) = map Z.of_nat (seq 0 (length root))
  /\ (forall (i : nat) (entry : Entry),
        root !! i = Some entry ->
        tile_idx self !! i = Some (Z.of_nat i, stored_box (entry_polygon entry))
        /\ (forall south west north east,
              entry_polygon entry = rectangle_footprint south west north east ->
              south <= north -> west <= east ->
              Forall (box_has_vertex (stored_box (entry_polygon entry)))
                     (reported_footprint (entry_polygon entry)))).
Proof.
  intros Hinit. apply Dmr5gParser_init_spec in Hinit as [Hok ->]. cbn [tile_idx].
  split; [apply index_entries_length|]. split.
  { rewrite index_entries_ids. apply map_ext. intros k. lia. }
  intros i entry Hi. split.
  { rewrite (index_entries_lookup _ 0 i entry Hi). do 2 f_equal. }
  intros south west north east Hp Hsn Hwe. rewrite Hp.
  rewrite rectangle_footprint_box. rewrite rectangle_footprint_vertices.
  repeat constructor; cbn [fst snd]; try assumption; apply Qle_refl.
Qed.

Lemma get_tiles_index_invariant_witness :
  length (tile_idx Example.parser) = length Example.catalogue
  /\ map fst (tile_idx Example.parser) = map Z.of_nat (seq 0 (length Example.catalogue))
  /\ (forall (i : nat) (entry : Entry),
        Example.catalogue !! i = Some entry ->
        tile_idx Example.parser !! i = Some (Z.of_nat i, stored_box (entry_polygon entry))
        /\ (forall south west north east,
              entry_polygon entry = rectangle_footprint south west north east ->
              south <= north -> west <= east ->
              Forall (box_has_vertex (stored_box (entry_polygon entry)))
                     (reported_footprint (entry_polygon entry)))).
Proof.
  apply (get_tiles_index_invariant "/cache/" Example.catalogue Example.parser).
  reflexivity.
Defined.

(** C7, as the claim has it, fails: the skewed footprint is loaded, its one
    index entry is the box read off its first three vertices, and the
    south-east corner of the footprint lies south of that box. *)
Lemma get_tiles_box_misses_vertex :
  exists self,
    Dmr5gParser_init "/cache/" Example.skewed_catalogue = Ok self
    /\ tile_idx self = [(0%Z, (1420 # 100, 4990 # 100, 1424 # 100, 4991 # 100))]
    /\ In (4989 # 100, 1424 # 100) (reported_footprint Example.skewed_footprint)
    /\ ~ box_has_vertex (1420 # 100, 4990 # 100, 1424 # 100, 4991 # 100)
                        (4989 # 100, 1424 # 100).
Proof.
  eexists. split; [reflexivity|]. split; [reflexivity|]. split.
  - cbn. tauto.
  - unfold box_has_vertex. cbn [fst snd]. intros [_ [H _]]. revert H. now vm_compute.
Qed.

(** A box whose bottom lies above its top is stored when its left side
    lies left of its right side: the entry "2 0 2 1 0 1 0 0 2 0" is loaded
    with the box (0, 2, 1, 0).  With the two sides equal the same bottom
    and top are refused. *)
Example get_tiles_stores_inverted_box :
  (exists self,
     Dmr5gParser_init "/cache/" [mkEntry None None [2; 0; 2; 1; 0; 1; 0; 0; 2; 0]] = Ok self
     /\ tile_idx self = [(0%Z, (0, 2, 1, 0))])
  /\ Dmr5gParser_init "/cache/" [mkEntry None None [2; 0; 2; 0; 0; 1; 0; 0; 2; 0]]
     = Raise RTreeError.
Proof. split; [eexists; split; reflexivity | reflexivity]. Qed.

(** ** The number of candidates *)

Lemma Qfloor_unique (x : Q) (j : Z) :
  inject_Z j <= x -> x < inject_Z (j + 1) -> Qfloor x = j.
Proof.
  intros Hlo Hhi. apply Z.le_antisymm.
  - apply Z.lt_succ_r. rewrite Zlt_Qlt.
    apply Qle_lt_trans with x; [apply Qfloor_le | exact Hhi].
  - rewrite <- (Qfloor_Z j). now apply Qfloor_resp_le.
Qed.

Lemma py_int_inject_Z (z : Z) : py_int (inject_Z z) = z.
Proof.
  unfold py_int. destruct (Qlt_bool _ _); [apply Qceiling_Z | apply Qfloor_Z].
Qed.

#[export] Instance py_int_comp : Proper (Qeq ==> eq) py_int.
Proof.
  intros x y H. unfold py_int.
  now rewrite (Qlt_bool_comp _ _ H _ _ (Qeq_refl 0)), (Qfloor_comp _ _ H),
    (Qceiling_comp _ _ H).
Qed.

(** The inner floor, in integers: half of the kilometres plus one. *)
Lemma floor_half_kilometres (k : Z) :
  Qfloor (((11 # 10) + inject_Z k) / 2) = ((k + 1) / 2)%Z.
Proof.
  apply Qfloor_unique.
  - assert (H : (2 * ((k + 1) / 2) <= k + 1)%Z) by (apply Z.mul_div_le; lia).
    rewrite Zle_Qle, inject_Z_mult, inject_Z_plus in H.
    apply Qle_shift_div_l; [reflexivity|].
    change (inject_Z 2) with 2 in H. change (inject_Z 1) with 1 in H. lra.
  - assert (H : (k + 1 < 2 * ((k + 1) / 2 + 1))%Z).
    { pose proof (Z.mod_pos_bound (k + 1) 2 ltac:(lia)).
      pose proof (Z.div_mod (k + 1) 2 ltac:(lia)). lia. }
    assert (H' : (k + 2 <= 2 * ((k + 1) / 2 + 1))%Z) by lia.
    rewrite Zle_Qle, inject_Z_mult, !inject_Z_plus in H'.
    apply Qlt_shift_div_r; [reflexivity|].
    rewrite inject_Z_plus.
    change (inject_Z 2) with 2 in H'. change (inject_Z 1) with 1 in *. lra.
Qed.

Lemma necessary_num_near_tiles_spec (radius : Q) :
  necessary_num_near_tiles radius = candidate_count radius.
Proof.
  unfold necessary_num_near_tiles, candidate_count, np_floor.
  set (m := Qfloor (((11 # 10) + inject_Z (Qfloor (radius / 1000))) / 2)).
  assert (E : (2 + 2 * inject_Z m) ^ 2 == inject_Z ((2 + 2 * m) ^ 2)).
  { rewrite Z.pow_2_r, inject_Z_mult, inject_Z_plus, inject_Z_mult.
    change (inject_Z 2) with 2. simpl Qpower. ring. }
  now rewrite E, py_int_inject_Z.
Qed.

Lemma candidate_count_closed (radius : Q) :
  candidate_count radius = ((2 + 2 * ((Qfloor (radius / 1000) + 1) / 2)) ^ 2)%Z.
Proof. unfold candidate_count. now rewrite floor_half_kilometres. Qed.

Lemma candidate_count_monotone (r r' : Q) :
  0 <= r -> r <= r' -> (candidate_count r <= candidate_count r')%Z.
Proof.
  intros H0 Hle. rewrite !candidate_count_closed.
  assert (Hk0 : (0 <= Qfloor (r / 1000))%Z).
  { rewrite <- (Qfloor_Z 0). apply Qfloor_resp_le.
    apply Qle_shift_div_l; [reflexivity|]. change (inject_Z 0) with 0. lra. }
  assert (Hk : (Qfloor (r / 1000) <= Qfloor (r' / 1000))%Z).
  { apply Qfloor_resp_le. apply Qmult_le_compat_r; [exact Hle | discriminate]. }
  assert (Hj : ((Qfloor (r / 1000) + 1) / 2 <= (Qfloor (r' / 1000) + 1) / 2)%Z)
    by (apply Z.div_le_mono; lia).
  assert (Hj0 : (0 <= (Qfloor (r / 1000) + 1) / 2)%Z) by (apply Z.div_pos; lia).
  apply Z.pow_le_mono_l. lia.
Qed.

(** C6.  Both the radius and the rectangle resolution ask the index for
    (2 + 2 floor((1.1 + floor(r/1000)) / 2)) squared nearest candidates,
    [r] being the radius: 4 of them for r = 0 and for r = 999, 16 from
    r = 1000; the number depends on the whole kilometres of the radius only
    and never decreases as the radius grows. *)
Theorem candidate_count_formula (C : Collaborators) (self : Dmr5gParser)
    (point_sjtsk tl tr bl br : point) (r : Q) :
  0 <= r ->
  necessary_num_near_tiles r = candidate_count r
  /\ candidate_count r = ((2 + 2 * ((Qfloor (r / 1000) + 1) / 2)) ^ 2)%Z
  /\ candidate_count 0 = 4%Z /\ candidate_count 999 = 4%Z /\ candidate_count 1000 = 16%Z
  /\ (forall r', Qfloor (r' / 1000) = Qfloor (r / 1000) ->
                 candidate_count r' = candidate_count r)
  /\ (forall r', r <= r' -> (candidate_count r <= candidate_count r')%Z)
  /\ get_tile_ids self point_sjtsk r
     = get_tile_ids_loop self (Circle_new point_sjtsk r)
         (rtree_nearest (tile_idx self)
            (snd (SJTSK_TO_WGS (fst point_sjtsk) (snd point_sjtsk)),
             fst (SJTSK_TO_WGS (fst point_sjtsk) (snd point_sjtsk)))
            (candidate_count r)) []
  /\ get_tile_ids_rect self tl tr bl br
     = let centre_wgs :=
         SJTSK_TO_WGS ((fst tl + fst br + fst tr + fst bl) / 4)
                      ((snd tl + snd br + snd tr + snd bl) / 4) in
       get_tile_ids_rect_loop self (Polygon_new [tl; bl; br; tr])
         (rtree_nearest (tile_idx self) (snd centre_wgs, fst centre_wgs)
            (candidate_count (rect_radius tr bl))) [].
Proof.
  intros Hr. split; [apply necessary_num_near_tiles_spec|].
  split; [apply candidate_count_closed|].
  do 3 (split; [reflexivity|]).
  split; [intros r' E; rewrite !candidate_count_closed; now rewrite E|].
  split; [intros r'; now apply candidate_count_monotone|].
  split.
  - unfold get_tile_ids. now rewrite necessary_num_near_tiles_spec.
  - unfold get_tile_ids_rect. now rewrite necessary_num_near_tiles_spec.
Qed.

Lemma candidate_count_formula_witness :
  necessary_num_near_tiles 3500 = candidate_count 3500
  /\ candidate_count 3500 = ((2 + 2 * ((Qfloor (3500 / 1000) + 1) / 2)) ^ 2)%Z
  /\ candidate_count 0 = 4%Z /\ candidate_count 999 = 4%Z /\ candidate_count 1000 = 16%Z
  /\ (forall r', Qfloor (r' / 1000) = Qfloor (3500 / 1000) ->
                 candidate_count r' = candidate_count 3500)
  /\ (forall r', 3500 <= r' -> (candidate_count 3500 <= candidate_count r')%Z)
  /\ get_tile_ids Example.parser (1000, 1000) 3500
     = get_tile_ids_loop Example.parser (Circle_new (1000, 1000) 3500)
         (rtree_nearest (tile_idx Example.parser)
            (snd (SJTSK_TO_WGS (fst (1000, 1000)) (snd (1000, 1000))),
             fst (SJTSK_TO_WGS (fst (1000, 1000)) (snd (1000, 1000))))
            (candidate_count 3500)) []
  /\ get_tile_ids_rect Example.parser (0, 2000) (2500, 2000) (0, 0) (2500, 0)
     = get_tile_ids_rect_loop Example.parser
         (Polygon_new [(0, 2000); (0, 0); (2500, 0); (2500, 2000)])
         (rtree_nearest (tile_idx Example.parser) (1, 5 # 4)
            (candidate_count (rect_radius (2500, 2000) (0, 0)))) [].
Proof.
  apply (candidate_count_formula Example.chart Example.parser
           (1000, 1000) (0, 2000) (2500, 2000) (0, 0) (2500, 0) 3500).
  discriminate.
Defined.

(** The count at five radii: it steps up at 1000, 3000, 5000, ... *)
Example candidate_count_samples :
  map necessary_num_near_tiles [0; 999; 1000; 2999; 3000; 5000]
  = [4; 4; 16; 16; 36; 64]%Z.
Proof. reflexivity. Qed.

(** ** Looking an entry up by its ordinal *)

Lemma enumerate_find_none (field : Entry -> option string) (entries : list Entry) :
  forall i id : Z,
    (id < i \/ i + Z.of_nat (length entries) <= id)%Z ->
    enumerate_find field entries i id = None.
Proof.
  induction entries as [|entry entries IH]; intros i id H; [reflexivity|].
  cbn [enumerate_find length] in *.
  destruct (i =? id)%Z eqn:E; [apply Z.eqb_eq in E; lia|].
  apply IH. lia.
Qed.

Lemma enumerate_find_some (field : Entry -> option string) (entries : list Entry) :
  forall (i : Z) (k : nat) (entry : Entry),
    entries !! k = Some entry ->
    enumerate_find field entries i (i + Z.of_nat k) = field entry.
Proof.
  induction entries as [|e entries IH]; intros i k entry Hk; [discriminate|].
  cbn [enumerate_find]. destruct k as [|k].
  - inversion Hk; subst. now rewrite Z.add_0_r, Z.eqb_refl.
  - destruct (i =? i + Z.of_nat (S k))%Z eqn:E; [apply Z.eqb_eq in E; lia|].
    replace (i + Z.of_nat (S k))%Z with ((i + 1) + Z.of_nat k)%Z by lia.
    now apply IH.
Qed.

(** ** The tile cache *)

(** Whatever makes [get_tile_zip] raise, [download_tile] returns [None]
    and writes nothing. *)
Lemma download_tile_unavailable {U : Unpacker} (net : Network) (self : Dmr5gParser) (id : Z)
    (fs : gmap string FileContent) (e : Exception) :
  get_tile_zip net self id = Raise e -> download_tile net self id fs = (Ok None, fs).
Proof. intros H. unfold download_tile. now rewrite H. Qed.

(** C10.  For an ordinal that is not below the number of entries of the
    catalogue, the loops of [get_tile_xml] and of [get_tile_update_date]
    end without a [return]: both give [None], and no out-of-bounds error is
    raised.  [get_tile_code] then calls a method of that [None], and
    [download_tile] answers [None] with the cache as it was. *)
Theorem lookups_fall_through {U : Unpacker} (net : Network) (self : Dmr5gParser) (id : Z)
    (fs : gmap string FileContent) :
  (Z.of_nat (length (root self)) <= id)%Z ->
  get_tile_xml self id = None
  /\ get_tile_update_date self id = None
  /\ get_tile_code self id = Raise AttributeError
  /\ download_tile net self id fs = (Ok None, fs).
Proof.
  intros Hid.
  assert (Hxml : get_tile_xml self id = None)
    by (apply enumerate_find_none; lia).
  split; [exact Hxml|]. split; [apply enumerate_find_none; lia|]. split.
  - unfold get_tile_code. now rewrite Hxml.
  - apply (download_tile_unavailable _ _ _ _ AttributeError).
    unfold get_tile_zip. now rewrite Hxml.
Qed.

Lemma lookups_fall_through_witness :
  get_tile_xml Example.parser 3 = None
  /\ get_tile_update_date Example.parser 3 = None
  /\ get_tile_code Example.parser 3 = Raise AttributeError
  /\ download_tile Example.net_up Example.parser 3 Example.cache = (Ok None, Example.cache).
Proof.
  apply (lookups_fall_through Example.net_up Example.parser 3 Example.cache).
  vm_compute. discriminate.
Defined.

(** Within the catalogue the two lookups return the text of the entry,
    [None] when the element has no text. *)
Lemma lookups_in_range (self : Dmr5gParser) (k : nat) (entry : Entry) :
  root self !! k = Some entry ->
  get_tile_xml self (Z.of_nat k) = entry_id entry
  /\ get_tile_update_date self (Z.of_nat k) = entry_updated entry.
Proof.
  intros Hk. unfold get_tile_xml, get_tile_update_date.
  split; apply (enumerate_find_some _ _ 0 k entry Hk).
Qed.

(** C8, as the program has it.  When the connection fails while the tile
    descriptor is resolved, [download_tile] returns [None], raises nothing
    and leaves every file of the cache as it was. *)
Theorem download_tile_resolution_failure {U : Unpacker} (net : Network) (self : Dmr5gParser)
    (id : Z) (fs : gmap string FileContent) (tile_url : string) :
  get_tile_xml self id = Some tile_url ->
  urlopen net tile_url = None ->
  get_tile_zip net self id = Raise URLError
  /\ download_tile net self id fs = (Ok None, fs).
Proof.
  intros Hxml Hnet.
  assert (H : get_tile_zip net self id = Raise URLError).
  { unfold get_tile_zip, open_url. now rewrite Hxml, Hnet. }
  split; [exact H|]. now apply (download_tile_unavailable _ _ _ _ URLError).
Qed.

Lemma download_tile_resolution_failure_witness :
  get_tile_zip Example.net_down Example.parser 1 = Raise URLError
  /\ download_tile Example.net_down Example.parser 1 Example.cache
     = (Ok None, Example.cache).
Proof.
  apply (download_tile_resolution_failure Example.net_down Example.parser 1 Example.cache
           "https://atom.cuzk.cz/DMR5G-SJTSK/datasetFeeds/CZ-00025712-CUZK_DMR5G-SJTSK_TILE01.xml");
    reflexivity.
Defined.

(** C8, as the claim has it, fails: with the descriptors served and the
    archive unreachable, [download_tile] does not return [None]; the
    exception of [urlretrieve] reaches the caller. *)
Lemma download_tile_archive_failure_raises :
  urlretrieve Example.net_archive_down "https://openzu.cuzk.cz/TILE.zip" = None
  /\ get_tile_zip Example.net_archive_down Example.parser 1
     = Ok "https://openzu.cuzk.cz/TILE.zip"
  /\ fst (download_tile Example.net_archive_down Example.parser 1 Example.cache)
     = Raise URLError
  /\ fst (download_tile Example.net_archive_down Example.parser 1 Example.cache)
     <> Ok None.
Proof. repeat split; try reflexivity. discriminate. Qed.

(** A download that succeeds: the archive and the data file are written
    under the tile code and the manifest gets the date of the catalogue. *)
Example download_tile_success :
  let '(r, fs) := download_tile Example.net_up Example.parser 1 Example.cache in
  r = Ok (Some "/cache/TILE01.laz")
  /\ fs !! "/cache/TILE01.laz" = Some (Text "points")
  /\ fs !! "/cache/TILE01.zip" = Some (ZipArchive [("TILE.laz", "points")])
  /\ fs !! "/cache/update_dates.json"
     = Some (JsonObject (<["TILE01" := Json_string "2021-06-01T00:00:00"]>
                           (<["TILE07" := Json_string "2019-05-05T00:00:00"]> ∅))).
Proof. vm_compute. repeat split; reflexivity. Qed.

(** ** Point resolution *)

Section PointResolution.
Context {C : Collaborators}.
Variables (dir : string) (root : list Entry) (self : Dmr5gParser).
Hypothesis index_sound : rtree_sound C.
Hypothesis loaded : Dmr5gParser_init dir root = Ok self.

Lemma get_tile_candidate (id : Z) :
  (0 <= id < n self)%Z ->
  get_tile self id = Ok (nth (Z.to_nat id) (tile_polygons self) []).
Proof using loaded.
  intros Hid. rewrite get_tile_in_range by exact Hid.
  destruct (tile_polygons self !! Z.to_nat id) as [tile|] eqn:E.
  - now rewrite (nth_lookup_Some _ _ _ _ E).
  - apply lookup_ge_None_1 in E.
    apply Dmr5gParser_init_spec in loaded as [_ ->].
    cbn [tile_polygons n] in *. rewrite length_map in E. lia.
Qed.

Lemma indexed_in_range (id : Z) :
  In id (map fst (tile_idx self)) -> (0 <= id < n self)%Z.
Proof using loaded.
  apply Dmr5gParser_init_spec in loaded as [_ ->]. cbn [tile_idx n].
  apply index_entries_id_range.
Qed.

Lemma intersection_in_range (q : point) (id : Z) :
  In id (rtree_intersection (tile_idx self) q) -> (0 <= id < n self)%Z.
Proof using index_sound loaded.
  intros H. apply indexed_in_range. now apply (index_sound (tile_idx self) q id).
Qed.

Lemma nearest_in_range (q : point) (k id : Z) :
  In id (rtree_nearest (tile_idx self) q k) -> (0 <= id < n self)%Z.
Proof using index_sound loaded.
  intros H. apply indexed_in_range.
  now apply (proj2 (index_sound (tile_idx self) q id) k).
Qed.

(** The loop returns the first candidate whose normalised footprint
    contains the point. *)
Lemma get_tile_id_loop_first (point point_sjtsk : point) (ids : list Z) :
  (forall id, In id ids -> (0 <= id < n self)%Z) ->
  get_tile_id_loop self point point_sjtsk ids
  = match List.find (fun id => contains (normalized_footprint self id) point_sjtsk) ids with
    | Some id => Ok id
    | None => Raise (PointOutOfTileError NoneOfSelected point)
    end.
Proof using loaded.
  induction ids as [|id ids IH]; intros Hids; [reflexivity|].
  cbn [get_tile_id_loop List.find].
  rewrite get_tile_candidate by (apply Hids; now left).
  cbn [mbind Result_bind]. fold (normalized_footprint self id).
  destruct (contains (normalized_footprint self id) point_sjtsk); [reflexivity|].
  apply IH. intros id' Hid'. apply Hids. now right.
Qed.

(** [get_tile_id], by the number of candidates. *)
Lemma get_tile_id_cases (point : point) :
  get_tile_id self point
  = let point_sjtsk := WGS_TO_SJTSK (snd point) (fst point) in
    let hit := fun id => contains (normalized_footprint self id) point_sjtsk in
    match rtree_intersection (tile_idx self) point with
    | [] => Raise (PointOutOfTileError NoTileFound point)
    | [id] => if hit id then Ok id
              else Raise (PointOutOfTileError OnlyOneSelected point)
    | ids => match List.find hit ids with
             | Some id => Ok id
             | None => Raise (PointOutOfTileError NoneOfSelected point)
             end
    end.
Proof using index_sound loaded.
  unfold get_tile_id, get_intersection_tile_ids. cbv zeta.
  pose proof (intersection_in_range point) as Hrange.
  destruct (rtree_intersection (tile_idx self) point) as [|id [|id' ids]] eqn:E.
  - reflexivity.
  - cbn [length Nat.ltb Nat.leb Nat.eqb]. rewrite py_getitem_nonneg by lia.
    change ([id] !! Z.to_nat 0) with (Some id). cbn [mbind Result_bind].
    rewrite get_tile_candidate by (apply Hrange; now left).
    cbn [mbind Result_bind]. fold (normalized_footprint self id).
    now destruct (contains _ _).
  - cbn [length Nat.ltb Nat.leb]. now apply get_tile_id_loop_first.
Qed.

End PointResolution.

(** The example R-tree answers with ids of its entries. *)
Lemma insert_by_distance_In (q : point) (e x : Z * Box) (sorted : list (Z * Box)) :
  In x (Example.insert_by_distance q e sorted) -> x = e \/ In x sorted.
Proof.
  induction sorted as [|e' rest IH]; cbn [Example.insert_by_distance].
  - intros [<-|[]]. now left.
  - destruct (Qlt_bool _ _).
    + intros [<-|H]; [now left | now right].
    + intros [<-|H]; [right; now left|].
      destruct (IH H) as [->|H']; [now left | right; now right].
Qed.

Lemma In_take {A} (k : nat) (l : list A) (x : A) : In x (take k l) -> In x l.
Proof.
  revert l. induction k as [|k IH]; intros [|a l]; cbn; try tauto.
  intros [->|H]; [now left | right; now apply IH].
Qed.

Lemma chart_sound : rtree_sound Example.chart.
Proof.
  intros idx q id. split.
  - cbn [rtree_intersection Example.chart]. unfold Example.scan_intersection.
    rewrite !in_map_iff. intros (e & <- & He). exists e. split; [reflexivity|].
    now apply filter_In in He as [He _].
  - intros k. cbn [rtree_nearest Example.chart]. unfold Example.scan_nearest.
    rewrite !in_map_iff. intros (e & <- & He). exists e. split; [reflexivity|].
    apply In_take in He. clear -He. induction idx as [|e' idx IH]; [destruct He|].
    cbn [foldr] in He. apply insert_by_distance_In in He as [->|He];
      [now left | right; now apply IH].
Qed.



(** The three cases on the example catalogue: inside tile 0, in the seam
    where tiles 0 and 1 are both candidates, outside the catalogue, and in
    a box of the index but outside the normalised footprint. *)
Example get_tile_id_samples :
  get_tile_id Example.parser (2, 1) = Ok 0%Z
  /\ get_intersection_tile_ids Example.parser (252 # 100, 1) = [0%Z; 1%Z]
  /\ get_tile_id Example.parser (252 # 100, 1) = Ok 1%Z
  /\ get_tile_id Example.parser (10, 10)
     = Raise (PointOutOfTileError NoTileFound (10, 10))
  /\ get_intersection_tile_ids Example.parser (505 # 100, 1) = [1%Z]
  /\ get_tile_id Example.parser (505 # 100, 1)
     = Raise (PointOutOfTileError OnlyOneSelected (505 # 100, 1)).
Proof. vm_compute. repeat split; reflexivity. Qed.

(** ** A point on the boundary of a footprint *)

Lemma contains_not_on_boundary (poly : Polygon) (p : point) :
  on_boundary poly p = true -> contains poly p = false.
Proof. intros H. unfold contains. now rewrite H. Qed.

(** An id that [get_tile_id] returns is a candidate whose normalised
    footprint contains the transformed point. *)
Lemma get_tile_id_returns_hit (C : Collaborators) (dir : string) (root : list Entry)
    (self : Dmr5gParser) (point : point) (id : Z) :
  rtree_sound C ->
  Dmr5gParser_init dir root = Ok self ->
  get_tile_id self point = Ok id ->
  In id (get_intersection_tile_ids self point)
  /\ contains (normalized_footprint self id) (WGS_TO_SJTSK (snd point) (fst point)) = true.
Proof.
  intros Hsound Hinit. rewrite (get_tile_id_cases dir root self Hsound Hinit point).
  cbv zeta. unfold get_intersection_tile_ids.
  destruct (rtree_intersection (tile_idx self) point) as [|a [|b l]].
  - discriminate.
  - destruct (contains (normalized_footprint self a) _) eqn:E; [|discriminate].
    intros [= <-]. split; [now left | exact E].
  - destruct (List.find _ _) as [x|] eqn:F; [|discriminate].
    intros [= <-]. now apply find_some in F.
Qed.

(** Whatever [get_tile_id] raises when the index was loaded, it is a
    [PointOutOfTileError]. *)
Lemma get_tile_id_raises_point_out_of_tile (C : Collaborators) (dir : string)
    (root : list Entry) (self : Dmr5gParser) (point : point) (e : Exception) :
  rtree_sound C ->
  Dmr5gParser_init dir root = Ok self ->
  get_tile_id self point = Raise e ->
  exists why, e = PointOutOfTileError why point.
Proof.
  intros Hsound Hinit. rewrite (get_tile_id_cases dir root self Hsound Hinit point).
  cbv zeta.
  destruct (rtree_intersection (tile_idx self) point) as [|a [|b l]].
  - intros [= <-]. eauto.
  - destruct (contains _ _); [discriminate|]. intros [= <-]. eauto.
  - destruct (List.find _ _); [discriminate|]. intros [= <-]. eauto.
Qed.

(** C2, as the program has it.  A point on the boundary of a normalised
    footprint is not contained in it.  So for two tiles [a] and [b] whose
    normalised footprints both have the transformed point on their
    boundary, [get_tile_id] returns neither id, and it raises
    [PointOutOfTileError] when each candidate is one of the two.  (The
    function has no state: the same point gives the same outcome.) *)
Theorem get_tile_id_on_shared_boundary (C : Collaborators) (dir : string)
    (root : list Entry) (self : Dmr5gParser) (point : point) (a b : Z) :
  rtree_sound C ->
  Dmr5gParser_init dir root = Ok self ->
  on_boundary (normalized_footprint self a) (WGS_TO_SJTSK (snd point) (fst point)) = true ->
  on_boundary (normalized_footprint self b) (WGS_TO_SJTSK (snd point) (fst point)) = true ->
  get_tile_id self point <> Ok a
  /\ get_tile_id self point <> Ok b
  /\ ((forall id, In id (get_intersection_tile_ids self point) -> id = a \/ id = b) ->
      exists why, get_tile_id self point = Raise (PointOutOfTileError why point)).
Proof.
  intros Hsound Hinit Ha Hb.
  assert (Hnot : forall id, id = a \/ id = b -> get_tile_id self point <> Ok id).
  { intros id Hid Hret.
    apply (get_tile_id_returns_hit C dir root self point id Hsound Hinit) in Hret
      as [_ Hhit].
    destruct Hid as [-> | ->];
      [apply contains_not_on_boundary in Ha | apply contains_not_on_boundary in Hb];
      congruence. }
  split; [apply Hnot; now left|]. split; [apply Hnot; now right|].
  intros Hcand. destruct (get_tile_id self point) as [id|e] eqn:E.
  - exfalso. apply (Hnot id); [|reflexivity].
    apply Hcand.
    now apply (get_tile_id_returns_hit C dir root self point id Hsound Hinit).
  - destruct (get_tile_id_raises_point_out_of_tile C dir root self point e
                Hsound Hinit E) as [why ->].
    now exists why.
Qed.

Lemma get_tile_id_on_shared_boundary_witness :
  get_tile_id Example.parser (5 # 2, 1) <> Ok 0%Z
  /\ get_tile_id Example.parser (5 # 2, 1) <> Ok 1%Z
  /\ ((forall id, In id (get_intersection_tile_ids Example.parser (5 # 2, 1)) ->
                  id = 0%Z \/ id = 1%Z) ->
      exists why,
        get_tile_id Example.parser (5 # 2, 1)
        = Raise (PointOutOfTileError why (5 # 2, 1))).
Proof.
  apply (get_tile_id_on_shared_boundary Example.chart "/cache/" Example.catalogue
           Example.parser (5 # 2, 1) 0%Z 1%Z).
  - exact chart_sound.
  - reflexivity.
  - reflexivity.
  - reflexivity.
Defined.

(** C2, as the claim has it, fails.  The normalised footprints of tiles 0
    and 1 of the example catalogue are the rectangles from (0, 0) to
    (2500, 2000) and from (2500, 0) to (5000, 2000); the point of longitude
    2.5 and latitude 1 is carried to (2500, 1000), on the side they share;
    both tiles are candidates, and [get_tile_id] returns neither: it raises
    "none of selected tiles contains the point". *)
Lemma get_tile_id_boundary_point_raises :
  polygon_equiv (normalized_footprint Example.parser 0)
                (mkPolygon (canonical_ring 0 0 2500 2000))
  /\ polygon_equiv (normalized_footprint Example.parser 1)
                   (mkPolygon (canonical_ring 2500 0 5000 2000))
  /\ point_equiv (WGS_TO_SJTSK 1 (5 # 2)) (2500, 1000)
  /\ on_boundary (normalized_footprint Example.parser 0) (WGS_TO_SJTSK 1 (5 # 2)) = true
  /\ on_boundary (normalized_footprint Example.parser 1) (WGS_TO_SJTSK 1 (5 # 2)) = true
  /\ get_intersection_tile_ids Example.parser (5 # 2, 1) = [0%Z; 1%Z]
  /\ get_tile_id Example.parser (5 # 2, 1)
     = Raise (PointOutOfTileError NoneOfSelected (5 # 2, 1)).
Proof.
  split; [unfold polygon_equiv; vm_compute; repeat constructor|].
  split; [unfold polygon_equiv; vm_compute; repeat constructor|].
  split; [split; reflexivity|].
  repeat split; reflexivity.
Qed.

(** On either side of the seam the point resolves to the tile of that side. *)
Example get_tile_id_beside_boundary :
  get_tile_id Example.parser (2499 # 1000, 1) = Ok 0%Z
  /\ get_tile_id Example.parser (2501 # 1000, 1) = Ok 1%Z.
Proof. split; reflexivity. Qed.

(** ** Radius resolution *)

(** [c_r_intersects] decides the circle-rectangle test of the
    specification. *)
Lemma c_r_intersects_spec (circle : Circle) (rect : Rectangle) :
  c_r_intersects circle rect = true <-> circle_meets_rectangle circle rect.
Proof.
  unfold c_r_intersects, circle_meets_rectangle. cbv zeta.
  set (dx := Qabs (circle_x circle - rect_x rect)).
  set (dy := Qabs (circle_y circle - rect_y rect)).
  destruct (Qlt_bool (rect_w rect / 2 + circle_r circle) dx) eqn:E1.
  { apply Qlt_bool_iff in E1. split; [discriminate|]. intros [H _]. lra. }
  apply Qlt_bool_false_iff in E1.
  destruct (Qlt_bool (rect_h rect / 2 + circle_r circle) dy) eqn:E2.
  { apply Qlt_bool_iff in E2. split; [discriminate|]. intros [_ [H _]]. lra. }
  apply Qlt_bool_false_iff in E2.
  destruct (Qle_bool dx (rect_w rect / 2)) eqn:E3.
  { apply Qle_bool_iff in E3. tauto. }
  destruct (Qle_bool dy (rect_h rect / 2)) eqn:E4.
  { apply Qle_bool_iff in E4. tauto. }
  assert (N3 : ~ dx <= rect_w rect / 2)
    by (rewrite <- Qle_bool_iff, E3; discriminate).
  assert (N4 : ~ dy <= rect_h rect / 2)
    by (rewrite <- Qle_bool_iff, E4; discriminate).
  rewrite Qle_bool_iff. tauto.
Qed.

Lemma reported_footprint_length (float_list : list Q) :
  length (reported_footprint float_list) = Nat.div2 (length float_list).
Proof.
  assert (H : forall m l, (length l <= m)%nat ->
            length (reported_footprint l) = Nat.div2 (length l)).
  { induction m as [|m IH]; intros l Hl.
    - destruct l; [reflexivity | cbn in Hl; lia].
    - destruct l as [|a [|b rest]]; [reflexivity | reflexivity |].
      cbn [reported_footprint length Nat.div2]. rewrite IH; [reflexivity|].
      cbn in Hl. lia. }
  now apply (H (length float_list)).
Qed.

Lemma entry_ok_vertices (entry : Entry) :
  entry_ok entry = true ->
  (3 <= length (reported_footprint (entry_polygon entry)))%nat.
Proof.
  unfold entry_ok. cbv zeta. rewrite !andb_true_iff, Nat.leb_le.
  intros [[Heven Hlen] _]. rewrite reported_footprint_length.
  apply Nat.even_spec in Heven as [k Hk]. rewrite Hk in Hlen |- *.
  rewrite Nat.div2_double. clear Hk. lia.
Qed.

Lemma close_ring_length (coords : list point) :
  (length coords <= length (close_ring coords))%nat.
Proof.
  unfold close_ring. destruct coords as [|p l]; [reflexivity|].
  destruct (point_eqb _ _); [reflexivity|]. rewrite length_app. lia.
Qed.

Lemma normalized_length (C : Collaborators) (tile : list point) :
  (length tile <= length (exterior_coords (fix_tile_coords (tile_to_sjtsk tile))))%nat.
Proof.
  rewrite fix_tile_coords_unfold. cbn [Polygon_new exterior_coords tile_to_sjtsk].
  etransitivity; [|apply close_ring_length]. rewrite length_map.
  etransitivity; [|apply close_ring_length]. now rewrite length_map.
Qed.

(** [Rectangle] of a polygon with three vertices or more. *)
Lemma Rectangle_new_footprint (poly : Polygon) :
  (3 <= length (exterior_coords poly))%nat ->
  Rectangle_new (coords_xy poly) = Ok (footprint_rectangle poly).
Proof.
  intros H. unfold Rectangle_new, coords_xy, footprint_rectangle. cbn [fst snd].
  rewrite (py_getitem_nth _ 0) by (rewrite length_map; lia).
  cbn [mbind Result_bind].
  rewrite (py_getitem_nth _ 0) by (rewrite length_map; lia).
  cbn [mbind Result_bind].
  rewrite (py_getitem_nth _ 1) by (rewrite length_map; lia).
  cbn [mbind Result_bind].
  rewrite (py_getitem_nth _ 2) by (rewrite length_map; lia).
  reflexivity.
Qed.

(** The loop of [get_tile_ids] keeps, in their order, the candidates that
    pass the circle-rectangle test. *)
Lemma get_tile_ids_loop_filter (C : Collaborators) (dir : string) (root : list Entry)
    (self : Dmr5gParser) (circle : Circle) (tile_ids ids : list Z) :
  Dmr5gParser_init dir root = Ok self ->
  (forall id, In id tile_ids -> (0 <= id < n self)%Z) ->
  get_tile_ids_loop self circle tile_ids ids
  = Ok (ids ++ List.filter
                 (fun id => c_r_intersects circle
                              (footprint_rectangle (normalized_footprint self id)))
                 tile_ids).
Proof.
  intros Hinit. revert ids.
  induction tile_ids as [|id tile_ids IH]; intros ids Hrange.
  - cbn. now rewrite app_nil_r.
  - cbn [get_tile_ids_loop List.filter].
    assert (Hid : (0 <= id < n self)%Z) by (apply Hrange; now left).
    rewrite (get_tile_candidate dir root self Hinit id Hid).
    cbn [mbind Result_bind]. fold (normalized_footprint self id).
    rewrite Rectangle_new_footprint.
    2:{ unfold normalized_footprint.
        etransitivity; [|apply normalized_length].
        pose proof Hinit as Hspec. apply Dmr5gParser_init_spec in Hspec as [Hok ->].
        cbn [tile_polygons n] in *.
        destruct (root !! Z.to_nat id) as [entry|] eqn:E.
        - erewrite nth_lookup_Some by (rewrite list_lookup_fmap, E; reflexivity).
          apply entry_ok_vertices. rewrite forallb_forall in Hok. apply Hok.
          apply list_elem_of_In, list_elem_of_lookup. eauto.
        - apply lookup_ge_None_1 in E. lia. }
    cbn [mbind Result_bind].
    destruct (c_r_intersects circle _).
    + rewrite IH by (intros id' Hid'; apply Hrange; now right).
      now rewrite <- app_assoc.
    + apply IH. intros id' Hid'. apply Hrange. now right.
Qed.

(** *** The extent of a ring is its bounding box *)

Lemma extent_bounds (p : point) (ring : list point) :
  let '(l, b, r, t) := extent (p :: ring) in
  Forall (fun v => l <= fst v <= r /\ b <= snd v <= t) (p :: ring)
  /\ Exists (fun v => fst v == l) (p :: ring)
  /\ Exists (fun v => snd v == b) (p :: ring)
  /\ Exists (fun v => fst v == r) (p :: ring)
  /\ Exists (fun v => snd v == t) (p :: ring).
Proof.
  cbn [extent]. induction ring as [|v ring IH].
  - cbn [foldr]. repeat split; repeat constructor; cbn [fst snd];
      try apply Qle_refl; reflexivity.
  - cbn [foldr].
    destruct (foldr _ _ ring) as [[[l b] r] t].
    destruct IH as (Hall & Hl & Hb & Hr & Ht).
    pose proof (Q.le_min_l (fst v) l). pose proof (Q.le_min_r (fst v) l).
    pose proof (Q.le_min_l (snd v) b). pose proof (Q.le_min_r (snd v) b).
    pose proof (Q.le_max_l (fst v) r). pose proof (Q.le_max_r (fst v) r).
    pose proof (Q.le_max_l (snd v) t). pose proof (Q.le_max_r (snd v) t).
    assert (Hweak : forall w : point,
               (l <= fst w <= r /\ b <= snd w <= t) ->
               Qmin (fst v) l <= fst w <= Qmax (fst v) r
               /\ Qmin (snd v) b <= snd w <= Qmax (snd v) t).
    { intros w [[? ?] [? ?]]. repeat split; eapply Qle_trans; eauto. }
    inversion Hall as [|? ? Hp Hring]; subst.
    split.
    { constructor; [now apply Hweak|]. constructor; [now repeat split|].
      eapply Forall_impl; [exact Hring|]. intros w Hw. now apply Hweak. }
    assert (Hex : forall (f : point -> Q) (m old : Q),
               (m == f v \/ m == old) ->
               Exists (fun w => f w == old) (p :: ring) ->
               Exists (fun w => f w == m) (p :: v :: ring)).
    { intros f m old [Hm|Hm] Hold.
      - apply Exists_cons_tl, Exists_cons_hd. now symmetry.
      - inversion Hold as [? ? Hhd|? ? Htl]; subst.
        + apply Exists_cons_hd. now rewrite Hm.
        + do 2 apply Exists_cons_tl. eapply Exists_impl; [exact Htl|].
          intros w Hw. cbn beta in Hw. now rewrite Hm. }
    repeat split.
    + apply (Hex fst _ l); [|exact Hl].
      destruct (Q.min_spec (fst v) l) as [[_ E]|[_ E]]; [now left | now right].
    + apply (Hex snd _ b); [|exact Hb].
      destruct (Q.min_spec (snd v) b) as [[_ E]|[_ E]]; [now left | now right].
    + apply (Hex fst _ r); [|exact Hr].
      destruct (Q.max_spec (fst v) r) as [[_ E]|[_ E]]; [now right | now left].
    + apply (Hex snd _ t); [|exact Ht].
      destruct (Q.max_spec (snd v) t) as [[_ E]|[_ E]]; [now right | now left].
Qed.

(** For a footprint that is an axis-parallel rectangle listed from its
    lower-left corner, [Rectangle] is the bounding rectangle. *)
Lemma footprint_rectangle_canonical (poly : Polygon) (l b r t : Q) :
  polygon_equiv poly (mkPolygon (canonical_ring l b r t)) ->
  l <= r -> b <= t ->
  rectangle_equiv (footprint_rectangle poly) (bounding_rectangle poly).
Proof.
  unfold polygon_equiv, canonical_ring. cbn [exterior_coords].
  intros Heq Hlr Hbt.
  destruct poly as [coords]. cbn [exterior_coords] in Heq.
  inversion Heq as [|p0 c0 ? ? [E0x E0y] Heq1]; subst; clear Heq.
  inversion Heq1 as [|p1 c1 ? ? [E1x E1y] Heq2]; subst; clear Heq1.
  inversion Heq2 as [|p2 c2 ? ? [E2x E2y] Heq3]; subst; clear Heq2.
  inversion Heq3 as [|p3 c3 ? ? [E3x E3y] Heq4]; subst; clear Heq3.
  inversion Heq4 as [|p4 c4 ? ? [E4x E4y] Heq5]; subst; clear Heq4.
  inversion Heq5; subst; clear Heq5.
  cbn [fst snd] in *.
  unfold footprint_rectangle, bounding_rectangle. cbn [exterior_coords map nth].
  pose proof (extent_bounds p0 [p1; p2; p3; p4]) as Hext.
  destruct (extent [p0; p1; p2; p3; p4]) as [[[l' b'] r'] t'].
  destruct Hext as (Hall & Hl & Hb & Hr & Ht).
  apply List.Forall_forall with (x := p0) in Hall as Hp0; [|now left].
  apply List.Forall_forall with (x := p1) in Hall as Hp1; [|right; now left].
  apply List.Forall_forall with (x := p2) in Hall as Hp2; [|right; right; now left].
  apply List.Exists_exists in Hl as (vl & Hvl & El).
  apply List.Exists_exists in Hb as (vb & Hvb & Eb).
  apply List.Exists_exists in Hr as (vr & Hvr & Er).
  apply List.Exists_exists in Ht as (vt & Hvt & Et).
  assert (Hl' : l' == l).
  { apply Qle_antisym; [lra|].
    cbn [In] in Hvl.
    destruct Hvl as [<-|[<-|[<-|[<-|[<-|[]]]]]]; lra. }
  assert (Hb' : b' == b).
  { apply Qle_antisym; [lra|].
    cbn [In] in Hvb.
    destruct Hvb as [<-|[<-|[<-|[<-|[<-|[]]]]]]; lra. }
  assert (Hr' : r' == r).
  { apply Qle_antisym; [|lra].
    cbn [In] in Hvr.
    destruct Hvr as [<-|[<-|[<-|[<-|[<-|[]]]]]]; lra. }
  assert (Ht' : t' == t).
  { apply Qle_antisym; [|lra].
    cbn [In] in Hvt.
    destruct Hvt as [<-|[<-|[<-|[<-|[<-|[]]]]]]; lra. }
  unfold rectangle_equiv. cbn [rect_x rect_y rect_w rect_h].
  rewrite Hl', Hb', Hr', Ht', E0x, E0y, E1x, E2y. repeat split; reflexivity.
Qed.

(** C5, as the program has it.  [get_tile_ids] returns, in the order of the
    index answer, exactly the candidates for which the circle-rectangle
    test accepts the rectangle that [Rectangle] reads off the normalised
    footprint: left and bottom from its first vertex, right from its second
    and top from its third.  The test is the one of the specification:
    refuse when the distance to the centre on an axis exceeds the half
    extent plus the radius, accept within the half width or the half
    height, and otherwise accept exactly when the squared distance to the
    corner is at most the squared radius.  The rectangle is the bounding
    rectangle of the footprint when the footprint is an axis-parallel
    rectangle listed from its lower-left corner through the lower-right and
    the upper-right.  The call returns a list, maybe empty, and raises
    nothing. *)
Theorem get_tile_ids_resolution (C : Collaborators) (dir : string) (root : list Entry)
    (self : Dmr5gParser) (point_sjtsk : point) (radius : Q) :
  rtree_sound C ->
  Dmr5gParser_init dir root = Ok self ->
  let point_wgs := SJTSK_TO_WGS (fst point_sjtsk) (snd point_sjtsk) in
  let candidates :=
    rtree_nearest (tile_idx self) (snd point_wgs, fst point_wgs)
      (necessary_num_near_tiles radius) in
  let circle := Circle_new point_sjtsk radius in
  get_tile_ids self point_sjtsk radius
  = Ok (List.filter
          (fun id => c_r_intersects circle
                       (footprint_rectangle (normalized_footprint self id)))
          candidates)
  /\ (forall id,
        In id (List.filter
                 (fun id => c_r_intersects circle
                              (footprint_rectangle (normalized_footprint self id)))
                 candidates)
        <-> In id candidates
            /\ circle_meets_rectangle circle
                 (footprint_rectangle (normalized_footprint self id)))
  /\ (forall id l b r t,
        polygon_equiv (normalized_footprint self id) (mkPolygon (canonical_ring l b r t)) ->
        l <= r -> b <= t ->
        rectangle_equiv (footprint_rectangle (normalized_footprint self id))
                        (bounding_rectangle (normalized_footprint self id))).
Proof.
  intros Hsound Hinit point_wgs candidates circle. split; [|split].
  - unfold get_tile_ids. fold point_wgs. fold candidates. fold circle.
    rewrite (get_tile_ids_loop_filter C dir root self circle candidates [] Hinit).
    + reflexivity.
    + intros id Hid. eapply (nearest_in_range dir root self Hsound Hinit). exact Hid.
  - intros id. rewrite filter_In, c_r_intersects_spec. reflexivity.
  - intros id l b r t. apply footprint_rectangle_canonical.
Qed.

Lemma get_tile_ids_resolution_witness :
  let point_wgs := SJTSK_TO_WGS (fst (1000, 1000)) (snd (1000, 1000)) in
  let candidates :=
    rtree_nearest (tile_idx Example.parser) (snd point_wgs, fst point_wgs)
      (necessary_num_near_tiles 2000) in
  let circle := Circle_new (1000, 1000) 2000 in
  get_tile_ids Example.parser (1000, 1000) 2000
  = Ok (List.filter
          (fun id => c_r_intersects circle
                       (footprint_rectangle (normalized_footprint Example.parser id)))
          candidates)
  /\ (forall id,
        In id (List.filter
                 (fun id => c_r_intersects circle
                              (footprint_rectangle (normalized_footprint Example.parser id)))
                 candidates)
        <-> In id candidates
            /\ circle_meets_rectangle circle
                 (footprint_rectangle (normalized_footprint Example.parser id)))
  /\ (forall id l b r t,
        polygon_equiv (normalized_footprint Example.parser id)
                      (mkPolygon (canonical_ring l b r t)) ->
        l <= r -> b <= t ->
        rectangle_equiv (footprint_rectangle (normalized_footprint Example.parser id))
                        (bounding_rectangle (normalized_footprint Example.parser id))).
Proof.
  apply (get_tile_ids_resolution Example.chart "/cache/" Example.catalogue
           Example.parser (1000, 1000) 2000).
  - exact chart_sound.
  - reflexivity.
Defined.

(** Radius resolution on the example catalogue: the tile under the centre
    for the radius 0, the three tiles for 2000, and the empty list far
    from every tile. *)
Example get_tile_ids_samples :
  get_tile_ids Example.parser (1000, 1000) 0 = Ok [0%Z]
  /\ get_tile_ids Example.parser (1000, 1000) 2000 = Ok [0%Z; 2%Z; 1%Z]
  /\ get_tile_ids Example.parser (100000, 1000) 2000 = Ok [].
Proof. repeat split; reflexivity. Qed.

(** C5, as the claim has it, fails.  The one tile of the catalogue is the
    rectangle from (0, 0) to (2500, 2000) listed from its lower-left corner
    through the upper-left; it is the candidate of the query, and the
    circle of radius 100 about (2400, 1000) lies within its bounding
    rectangle; yet [get_tile_ids] returns no tile, for [Rectangle] has read
    the left side of the footprint, of width 0. *)
Lemma get_tile_ids_not_bounding_rectangle :
  polygon_equiv (normalized_footprint Example.clockwise_parser 0)
                (mkPolygon [(0, 0); (0, 2000); (2500, 2000); (2500, 0); (0, 0)])
  /\ rtree_nearest (tile_idx Example.clockwise_parser)
       (snd (SJTSK_TO_WGS 2400 1000), fst (SJTSK_TO_WGS 2400 1000))
       (necessary_num_near_tiles 100) = [0%Z]
  /\ rectangle_equiv (bounding_rectangle (normalized_footprint Example.clockwise_parser 0))
                     (mkRectangle 1250 1000 2500 2000)
  /\ c_r_intersects (Circle_new (2400, 1000) 100)
       (bounding_rectangle (normalized_footprint Example.clockwise_parser 0)) = true
  /\ rectangle_equiv (footprint_rectangle (normalized_footprint Example.clockwise_parser 0))
                     (mkRectangle 0 1000 0 2000)
  /\ get_tile_ids Example.clockwise_parser (2400, 1000) 100 = Ok [].
Proof.
  split; [unfold polygon_equiv; vm_compute; repeat constructor|].
  split; [reflexivity|].
  split; [vm_compute; repeat split; reflexivity|].
  split; [reflexivity|].
  split; [vm_compute; repeat split; reflexivity|].
  reflexivity.
Qed.

(** ** [contains] on the rectangles of the grid *)

Lemma Qbetween_iff (a b v : Q) :
  Qbetween a b v = true <-> (a <= v <= b) \/ (b <= v <= a).
Proof.
  unfold Qbetween. now rewrite orb_true_iff, !andb_true_iff, !Qle_bool_iff.
Qed.

Lemma on_segment_horizontal (px py x1 x2 y : Q) :
  ~ x1 == x2 ->
  on_segment (px, py) ((x1, y), (x2, y)) = true
  <-> py == y /\ ((x1 <= px <= x2) \/ (x2 <= px <= x1)).
Proof.
  intros Hne. unfold on_segment.
  rewrite !andb_true_iff, Qeq_bool_iff, !Qbetween_iff. split.
  - intros [[Hc Hx] Hy]. split; [lra | exact Hx].
  - intros [Hy Hx]. repeat split; [|exact Hx|lra].
    rewrite Hy. ring.
Qed.

Lemma on_segment_vertical (px py x y1 y2 : Q) :
  ~ y1 == y2 ->
  on_segment (px, py) ((x, y1), (x, y2)) = true
  <-> px == x /\ ((y1 <= py <= y2) \/ (y2 <= py <= y1)).
Proof.
  intros Hne. unfold on_segment.
  rewrite !andb_true_iff, Qeq_bool_iff, !Qbetween_iff. split.
  - intros [[Hc Hx] Hy]. split; [|exact Hy].
    assert (H0 : (y2 - y1) * (px - x) == 0) by lra.
    apply Qmult_integral in H0 as [H0|H0]; lra.
  - intros [Hx Hy]. repeat split; [|lra|exact Hy].
    rewrite Hx. ring.
Qed.

Lemma ray_crosses_horizontal (p : point) (x1 x2 y : Q) :
  ray_crosses p ((x1, y), (x2, y)) = false.
Proof.
  unfold ray_crosses. destruct p as [px py]. now rewrite xorb_nilpotent.
Qed.

Lemma ray_crosses_vertical (px py x y1 y2 : Q) :
  ray_crosses (px, py) ((x, y1), (x, y2))
  = xorb (Qlt_bool py y1) (Qlt_bool py y2) && Qlt_bool px x.
Proof.
  unfold ray_crosses. f_equal. apply Qlt_bool_comp; [reflexivity|].
  unfold Qdiv. ring.
Qed.

(** A rectangle of the grid contains the points strictly inside it, and no
    other point. *)
Lemma contains_canonical_ring (l b r t px py : Q) :
  l < r -> b < t ->
  contains (mkPolygon (canonical_ring l b r t)) (px, py) = true
  <-> l < px < r /\ b < py < t.
Proof.
  intros Hlr Hbt.
  unfold contains, on_boundary, canonical_ring, ring_edges.
  cbn [exterior_coords tail combine existsb List.filter].
  rewrite !ray_crosses_horizontal, !ray_crosses_vertical.
  assert (N1 : ~ l == r) by lra. assert (N2 : ~ r == l) by lra.
  assert (N3 : ~ b == t) by lra. assert (N4 : ~ t == b) by lra.
  pose proof (on_segment_horizontal px py l r b N1) as S1.
  pose proof (on_segment_vertical px py r b t N3) as S2.
  pose proof (on_segment_horizontal px py r l t N2) as S3.
  pose proof (on_segment_vertical px py l t b N4) as S4.
  pose proof (Qlt_bool_iff py b) as Tb. pose proof (Qlt_bool_false_iff py b) as Fb.
  pose proof (Qlt_bool_iff py t) as Tt. pose proof (Qlt_bool_false_iff py t) as Ft.
  pose proof (Qlt_bool_iff px r) as Tr. pose proof (Qlt_bool_false_iff px r) as Fr.
  pose proof (Qlt_bool_iff px l) as Tl. pose proof (Qlt_bool_false_iff px l) as Fl.
  destruct (Qlt_bool py b), (Qlt_bool py t), (Qlt_bool px r), (Qlt_bool px l);
    repeat match goal with
           | H : ?x = ?x <-> _ |- _ => apply proj1 in H; specialize (H eq_refl)
           | H : true = false <-> _ |- _ => clear H
           | H : false = true <-> _ |- _ => clear H
           end;
    try (exfalso; lra);
    cbn [xorb andb length Nat.odd Nat.even negb orb];
    rewrite ?andb_false_r, ?andb_true_r, ?negb_true_iff, ?orb_false_r;
    try (split; [discriminate | intros [[? ?] [? ?]]; lra]).
  (* the cell of the grid: b <= py < t and l <= px < r *)
  split.
  - intros Hb. apply orb_false_iff in Hb as [O1 Hb].
    apply orb_false_iff in Hb as [O2 Hb]. apply orb_false_iff in Hb as [O3 O4].
    assert (~ py == b).
    { intros E. rewrite (proj2 S1) in O1; [discriminate|]. split; [exact E|]. left. lra. }
    assert (~ px == l).
    { intros E. rewrite (proj2 S4) in O4; [discriminate|]. split; [exact E|]. right. lra. }
    lra.
  - intros [[? ?] [? ?]].
    destruct (on_segment (px, py) (l, b, (r, b))); [apply proj1 in S1; lra|].
    destruct (on_segment (px, py) (r, b, (r, t))); [apply proj1 in S2; lra|].
    destruct (on_segment (px, py) (r, t, (l, t))); [apply proj1 in S3; lra|].
    destruct (on_segment (px, py) (l, t, (l, b))); [apply proj1 in S4; lra|].
    reflexivity.
Qed.

(* ===================================================================== *)
(** * Further properties of the module *)

(** ** The transformers to and from a UTM zone *)

Lemma append_cancel_l (p a b : string) : p +:+ a = p +:+ b -> a = b.
Proof.
  induction p as [|c p IH]; cbn [String.append]; [tauto|].
  intros [= H]. now apply IH.
Qed.

(** X1.  The three functions raise for the same letters, anything but "N" and
    "S", the error quoting the letter; and two calls that return the same
    transformer were given the same letter and the same zone number; and
    [get_utm_to_sjtsk_trans] asks for the two systems of
    [get_sjtsk_to_utm_trans], the other way round.  (The transformer is
    taken as the pair of the names it was asked for.) *)
Theorem utm_trans_letter_and_zone (l1 l2 : string) (n1 n2 : Z) :
  (get_wgs_to_utm_trans pair l1 n1 = Raised (UTMZoneError_letter l1)
   <-> l1 <> "N" /\ l1 <> "S")
  /\ (get_sjtsk_to_utm_trans pair l1 n1 = Raised (UTMZoneError_letter l1)
      <-> l1 <> "N" /\ l1 <> "S")
  /\ (get_utm_to_sjtsk_trans pair l1 n1 = Raised (UTMZoneError_letter l1)
      <-> l1 <> "N" /\ l1 <> "S")
  /\ (forall t, get_wgs_to_utm_trans pair l1 n1 = Returned t ->
                get_wgs_to_utm_trans pair l2 n2 = Returned t ->
                l1 = l2 /\ n1 = n2)
  /\ (forall src utm, get_sjtsk_to_utm_trans pair l1 n1 = Returned (src, utm) ->
                      get_utm_to_sjtsk_trans pair l1 n1 = Returned (utm, src)).
Proof.
  assert (Hraise : forall (a b : string * string),
            (if String.eqb l1 "N" then Returned a
             else if String.eqb l1 "S" then Returned b
                  else Raised (UTMZoneError_letter l1))
            = Raised (UTMZoneError_letter l1)
            <-> l1 <> "N" /\ l1 <> "S").
  { intros a b. destruct (String.eqb_spec l1 "N") as [->|HN];
      [|destruct (String.eqb_spec l1 "S") as [->|HS]].
    - split; [discriminate | intros [H _]; now destruct H].
    - split; [discriminate | intros [_ H]; now destruct H].
    - split; [now split | reflexivity]. }
  split; [apply Hraise|]. split; [apply Hraise|]. split; [apply Hraise|].
  unfold get_wgs_to_utm_trans, get_sjtsk_to_utm_trans, get_utm_to_sjtsk_trans.
  split.
  - intros t.
    destruct (String.eqb_spec l1 "N") as [->|HN1];
      [|destruct (String.eqb_spec l1 "S") as [->|HS1]];
      (destruct (String.eqb_spec l2 "N") as [->|HN2];
       [|destruct (String.eqb_spec l2 "S") as [->|HS2]]);
      intros [= <-] [= E]; try discriminate;
      apply (append_cancel_l "") in E; apply (inj pretty) in E; now split.
  - intros src utm.
    destruct (String.eqb l1 "N"); [now intros [= <- <-]|].
    destruct (String.eqb l1 "S"); [now intros [= <- <-]|discriminate].
Qed.

(** The decimal digits of the zones from [lo] on, checked one by one. *)
Lemma zone_codes_checked (prefix : string) (base lo : Z) (count : nat) :
  forallb (fun k => String.eqb (prefix +:+ py_str (lo + Z.of_nat k))
                               ("EPSG:" +:+ py_str (base + lo + Z.of_nat k)))
          (seq 0 count) = true ->
  forall num, (lo <= num < lo + Z.of_nat count)%Z ->
    prefix +:+ py_str num = "EPSG:" +:+ py_str (base + num).
Proof.
  intros Hall num Hnum. rewrite forallb_forall in Hall.
  specialize (Hall (Z.to_nat (num - lo))).
  replace (lo + Z.of_nat (Z.to_nat (num - lo)))%Z with num in Hall by lia.
  replace (base + lo + Z.of_nat (Z.to_nat (num - lo)))%Z with (base + num)%Z in Hall by lia.
  apply String.eqb_eq, Hall, in_seq. lia.
Qed.

(** X2.  The zone number is appended as [str] prints it, without a leading
    zero: for a zone from 10 to 99 the system asked for is EPSG 32600 (N)
    or 32700 (S) plus the zone, and for a zone from 0 to 9 it is EPSG 3260
    or 3270 plus the zone. *)
Theorem utm_trans_zone_digits {Transformer : Type}
    (from_crs : string -> string -> Transformer) (utm_num : Z) :
  ((10 <= utm_num <= 99)%Z ->
   get_wgs_to_utm_trans from_crs "N" utm_num
   = Returned (from_crs WGS ("EPSG:" +:+ py_str (32600 + utm_num)))
   /\ get_wgs_to_utm_trans from_crs "S" utm_num
      = Returned (from_crs WGS ("EPSG:" +:+ py_str (32700 + utm_num)))
   /\ get_sjtsk_to_utm_trans from_crs "N" utm_num
      = Returned (from_crs SJTSK ("EPSG:" +:+ py_str (32600 + utm_num)))
   /\ get_utm_to_sjtsk_trans from_crs "N" utm_num
      = Returned (from_crs ("EPSG:" +:+ py_str (32600 + utm_num)) SJTSK))
  /\ ((0 <= utm_num <= 9)%Z ->
      get_wgs_to_utm_trans from_crs "N" utm_num
      = Returned (from_crs WGS ("EPSG:" +:+ py_str (3260 + utm_num)))
      /\ get_wgs_to_utm_trans from_crs "S" utm_num
         = Returned (from_crs WGS ("EPSG:" +:+ py_str (3270 + utm_num)))
      /\ "EPSG:" +:+ py_str (3260 + utm_num) <> "EPSG:" +:+ py_str (32600 + utm_num)).
Proof.
  unfold get_wgs_to_utm_trans, get_sjtsk_to_utm_trans, get_utm_to_sjtsk_trans.
  cbn [String.eqb Ascii.eqb Bool.eqb].
  split; intros Hnum.
  - rewrite (zone_codes_checked "EPSG:326" 32600 10 90 eq_refl utm_num) by lia.
    rewrite (zone_codes_checked "EPSG:327" 32700 10 90 eq_refl utm_num) by lia.
    repeat split; reflexivity.
  - rewrite (zone_codes_checked "EPSG:326" 3260 0 10 eq_refl utm_num) by lia.
    rewrite (zone_codes_checked "EPSG:327" 3270 0 10 eq_refl utm_num) by lia.
    repeat split; try reflexivity.
    intros E. apply (append_cancel_l "EPSG:") in E. apply (inj pretty) in E. lia.
Qed.

Lemma utm_trans_zone_digits_witness :
  (get_wgs_to_utm_trans pair "N" 33
   = Returned (WGS, "EPSG:" +:+ py_str (32600 + 33))
   /\ get_wgs_to_utm_trans pair "S" 33
      = Returned (WGS, "EPSG:" +:+ py_str (32700 + 33))
   /\ get_sjtsk_to_utm_trans pair "N" 33
      = Returned (SJTSK, "EPSG:" +:+ py_str (32600 + 33))
   /\ get_utm_to_sjtsk_trans pair "N" 33
      = Returned ("EPSG:" +:+ py_str (32600 + 33), SJTSK))
  /\ (get_wgs_to_utm_trans pair "N" 5
      = Returned (WGS, "EPSG:" +:+ py_str (3260 + 5))
      /\ get_wgs_to_utm_trans pair "S" 5
         = Returned (WGS, "EPSG:" +:+ py_str (3270 + 5))
      /\ "EPSG:" +:+ py_str (3260 + 5) <> "EPSG:" +:+ py_str (32600 + 5)).
Proof.
  split.
  - apply (utm_trans_zone_digits pair 33). lia.
  - apply (utm_trans_zone_digits pair 5). lia.
Defined.

(** The zone of the module, 33 north, and a zone of one digit. *)
Example utm_trans_samples :
  get_sjtsk_to_utm_trans pair "N" 33 = Returned ("EPSG:5514", "EPSG:32633")
  /\ get_wgs_to_utm_trans pair "S" 5 = Returned ("EPSG:4326", "EPSG:3275")
  /\ get_wgs_to_utm_trans pair "n" 33 = Raised (UTMZoneError_letter "n").
Proof. repeat split; reflexivity. Qed.

(** ** Loading the catalogue *)

Lemma cache_paths_differ (dir : string) :
  dir +:+ "DMR5G-SJTSK.xml" <> dir +:+ "DMR5G_last_modified.txt".
Proof. intros E. apply append_cancel_l in E. discriminate. Qed.

(** X3.  Without a connection the catalogue comes from the cache, which the
    call leaves as it is: [NoXMLFileError] when the cache has no catalogue,
    and otherwise the entries of the cached document. *)
Theorem get_dmr5g_xml_offline (w : World) (cache_dir : string)
    (fs : gmap string FileContent) :
  head_last_modified w = None ->
  (fs !! (cache_dir +:+ "DMR5G-SJTSK.xml") = None ->
   get_dmr5g_xml w cache_dir fs = (Raised NoXMLFileError, fs))
  /\ (forall s, fs !! (cache_dir +:+ "DMR5G-SJTSK.xml") = Some (Text s) ->
        get_dmr5g_xml w cache_dir fs
        = (match ET_entries w s with
           | Some root => Returned root
           | None => Raised ParseError
           end, fs))
  /\ snd (get_dmr5g_xml w cache_dir fs) = fs.
Proof.
  intros Hhead. unfold get_dmr5g_xml. cbv zeta. rewrite Hhead.
  split; [|split].
  - now intros ->.
  - intros s Hs. rewrite Hs. unfold ET_parse, read_text. now rewrite Hs.
  - now destruct (fs !! _).
Qed.

Lemma get_dmr5g_xml_offline_witness :
  (Scenario.empty_cache !! ("/cache/" +:+ "DMR5G-SJTSK.xml") = None ->
   get_dmr5g_xml Scenario.offline "/cache/" Scenario.empty_cache
   = (Raised NoXMLFileError, Scenario.empty_cache))
  /\ (forall s, Scenario.empty_cache !! ("/cache/" +:+ "DMR5G-SJTSK.xml") = Some (Text s) ->
        get_dmr5g_xml Scenario.offline "/cache/" Scenario.empty_cache
        = (match ET_entries Scenario.offline s with
           | Some root => Returned root
           | None => Raised ParseError
           end, Scenario.empty_cache))
  /\ snd (get_dmr5g_xml Scenario.offline "/cache/" Scenario.empty_cache)
     = Scenario.empty_cache.
Proof.
  apply (get_dmr5g_xml_offline Scenario.offline "/cache/" Scenario.empty_cache).
  reflexivity.
Defined.

(** X4.  With the header equal to the first line of the marker file and a
    catalogue in the cache, nothing is fetched and nothing is written: the
    entries are those of the cached document, whatever the state of the
    remote service. *)
Theorem get_dmr5g_xml_fresh (w : World) (cache_dir : string)
    (fs : gmap string FileContent) (xml_updated marker s : string) :
  head_last_modified w = Some xml_updated ->
  fs !! (cache_dir +:+ "DMR5G_last_modified.txt") = Some (Text marker) ->
  readline marker = xml_updated ->
  fs !! (cache_dir +:+ "DMR5G-SJTSK.xml") = Some (Text s) ->
  get_dmr5g_xml w cache_dir fs
  = (match ET_entries w s with
     | Some root => Returned root
     | None => Raised ParseError
     end, fs).
Proof.
  intros Hhead Hmarker Hline Hxml. unfold get_dmr5g_xml. cbv zeta.
  rewrite Hhead, Hmarker. unfold read_text at 1. rewrite Hmarker, Hline.
  rewrite String.eqb_refl. cbn [negb orb].
  rewrite Hxml. rewrite bool_decide_eq_true_2 by eauto. cbn [negb].
  unfold ET_parse, read_text. now rewrite Hxml.
Qed.

Lemma get_dmr5g_xml_fresh_witness :
  get_dmr5g_xml Scenario.header_only "/cache/" Scenario.loaded_cache
  = (match ET_entries Scenario.header_only Scenario.catalogue_text with
     | Some root => Returned root
     | None => Raised ParseError
     end, Scenario.loaded_cache).
Proof.
  apply (get_dmr5g_xml_fresh Scenario.header_only "/cache/" Scenario.loaded_cache
           "Tue, 03 Nov 2026 08:00:00 GMT" "Tue, 03 Nov 2026 08:00:00 GMT"
           Scenario.catalogue_text); reflexivity.
Defined.

(** X5.  With a header that the marker file does not confirm (no marker file,
    or another first line) or without a catalogue in the cache, the
    catalogue is fetched.  If the connection fails, or the document is not
    well-formed, the exception is raised and the cache is as it was;
    otherwise the document and the header are written and the entries of
    the document returned. *)
Theorem get_dmr5g_xml_refresh (w : World) (cache_dir : string)
    (fs : gmap string FileContent) (xml_updated : string) :
  head_last_modified w = Some xml_updated ->
  (fs !! (cache_dir +:+ "DMR5G_last_modified.txt") = None
   \/ (exists marker, fs !! (cache_dir +:+ "DMR5G_last_modified.txt") = Some (Text marker)
                      /\ (readline marker <> xml_updated
                          \/ fs !! (cache_dir +:+ "DMR5G-SJTSK.xml") = None))) ->
  get_dmr5g_xml w cache_dir fs
  = match urlopen (world_net w) xml_url with
    | None => (Raised (Uncaught URLError), fs)
    | Some xml_data =>
        match ET_entries w xml_data with
        | None => (Raised ParseError, fs)
        | Some root =>
            (Returned root,
             <[cache_dir +:+ "DMR5G_last_modified.txt" := Text xml_updated]>
               (<[cache_dir +:+ "DMR5G-SJTSK.xml" := Text xml_data]> fs))
        end
    end.
Proof.
  intros Hhead Hstale. unfold get_dmr5g_xml. cbv zeta. rewrite Hhead.
  assert (Hfetch :
    match fs !! (cache_dir +:+ "DMR5G_last_modified.txt") with
    | Some _ =>
        match read_text fs (cache_dir +:+ "DMR5G_last_modified.txt") with
        | Returned content =>
            Returned (E := CatalogueError)
              (negb (String.eqb (readline content) xml_updated))
        | Raised e => Raised e
        end
    | None => Returned true
    end = Returned true
    \/ (match fs !! (cache_dir +:+ "DMR5G_last_modified.txt") with
        | Some _ =>
            match read_text fs (cache_dir +:+ "DMR5G_last_modified.txt") with
            | Returned content =>
                Returned (E := CatalogueError)
                  (negb (String.eqb (readline content) xml_updated))
            | Raised e => Raised e
            end
        | None => Returned true
        end = Returned false
        /\ fs !! (cache_dir +:+ "DMR5G-SJTSK.xml") = None)).
  { destruct Hstale as [Hnone | (marker & Hmarker & [Hline | Hxml])].
    - left. now rewrite Hnone.
    - left. unfold read_text. rewrite Hmarker.
      destruct (String.eqb_spec (readline marker) xml_updated); [contradiction | reflexivity].
    - unfold read_text. rewrite Hmarker.
      destruct (String.eqb (readline marker) xml_updated); [right | left]; now split. }
  destruct Hfetch as [-> | [-> Hxml]].
  - cbn [orb]. unfold open_url. now destruct (urlopen _ _).
  - rewrite Hxml. rewrite bool_decide_eq_false_2 by (intros [? ?]; discriminate).
    cbn [orb negb]. unfold open_url. now destruct (urlopen _ _).
Qed.

Lemma get_dmr5g_xml_refresh_witness :
  get_dmr5g_xml Scenario.online "/cache/" Scenario.empty_cache
  = match urlopen (world_net Scenario.online) xml_url with
    | None => (Raised (Uncaught URLError), Scenario.empty_cache)
    | Some xml_data =>
        match ET_entries Scenario.online xml_data with
        | None => (Raised ParseError, Scenario.empty_cache)
        | Some root =>
            (Returned root,
             <["/cache/" +:+ "DMR5G_last_modified.txt" := Text "Tue, 03 Nov 2026 08:00:00 GMT"]>
               (<["/cache/" +:+ "DMR5G-SJTSK.xml" := Text xml_data]> Scenario.empty_cache))
        end
    end.
Proof.
  apply (get_dmr5g_xml_refresh Scenario.online "/cache/" Scenario.empty_cache
           "Tue, 03 Nov 2026 08:00:00 GMT").
  - reflexivity.
  - left. reflexivity.
Defined.

(** Either the call raises and leaves the cache as it was; or it parses
    the cached catalogue, without a look at the remote catalogue; or it has
    fetched a well-formed document, returned its entries and written the
    document and the header. *)
Lemma get_dmr5g_xml_cases (w : World) (cache_dir : string)
    (fs : gmap string FileContent) :
  (snd (get_dmr5g_xml w cache_dir fs) = fs
   /\ exists e, fst (get_dmr5g_xml w cache_dir fs) = Raised e)
  \/ (forall w', head_last_modified w' = head_last_modified w ->
                 get_dmr5g_xml w' cache_dir fs
                 = (ET_parse w' fs (cache_dir +:+ "DMR5G-SJTSK.xml"), fs))
  \/ exists xml_updated xml_data root,
       head_last_modified w = Some xml_updated
       /\ ET_entries w xml_data = Some root
       /\ get_dmr5g_xml w cache_dir fs
          = (Returned root,
             <[cache_dir +:+ "DMR5G_last_modified.txt" := Text xml_updated]>
               (<[cache_dir +:+ "DMR5G-SJTSK.xml" := Text xml_data]> fs)).
Proof.
  unfold get_dmr5g_xml. cbv zeta.
  destruct (head_last_modified w) as [xml_updated|].
  2:{ destruct (fs !! (cache_dir +:+ "DMR5G-SJTSK.xml")) eqn:E.
      - right. left. intros w' Hw'. now rewrite Hw'.
      - left. cbn [fst snd]. eauto. }
  match goal with
  | |- context [match ?f with Returned _ => _ | Raised _ => _ end] =>
      destruct f as [fetch|e] eqn:Hf
  end; [|left; cbn [fst snd]; eauto].
  destruct (fetch || _) eqn:Hb.
  2:{ right. left. intros w' Hw'. rewrite Hw'. now rewrite Hf, Hb. }
  destruct (open_url _ _) as [xml_data|e]; [|left; cbn [fst snd]; eauto].
  destruct (ET_entries w xml_data) as [root|] eqn:Hroot; [|left; cbn [fst snd]; eauto].
  right. right. exists xml_updated, xml_data, root. auto.
Qed.

Lemma ET_parse_returns (w : World) (fs : gmap string FileContent) (path : string)
    (root : list Entry) :
  ET_parse w fs path = Returned root ->
  exists s, fs !! path = Some (Text s) /\ ET_entries w s = Some root.
Proof.
  unfold ET_parse, read_text.
  destruct (fs !! path) as [[| | |s]|]; try discriminate.
  destruct (ET_entries w s) as [r|] eqn:E; [|discriminate].
  intros [= <-]. eauto.
Qed.

(** When the call returns, the catalogue file of the cache holds a
    document whose entries are the ones returned. *)
Lemma get_dmr5g_xml_returned_cached (w : World) (cache_dir : string)
    (fs : gmap string FileContent) (root : list Entry) :
  fst (get_dmr5g_xml w cache_dir fs) = Returned root ->
  exists s,
    snd (get_dmr5g_xml w cache_dir fs) !! (cache_dir +:+ "DMR5G-SJTSK.xml")
    = Some (Text s)
    /\ ET_entries w s = Some root.
Proof.
  destruct (get_dmr5g_xml_cases w cache_dir fs)
    as [[Hsame [e He]] | [Hcached | (t & data & r & Hhead & Hroot & Hcall)]].
  - congruence.
  - rewrite (Hcached w eq_refl). cbn [fst snd]. apply ET_parse_returns.
  - rewrite Hcall. cbn [fst snd]. intros [= <-]. exists data. split; [|exact Hroot].
    rewrite lookup_insert_ne by (apply not_eq_sym, cache_paths_differ).
    apply lookup_insert_eq.
Qed.

(** X6.  What the cache is like after a call: a call that raises has written
    nothing; no call touches a file other than the catalogue and the
    marker; and when the call returns, the catalogue file of the cache
    holds a document whose entries are the ones returned. *)
Theorem get_dmr5g_xml_cache_invariant (w : World) (cache_dir : string)
    (fs : gmap string FileContent) :
  (forall e, fst (get_dmr5g_xml w cache_dir fs) = Raised e ->
             snd (get_dmr5g_xml w cache_dir fs) = fs)
  /\ (forall path,
        path <> cache_dir +:+ "DMR5G-SJTSK.xml" ->
        path <> cache_dir +:+ "DMR5G_last_modified.txt" ->
        snd (get_dmr5g_xml w cache_dir fs) !! path = fs !! path)
  /\ (forall root, fst (get_dmr5g_xml w cache_dir fs) = Returned root ->
        exists s,
          snd (get_dmr5g_xml w cache_dir fs) !! (cache_dir +:+ "DMR5G-SJTSK.xml")
          = Some (Text s)
          /\ ET_entries w s = Some root).
Proof.
  destruct (get_dmr5g_xml_cases w cache_dir fs)
    as [[Hsame [e He]] | [Hcached | (t & data & root & Hhead & Hroot & Hcall)]].
  - split; [auto|]. split; [intros; now rewrite Hsame|]. congruence.
  - rewrite (Hcached w eq_refl). cbn [fst snd].
    split; [auto|]. split; [auto|]. apply ET_parse_returns.
  - rewrite Hcall. cbn [fst snd]. split; [discriminate|]. split.
    + intros path H1 H2. now rewrite lookup_insert_ne, lookup_insert_ne by congruence.
    + intros r [= <-]. exists data. split; [|exact Hroot].
      rewrite lookup_insert_ne by (apply not_eq_sym, cache_paths_differ).
      apply lookup_insert_eq.
Qed.

(** X7.  A catalogue that a call returned is the one that the next calls
    return from the cache it left: without a connection, whatever the
    header was, and with the same header (if it is a single line), without
    another fetch.  Those calls write nothing.  ([ET.parse] of the cached
    file is taken to find the entries that [ET.fromstring] found in the
    text that was written to it.) *)
Theorem get_dmr5g_xml_reload (w : World) (cache_dir : string)
    (fs fs' : gmap string FileContent) (root : list Entry) :
  get_dmr5g_xml w cache_dir fs = (Returned root, fs') ->
  (forall w', head_last_modified w' = None -> ET_entries w' = ET_entries w ->
              get_dmr5g_xml w' cache_dir fs' = (Returned root, fs'))
  /\ (forall xml_updated, head_last_modified w = Some xml_updated ->
        readline xml_updated = xml_updated ->
        forall w', head_last_modified w' = Some xml_updated ->
                   ET_entries w' = ET_entries w ->
                   get_dmr5g_xml w' cache_dir fs' = (Returned root, fs')).
Proof.
  intros Hcall.
  pose proof (get_dmr5g_xml_returned_cached w cache_dir fs root) as Hinv.
  rewrite Hcall in Hinv. cbn [fst snd] in Hinv.
  destruct (Hinv eq_refl) as (s & Hs & Hroot).
  assert (Hparsed : forall w', ET_entries w' = ET_entries w ->
            ET_parse w' fs' (cache_dir +:+ "DMR5G-SJTSK.xml") = Returned root).
  { intros w' Hparse. unfold ET_parse, read_text. now rewrite Hs, Hparse, Hroot. }
  split.
  - intros w' Hhead Hparse. unfold get_dmr5g_xml. cbv zeta.
    now rewrite Hhead, Hs, Hparsed.
  - intros t Hhead Hline w' Hhead' Hparse.
    destruct (get_dmr5g_xml_cases w cache_dir fs)
      as [[_ [e He]] | [Hcached | (t' & data & root' & Hhead2 & Hroot2 & Hcall2)]].
    + rewrite Hcall in He. discriminate.
    + (* nothing was fetched: the marker already confirmed the header *)
      rewrite (Hcached w eq_refl) in Hcall. injection Hcall as _ <-.
      rewrite (Hcached w') by congruence. now rewrite Hparsed.
    + rewrite Hcall in Hcall2. injection Hcall2 as -> ->.
      rewrite Hhead in Hhead2. injection Hhead2 as <-.
      unfold get_dmr5g_xml. cbv zeta. rewrite Hhead'.
      rewrite lookup_insert_eq. unfold read_text at 1.
      rewrite lookup_insert_eq, Hline, String.eqb_refl. cbn [negb orb].
      rewrite Hs, bool_decide_eq_true_2 by eauto. cbn [negb].
      now rewrite Hparsed.
Qed.

Lemma get_dmr5g_xml_reload_witness :
  (forall w', head_last_modified w' = None ->
              ET_entries w' = ET_entries Scenario.online ->
              get_dmr5g_xml w' "/cache/" Scenario.loaded_cache
              = (Returned Example.catalogue, Scenario.loaded_cache))
  /\ (forall xml_updated, head_last_modified Scenario.online = Some xml_updated ->
        readline xml_updated = xml_updated ->
        forall w', head_last_modified w' = Some xml_updated ->
                   ET_entries w' = ET_entries Scenario.online ->
                   get_dmr5g_xml w' "/cache/" Scenario.loaded_cache
                   = (Returned Example.catalogue, Scenario.loaded_cache)).
Proof.
  apply (get_dmr5g_xml_reload Scenario.online "/cache/" Scenario.empty_cache
           Scenario.loaded_cache Example.catalogue).
  reflexivity.
Defined.

(** ** The parser that the constructor returns *)

Lemma index_entries_boxes (entries : list Entry) (i : Z) :
  forallb entry_ok entries = true ->
  Forall (fun e : Z * Box => let '(left_, bottom_, right_, top_) := snd e in
                             left_ <= right_ /\ (left_ == right_ -> bottom_ <= top_))
         (index_entries i entries).
Proof.
  revert i. induction entries as [|entry entries IH]; intros i Hok; [constructor|].
  cbn [forallb] in Hok. apply andb_true_iff in Hok as [Hentry Hok].
  cbn [index_entries]. constructor; [|now apply IH].
  cbn [snd]. now apply entry_ok_box.
Qed.

(** X8.  Every parser that [Dmr5gParser(cache_dir)] returns is well formed:
    [n] is the number of entries of the catalogue that [get_dmr5g_xml]
    returned, there are [n] polygons and [n] boxes in the index, numbered
    from 0 in the order of the document, each polygon has three vertices at
    least, and each box has its left side not right of its right side and,
    when the two coincide, its bottom not above its top (with the left
    side left of the right one the R-tree stores a box whatever its bottom
    and top are).  The cache is the one that [get_dmr5g_xml] left. *)
Theorem Dmr5gParser_new_invariant (w : World) (dir : string)
    (fs fs' : gmap string FileContent) (self : Dmr5gParser) :
  Dmr5gParser_new w dir fs = (Returned self, fs') ->
  get_dmr5g_xml w dir fs = (Returned (root self), fs')
  /\ cache_dir self = dir
  /\ n self = Z.of_nat (length (root self))
  /\ length (tile_polygons self) = length (root self)
  /\ map fst (tile_idx self) = map Z.of_nat (seq 0 (length (root self)))
  /\ Forall (fun tile : list point => (3 <= length tile)%nat) (tile_polygons self)
  /\ Forall (fun e : Z * Box => let '(left_, bottom_, right_, top_) := snd e in
                                left_ <= right_ /\ (left_ == right_ -> bottom_ <= top_))
            (tile_idx self).
Proof.
  unfold Dmr5gParser_new.
  destruct (get_dmr5g_xml w dir fs) as [[entries|e] fs1]; [|discriminate].
  destruct (Dmr5gParser_init dir entries) as [self'|e] eqn:Hinit; [|discriminate].
  intros [= <- <-]. apply Dmr5gParser_init_spec in Hinit as [Hok ->].
  cbn [root cache_dir n tile_polygons tile_idx].
  split; [reflexivity|]. split; [reflexivity|]. split; [reflexivity|].
  split; [apply length_map|]. split.
  { rewrite index_entries_ids. apply map_ext. intros k. lia. }
  split; [|now apply index_entries_boxes].
  apply List.Forall_forall. intros tile Htile.
  apply in_map_iff in Htile as (entry & <- & Hentry).
  apply entry_ok_vertices. rewrite forallb_forall in Hok. now apply Hok.
Qed.

Lemma Dmr5gParser_new_invariant_witness :
  get_dmr5g_xml Scenario.online "/cache/" Scenario.empty_cache
  = (Returned (root Example.parser), Scenario.loaded_cache)
  /\ cache_dir Example.parser = "/cache/"
  /\ n Example.parser = Z.of_nat (length (root Example.parser))
  /\ length (tile_polygons Example.parser) = length (root Example.parser)
  /\ map fst (tile_idx Example.parser)
     = map Z.of_nat (seq 0 (length (root Example.parser)))
  /\ Forall (fun tile : list point => (3 <= length tile)%nat)
            (tile_polygons Example.parser)
  /\ Forall (fun e : Z * Box => let '(left_, bottom_, right_, top_) := snd e in
                                left_ <= right_ /\ (left_ == right_ -> bottom_ <= top_))
            (tile_idx Example.parser).
Proof.
  apply (Dmr5gParser_new_invariant Scenario.online "/cache/" Scenario.empty_cache
           Scenario.loaded_cache Example.parser).
  reflexivity.
Defined.

(** X9.  The constructor returns only when [get_dmr5g_xml] has returned a
    catalogue whose entries all have an even number of floats, five at
    least, and the longitude of the first vertex below that of the second,
    or equal to it with the latitude of the first vertex not above that of
    the third.  Whether it returns or raises, the cache is as
    [get_dmr5g_xml] left it: a catalogue that was fetched and that
    [get_tiles] then refuses has been written to the cache all the same. *)
Theorem Dmr5gParser_new_returns_only_if (w : World) (dir : string)
    (fs : gmap string FileContent) :
  (forall self, fst (Dmr5gParser_new w dir fs) = Returned self ->
     fst (get_dmr5g_xml w dir fs) = Returned (root self)
     /\ Forall (fun entry =>
                  let float_list := entry_polygon entry in
                  Nat.Even (length float_list) /\ (5 <= length float_list)%nat
                  /\ (nth 1 float_list 0 < nth 3 float_list 0
                      \/ (nth 1 float_list 0 == nth 3 float_list 0
                          /\ nth 0 float_list 0 <= nth 4 float_list 0)))
               (root self))
  /\ snd (Dmr5gParser_new w dir fs) = snd (get_dmr5g_xml w dir fs).
Proof.
  unfold Dmr5gParser_new.
  destruct (get_dmr5g_xml w dir fs) as [[entries|e] fs1]; cbn [fst snd].
  - destruct (Dmr5gParser_init dir entries) as [self'|e] eqn:Hinit; cbn [fst snd].
    + split; [|reflexivity].
      intros self [= <-]. apply Dmr5gParser_init_spec in Hinit as [Hok ->].
      cbn [root]. split; [reflexivity|].
      apply List.Forall_forall. intros entry Hentry.
      rewrite forallb_forall in Hok. specialize (Hok entry Hentry).
      unfold entry_ok in Hok. cbv zeta in Hok |- *.
      apply andb_true_iff in Hok as [Hok Hbox].
      apply andb_true_iff in Hok as [Heven Hlen].
      split; [now apply Nat.even_spec|]. split; [now apply Nat.leb_le|].
      now apply list_le2_iff.
    + split; [intros self; discriminate | reflexivity].
  - split; [intros self; discriminate | reflexivity].
Qed.

(** ** Looking an entry up by its ordinal, again *)

Lemma get_tile_reported (dir : string) (entries : list Entry) (self : Dmr5gParser) (id : Z) :
  Dmr5gParser_init dir entries = Ok self ->
  (0 <= id < n self)%Z ->
  exists entry, entries !! Z.to_nat id = Some entry
                /\ get_tile self id = Ok (reported_footprint (entry_polygon entry)).
Proof.
  intros Hinit Hid. rewrite get_tile_in_range by exact Hid.
  apply Dmr5gParser_init_spec in Hinit as [_ ->]. cbn [tile_polygons n] in *.
  destruct (entries !! Z.to_nat id) as [entry|] eqn:E.
  - exists entry. split; [reflexivity|]. now rewrite list_lookup_fmap, E.
  - apply lookup_ge_None_1 in E. lia.
Qed.


Lemma enumerate_find_lookup (field : Entry -> option string) (entries : list Entry) (id : Z) :
  enumerate_find field entries 0 id
  = if (id <? 0)%Z then None else entries !! Z.to_nat id ≫= field.
Proof.
  destruct (id <? 0)%Z eqn:E.
  - apply Z.ltb_lt in E. apply enumerate_find_none. lia.
  - apply Z.ltb_ge in E. destruct (entries !! Z.to_nat id) as [entry|] eqn:Hk.
    + pose proof (enumerate_find_some field entries 0 (Z.to_nat id) entry Hk) as H.
      replace (0 + Z.of_nat (Z.to_nat id))%Z with id in H by lia. exact H.
    + apply lookup_ge_None_1 in Hk. apply enumerate_find_none. lia.
Qed.

(** X10.  [get_tile_xml] and [get_tile_update_date] give the [.text] of the
    element of the entry of that ordinal, which is [None] for an element
    without text, and [None] for every ordinal that is negative or past
    the last entry.  A negative ordinal does not count from the end, as it
    does in [get_tile]: for [-n <= id < 0], [get_tile] returns the polygon
    of entry [n + id] where these two return [None]. *)
Theorem get_tile_xml_lookup (dir : string) (entries : list Entry)
    (self : Dmr5gParser) (id : Z) :
  Dmr5gParser_init dir entries = Ok self ->
  get_tile_xml self id
  = (if (id <? 0)%Z then None else entries !! Z.to_nat id ≫= entry_id)
  /\ get_tile_update_date self id
     = (if (id <? 0)%Z then None else entries !! Z.to_nat id ≫= entry_updated)
  /\ ((- n self <= id < 0)%Z ->
      get_tile_xml self id = None
      /\ get_tile_update_date self id = None
      /\ exists entry, entries !! Z.to_nat (n self + id) = Some entry
                       /\ get_tile self id = Ok (reported_footprint (entry_polygon entry))).
Proof.
  intros Hinit. pose proof Hinit as Hspec.
  apply Dmr5gParser_init_spec in Hspec as [_ Hself].
  assert (Hroot : root self = entries) by now rewrite Hself.
  assert (Hn : n self = Z.of_nat (length entries)) by now rewrite Hself.
  unfold get_tile_xml, get_tile_update_date. rewrite Hroot, !enumerate_find_lookup.
  split; [reflexivity|]. split; [reflexivity|].
  intros Hid. destruct (id <? 0)%Z eqn:E; [|apply Z.ltb_ge in E; lia].
  split; [reflexivity|]. split; [reflexivity|].
  rewrite (get_tile_negative dir entries self id Hinit) by lia.
  destruct (id <? - n self)%Z eqn:E2; [apply Z.ltb_lt in E2; lia|].
  apply (get_tile_reported dir entries self (n self + id) Hinit). lia.
Qed.

Lemma get_tile_xml_lookup_witness :
  get_tile_xml Example.parser (-1)
  = (if (-1 <? 0)%Z then None else Example.catalogue !! Z.to_nat (-1) ≫= entry_id)
  /\ get_tile_update_date Example.parser (-1)
     = (if (-1 <? 0)%Z then None
        else Example.catalogue !! Z.to_nat (-1) ≫= entry_updated)
  /\ ((- n Example.parser <= -1 < 0)%Z ->
      get_tile_xml Example.parser (-1) = None
      /\ get_tile_update_date Example.parser (-1) = None
      /\ exists entry, Example.catalogue !! Z.to_nat (n Example.parser + -1) = Some entry
                       /\ get_tile Example.parser (-1)
                          = Ok (reported_footprint (entry_polygon entry))).
Proof.
  apply (get_tile_xml_lookup "/cache/" Example.catalogue Example.parser (-1)).
  reflexivity.
Defined.

(** An entry whose [atom:id] element has no text: within the catalogue,
    [get_tile_xml] returns [None] and [get_tile_code] raises. *)
Example get_tile_xml_empty_element :
  let self := mkParser "" [mkEntry None (Some "2020-01-01T00:00:00") []] 1 [] [] in
  get_tile_xml self 0 = None
  /\ get_tile_update_date self 0 = Some "2020-01-01T00:00:00"
  /\ get_tile_code self 0 = Raise AttributeError.
Proof. repeat split; reflexivity. Qed.

(** ** The code of a tile *)

Lemma string_length_append (a b : string) :
  String.length (a +:+ b) = (String.length a + String.length b)%nat.
Proof.
  induction a as [|c a IH]; [reflexivity|].
  change (String c a +:+ b) with (String c (a +:+ b)).
  cbn [String.length]. now rewrite IH.
Qed.

Lemma substring_append_skip (p s : string) (k m : nat) :
  String.substring (String.length p + k) m (p +:+ s) = String.substring k m s.
Proof. induction p as [|c p IH]; [reflexivity|]. exact IH. Qed.

Lemma substring_append_prefix (a b : string) :
  String.substring 0 (String.length a) (a +:+ b) = a.
Proof.
  induction a as [|c a IH].
  - change ("" +:+ b) with b. now destruct b.
  - change (String c a +:+ b) with (String c (a +:+ b)).
    cbn [String.length String.substring]. now rewrite IH.
Qed.

(** X11.  For an entry whose [atom:id] element has a text, the locator,
    the code is what stands between the first "CUZK_DMR5G-SJTSK_" of the
    locator and its last four characters.  When the locator does not hold
    "CUZK_DMR5G-SJTSK_" at all, nothing is raised: [find] gives -1 and the
    code is the locator from its character 16 to the last four.  For an
    entry whose [atom:id] element has no text, [get_tile_code] raises the
    [AttributeError] of [None.find]. *)
Theorem get_tile_code_extracts (self : Dmr5gParser) (k : nat) (entry : Entry) :
  root self !! k = Some entry ->
  (forall locator prefix code ext,
      entry_id entry = Some locator ->
      locator = prefix +:+ "CUZK_DMR5G-SJTSK_" +:+ code +:+ ext ->
      String.length ext = 4%nat ->
      str_find locator "CUZK_DMR5G-SJTSK_" = Z.of_nat (String.length prefix) ->
      get_tile_code self (Z.of_nat k) = Ok code)
  /\ (forall locator,
        entry_id entry = Some locator ->
        str_find locator "CUZK_DMR5G-SJTSK_" = (-1)%Z ->
        get_tile_code self (Z.of_nat k) = Ok (str_slice locator 16 (-4)))
  /\ (entry_id entry = None -> get_tile_code self (Z.of_nat k) = Raise AttributeError).
Proof.
  intros Hk. destruct (lookups_in_range self k entry Hk) as [Hxml _].
  unfold get_tile_code. rewrite Hxml. split; [|split].
  - intros locator prefix code ext -> Hurl Hext Hfind. rewrite Hfind. f_equal.
    unfold str_slice. cbv zeta. rewrite Hurl.
    rewrite !string_length_append, Hext.
    change (String.length "CUZK_DMR5G-SJTSK_") with 17%nat.
    destruct (-4 <? 0)%Z eqn:E; [|discriminate].
    rewrite Z.max_r, Z.min_r by lia.
    replace (Z.to_nat (Z.of_nat (String.length prefix) + Z.of_nat 17))
      with (String.length prefix + 17)%nat by lia.
    replace (Z.to_nat (Z.of_nat (String.length prefix + (17 + (String.length code + 4))) + -4
                       - (Z.of_nat (String.length prefix) + Z.of_nat 17)))
      with (String.length code) by lia.
    rewrite substring_append_skip.
    change 17%nat with (String.length "CUZK_DMR5G-SJTSK_" + 0)%nat.
    rewrite substring_append_skip. apply substring_append_prefix.
  - intros locator -> Hfind. now rewrite Hfind.
  - now intros ->.
Qed.

Lemma get_tile_code_extracts_witness :
  (forall locator prefix code ext,
      Some "https://atom.cuzk.cz/DMR5G-SJTSK/datasetFeeds/CZ-00025712-CUZK_DMR5G-SJTSK_TILE01.xml"
      = Some locator ->
      locator = prefix +:+ "CUZK_DMR5G-SJTSK_" +:+ code +:+ ext ->
      String.length ext = 4%nat ->
      str_find locator "CUZK_DMR5G-SJTSK_" = Z.of_nat (String.length prefix) ->
      get_tile_code Example.parser (Z.of_nat 1) = Ok code)
  /\ (forall locator,
        Some "https://atom.cuzk.cz/DMR5G-SJTSK/datasetFeeds/CZ-00025712-CUZK_DMR5G-SJTSK_TILE01.xml"
        = Some locator ->
        str_find locator "CUZK_DMR5G-SJTSK_" = (-1)%Z ->
        get_tile_code Example.parser (Z.of_nat 1) = Ok (str_slice locator 16 (-4)))
  /\ (Some "https://atom.cuzk.cz/DMR5G-SJTSK/datasetFeeds/CZ-00025712-CUZK_DMR5G-SJTSK_TILE01.xml"
      = None ->
      get_tile_code Example.parser (Z.of_nat 1) = Raise AttributeError).
Proof.
  apply (get_tile_code_extracts Example.parser 1
           (mkEntry (Some "https://atom.cuzk.cz/DMR5G-SJTSK/datasetFeeds/CZ-00025712-CUZK_DMR5G-SJTSK_TILE01.xml")
              (Some "2021-06-01T00:00:00") (rectangle_footprint 0 (24 # 10) 2 (51 # 10)))).
  reflexivity.
Defined.

(** The code of tile 1 of the example, and the code read off a locator
    that does not follow the pattern. *)
Example get_tile_code_samples :
  get_tile_code Example.parser 1 = Ok "TILE01"
  /\ get_tile_code Example.clockwise_parser 0 = Ok "TURN00"
  /\ get_tile_code (mkParser "" [mkEntry (Some "https://example.org/some/other/locator.xml")
                                  (Some "") []] 1 [] []) 0
     = Ok "org/some/other/locator".
Proof. repeat split; reflexivity. Qed.

(** ** Downloading a tile *)

Lemma last_char_append (a b : string) :
  b <> EmptyString -> last_char (a +:+ b) = last_char b.
Proof.
  intros Hb. induction a as [|c a IH]; [reflexivity|].
  change (String c a +:+ b) with (String c (a +:+ b)).
  cbn [last_char]. destruct (a +:+ b) eqn:E; [|exact IH].
  destruct a; [|discriminate]. now destruct b.
Qed.

(** The manifest is neither the archive nor the data file of a tile. *)
Lemma manifest_path_differs (dir code : string) :
  dir +:+ "update_dates.json" <> dir +:+ code +:+ ".zip"
  /\ dir +:+ "update_dates.json" <> dir +:+ code +:+ ".laz".
Proof.
  split; intros E; apply append_cancel_l in E;
    apply (f_equal last_char) in E; rewrite last_char_append in E; discriminate.
Qed.

Lemma archive_path_differs (dir code : string) :
  dir +:+ code +:+ ".zip" <> dir +:+ code +:+ ".laz".
Proof. intros E. do 2 apply append_cancel_l in E. discriminate. Qed.

(** The manifest that [json.load] reads is the one of the cache: storing
    the archive and creating an empty manifest do not change it. *)
Lemma load_update_dict_stored (fs : gmap string FileContent) (manifest zip_fn : string)
    (archive : FileContent) :
  manifest <> zip_fn ->
  load_update_dict
    (match <[zip_fn := archive]> fs !! manifest with
     | Some _ => <[zip_fn := archive]> fs
     | None => <[manifest := Text ""]> (<[zip_fn := archive]> fs)
     end) manifest
  = load_update_dict fs manifest.
Proof.
  intros Hne. unfold load_update_dict.
  assert (E : <[zip_fn := archive]> fs !! manifest = fs !! manifest)
    by now rewrite lookup_insert_ne by congruence.
  destruct (<[zip_fn := archive]> fs !! manifest) as [c|] eqn:E1.
  - now rewrite E1, <- E.
  - rewrite lookup_insert_eq. now rewrite <- E.
Qed.

(** The cache after a download that succeeds, in one expression. *)
Lemma download_tile_success_eq {U : Unpacker} (net : Network) (self : Dmr5gParser) (id : Z)
    (fs : gmap string FileContent) (tile_zip tile_code file_name data : string)
    (members : list (string * string)) (update_dict : gmap string JsonValue) :
  get_tile_zip net self id = Ok tile_zip ->
  get_tile_code self id = Ok tile_code ->
  urlretrieve net tile_zip = Some (ZipArchive ((file_name, data) :: members)) ->
  load_update_dict fs (cache_dir self +:+ "update_dates.json") = Some update_dict ->
  extract_target (cache_dir self) file_name = cache_dir self +:+ file_name ->
  download_tile net self id fs
  = (Ok (Some (cache_dir self +:+ tile_code +:+ ".laz")),
     <[cache_dir self +:+ tile_code +:+ ".laz" := Text data]>
       (delete (cache_dir self +:+ file_name)
          (<[cache_dir self +:+ file_name := Text data]>
             (<[cache_dir self +:+ "update_dates.json" :=
                  JsonObject (<[tile_code := json_of_date (get_tile_update_date self id)]>
                                update_dict)]>
                (<[cache_dir self +:+ tile_code +:+ ".zip" :=
                     ZipArchive ((file_name, data) :: members)]> fs))))).
Proof.
  intros Hzip Hcode Hget Hdict Hext.
  destruct (manifest_path_differs (cache_dir self) tile_code) as [Hmz Hml].
  unfold download_tile. rewrite Hzip, Hcode, Hget. cbv zeta.
  rewrite load_update_dict_stored by exact Hmz. rewrite Hdict, Hext.
  rewrite lookup_insert_eq. do 4 f_equal.
  destruct (_ !! _); [reflexivity | apply insert_insert_eq].
Qed.

(** X12.  A download that succeeds.  When the descriptor resolves to an
    archive whose first member is called neither "update_dates.json" nor
    as the archive itself and is extracted to [cache_dir + file_name], the
    path that [os.rename] is given, and the manifest of the cache is not a
    JSON document of another value than an object, [download_tile]
    returns the path of the data file, named after the code of the tile;
    that file holds the first member of the archive; the manifest is the
    one of the cache (empty when the cache had none, or one that is no
    JSON document) with the code bound to the update date of the
    catalogue, its other entries kept; the extracted file is gone; and no
    file other than the archive, the manifest, the extracted member and
    the data file is touched. *)
Theorem download_tile_success_state {U : Unpacker} (net : Network) (self : Dmr5gParser)
    (id : Z) (fs : gmap string FileContent) (tile_zip tile_code file_name data : string)
    (members : list (string * string)) (update_dict : gmap string JsonValue) :
  get_tile_zip net self id = Ok tile_zip ->
  get_tile_code self id = Ok tile_code ->
  urlretrieve net tile_zip = Some (ZipArchive ((file_name, data) :: members)) ->
  load_update_dict fs (cache_dir self +:+ "update_dates.json") = Some update_dict ->
  extract_target (cache_dir self) file_name = cache_dir self +:+ file_name ->
  file_name <> "update_dates.json" ->
  file_name <> tile_code +:+ ".zip" ->
  let result := download_tile net self id fs in
  let manifest := cache_dir self +:+ "update_dates.json" in
  let tile_laz_fn := cache_dir self +:+ tile_code +:+ ".laz" in
  fst result = Ok (Some tile_laz_fn)
  /\ snd result !! tile_laz_fn = Some (Text data)
  /\ snd result !! manifest
     = Some (JsonObject (<[tile_code := json_of_date (get_tile_update_date self id)]>
                           update_dict))
  /\ (cache_dir self +:+ file_name <> tile_laz_fn ->
      snd result !! (cache_dir self +:+ file_name) = None)
  /\ (forall path,
        path <> cache_dir self +:+ tile_code +:+ ".zip" ->
        path <> manifest ->
        path <> cache_dir self +:+ file_name ->
        path <> tile_laz_fn ->
        snd result !! path = fs !! path).
Proof.
  intros Hzip Hcode Hget Hdict Hext Hname _. cbv zeta.
  destruct (manifest_path_differs (cache_dir self) tile_code) as [Hmz Hml].
  assert (Hme : cache_dir self +:+ "update_dates.json" <> cache_dir self +:+ file_name).
  { intros E. apply append_cancel_l in E. congruence. }
  rewrite (download_tile_success_eq net self id fs _ _ _ _ _ _ Hzip Hcode Hget Hdict Hext).
  cbn [fst snd].
  split; [reflexivity|]. split; [apply lookup_insert_eq|]. split; [|split].
  - rewrite lookup_insert_ne by congruence.
    rewrite lookup_delete_ne by congruence.
    rewrite lookup_insert_ne by congruence.
    apply lookup_insert_eq.
  - intros Hne. rewrite lookup_insert_ne by congruence. apply lookup_delete_eq.
  - intros path H1 H2 H3 H4.
    rewrite lookup_insert_ne by congruence.
    rewrite lookup_delete_ne by congruence.
    rewrite lookup_insert_ne by congruence.
    rewrite lookup_insert_ne by congruence.
    now rewrite lookup_insert_ne by congruence.
Qed.

Lemma download_tile_success_state_witness :
  let result := download_tile Example.net_up Example.parser 1 Example.cache in
  let manifest := cache_dir Example.parser +:+ "update_dates.json" in
  let tile_laz_fn := cache_dir Example.parser +:+ "TILE01" +:+ ".laz" in
  fst result = Ok (Some tile_laz_fn)
  /\ snd result !! tile_laz_fn = Some (Text "points")
  /\ snd result !! manifest
     = Some (JsonObject (<["TILE01" := json_of_date (get_tile_update_date Example.parser 1)]>
                           (<["TILE07" := Json_string "2019-05-05T00:00:00"]> ∅)))
  /\ (cache_dir Example.parser +:+ "TILE.laz" <> tile_laz_fn ->
      snd result !! (cache_dir Example.parser +:+ "TILE.laz") = None)
  /\ (forall path,
        path <> cache_dir Example.parser +:+ "TILE01" +:+ ".zip" ->
        path <> manifest ->
        path <> cache_dir Example.parser +:+ "TILE.laz" ->
        path <> tile_laz_fn ->
        snd result !! path = Example.cache !! path).
Proof.
  apply (download_tile_success_state Example.net_up Example.parser 1 Example.cache
           "https://openzu.cuzk.cz/TILE.zip" "TILE01" "TILE.laz" "points" []
           (<["TILE07" := Json_string "2019-05-05T00:00:00"]> ∅)).
  - reflexivity.
  - reflexivity.
  - reflexivity.
  - reflexivity.
  - reflexivity.
  - discriminate.
  - discriminate.
Defined.

(** X13.  Downloading the same tile a second time, the remote service being
    the same, returns the same path and leaves the cache exactly as the
    first download left it, when the first download succeeds as in X12. *)
Theorem download_tile_twice {U : Unpacker} (net : Network) (self : Dmr5gParser) (id : Z)
    (fs : gmap string FileContent) (tile_zip tile_code file_name data : string)
    (members : list (string * string)) (update_dict : gmap string JsonValue) :
  get_tile_zip net self id = Ok tile_zip ->
  get_tile_code self id = Ok tile_code ->
  urlretrieve net tile_zip = Some (ZipArchive ((file_name, data) :: members)) ->
  load_update_dict fs (cache_dir self +:+ "update_dates.json") = Some update_dict ->
  extract_target (cache_dir self) file_name = cache_dir self +:+ file_name ->
  file_name <> "update_dates.json" ->
  file_name <> tile_code +:+ ".zip" ->
  download_tile net self id (snd (download_tile net self id fs))
  = download_tile net self id fs.
Proof.
  intros Hzip Hcode Hget Hdict Hext Hname _.
  destruct (manifest_path_differs (cache_dir self) tile_code) as [Hmz Hml].
  pose proof (archive_path_differs (cache_dir self) tile_code) as Hzl.
  assert (Hme : cache_dir self +:+ "update_dates.json" <> cache_dir self +:+ file_name).
  { intros E. apply append_cancel_l in E. congruence. }
  rewrite (download_tile_success_eq net self id fs _ _ _ _ _ _ Hzip Hcode Hget Hdict Hext).
  cbn [snd].
  set (d := <[tile_code := json_of_date (get_tile_update_date self id)]> update_dict).
  match goal with
  | |- download_tile net self id ?x = _ => set (fs1 := x)
  end.
  assert (Hman : fs1 !! (cache_dir self +:+ "update_dates.json") = Some (JsonObject d)).
  { unfold fs1. rewrite lookup_insert_ne by congruence.
    rewrite lookup_delete_ne by congruence.
    rewrite lookup_insert_ne by congruence. apply lookup_insert_eq. }
  assert (Hdict1 : load_update_dict fs1 (cache_dir self +:+ "update_dates.json") = Some d).
  { unfold load_update_dict. now rewrite Hman. }
  rewrite (download_tile_success_eq net self id fs1 _ _ _ _ _ _ Hzip Hcode Hget Hdict1 Hext).
  assert (Hd : <[tile_code := json_of_date (get_tile_update_date self id)]> d = d)
    by (unfold d; apply insert_insert_eq).
  rewrite Hd.
  remember (cache_dir self +:+ "update_dates.json") as manifest eqn:Em.
  remember (cache_dir self +:+ tile_code +:+ ".laz") as laz eqn:El.
  remember (cache_dir self +:+ tile_code +:+ ".zip") as zip_fn eqn:Ez.
  remember (cache_dir self +:+ file_name) as extracted eqn:Ee.
  remember (ZipArchive ((file_name, data) :: members)) as archive eqn:Ea.
  f_equal. apply map_eq. intros path.
  destruct (decide (path = laz)) as [->|Nl].
  { unfold fs1. now rewrite !lookup_insert_eq. }
  rewrite lookup_insert_ne by congruence.
  destruct (decide (path = extracted)) as [->|Ne].
  { unfold fs1. rewrite lookup_delete_eq.
    rewrite lookup_insert_ne by congruence. now rewrite lookup_delete_eq. }
  rewrite lookup_delete_ne by congruence.
  rewrite lookup_insert_ne by congruence.
  destruct (decide (path = manifest)) as [->|Nm].
  { now rewrite lookup_insert_eq, Hman. }
  rewrite lookup_insert_ne by congruence.
  destruct (decide (path = zip_fn)) as [->|Nz].
  { rewrite lookup_insert_eq. unfold fs1.
    rewrite lookup_insert_ne by congruence.
    rewrite lookup_delete_ne by congruence.
    rewrite lookup_insert_ne by congruence.
    rewrite lookup_insert_ne by congruence. now rewrite lookup_insert_eq. }
  now rewrite lookup_insert_ne by congruence.
Qed.

Lemma download_tile_twice_witness :
  download_tile Example.net_up Example.parser 1
    (snd (download_tile Example.net_up Example.parser 1 Example.cache))
  = download_tile Example.net_up Example.parser 1 Example.cache.
Proof.
  apply (download_tile_twice Example.net_up Example.parser 1 Example.cache
           "https://openzu.cuzk.cz/TILE.zip" "TILE01" "TILE.laz" "points" []
           (<["TILE07" := Json_string "2019-05-05T00:00:00"]> ∅)).
  - reflexivity.
  - reflexivity.
  - reflexivity.
  - reflexivity.
  - reflexivity.
  - discriminate.
  - discriminate.
Defined.

(** X14.  A download that fails after the archive was fetched has already
    written to the cache.  An archive without a member raises the
    [IndexError] of [namelist()[0]] when the archive is stored and the
    manifest, if it was not a JSON document of another value than an
    object, already binds the code of the tile to its date, though no
    data file was written; a file that is not an archive raises
    [BadZipFile] and stays in the cache under the name of the archive, the
    rest of the cache being as it was. *)
Theorem download_tile_failed_archive {U : Unpacker} (net : Network) (self : Dmr5gParser)
    (id : Z) (fs : gmap string FileContent) (tile_zip tile_code : string) :
  get_tile_zip net self id = Ok tile_zip ->
  get_tile_code self id = Ok tile_code ->
  let result := download_tile net self id fs in
  let manifest := cache_dir self +:+ "update_dates.json" in
  let tile_zip_fn := cache_dir self +:+ tile_code +:+ ".zip" in
  let tile_laz_fn := cache_dir self +:+ tile_code +:+ ".laz" in
  (forall update_dict,
     urlretrieve net tile_zip = Some (ZipArchive []) ->
     load_update_dict fs manifest = Some update_dict ->
     fst result = Raise IndexError_sequence
     /\ snd result !! tile_zip_fn = Some (ZipArchive [])
     /\ snd result !! manifest
        = Some (JsonObject (<[tile_code := json_of_date (get_tile_update_date self id)]>
                              update_dict))
     /\ snd result !! tile_laz_fn = fs !! tile_laz_fn)
  /\ (forall s, urlretrieve net tile_zip = Some (Text s) ->
        result = (Raise BadZipFile, <[tile_zip_fn := Text s]> fs)).
Proof.
  intros Hzip Hcode. cbv zeta.
  destruct (manifest_path_differs (cache_dir self) tile_code) as [Hmz Hml].
  pose proof (archive_path_differs (cache_dir self) tile_code) as Hzl.
  unfold download_tile. rewrite Hzip, Hcode. cbv zeta.
  split.
  - intros update_dict -> Hdict.
    rewrite load_update_dict_stored by exact Hmz. rewrite Hdict. cbn [fst snd].
    remember (cache_dir self +:+ "update_dates.json") as manifest eqn:Em.
    remember (cache_dir self +:+ tile_code +:+ ".laz") as tile_laz_fn eqn:El.
    remember (cache_dir self +:+ tile_code +:+ ".zip") as zip_fn eqn:Ez.
    set (fs1 := <[zip_fn := ZipArchive []]> fs).
    split; [reflexivity|]. split; [|split].
    + rewrite lookup_insert_ne by congruence.
      destruct (fs1 !! manifest);
        [|rewrite lookup_insert_ne by congruence]; apply lookup_insert_eq.
    + apply lookup_insert_eq.
    + rewrite lookup_insert_ne by congruence.
      destruct (fs1 !! manifest);
        [|rewrite lookup_insert_ne by congruence];
        unfold fs1; now rewrite lookup_insert_ne by congruence.
  - now intros s ->.
Qed.

Lemma download_tile_failed_archive_witness :
  let net := mkNetwork (urlopen Example.net_up) (fun _ => Some (ZipArchive []))
                       (descriptor_archive Example.net_up) in
  let result := download_tile net Example.parser 1 Example.cache in
  let manifest := cache_dir Example.parser +:+ "update_dates.json" in
  let tile_zip_fn := cache_dir Example.parser +:+ "TILE01" +:+ ".zip" in
  let tile_laz_fn := cache_dir Example.parser +:+ "TILE01" +:+ ".laz" in
  (forall update_dict,
     urlretrieve net "https://openzu.cuzk.cz/TILE.zip" = Some (ZipArchive []) ->
     load_update_dict Example.cache manifest = Some update_dict ->
     fst result = Raise IndexError_sequence
     /\ snd result !! tile_zip_fn = Some (ZipArchive [])
     /\ snd result !! manifest
        = Some (JsonObject (<["TILE01" := json_of_date (get_tile_update_date Example.parser 1)]>
                              update_dict))
     /\ snd result !! tile_laz_fn = Example.cache !! tile_laz_fn)
  /\ (forall s, urlretrieve net "https://openzu.cuzk.cz/TILE.zip" = Some (Text s) ->
        result = (Raise BadZipFile, <[tile_zip_fn := Text s]> Example.cache)).
Proof.
  apply (download_tile_failed_archive
           (mkNetwork (urlopen Example.net_up) (fun _ => Some (ZipArchive []))
                      (descriptor_archive Example.net_up))
           Example.parser 1 Example.cache "https://openzu.cuzk.cz/TILE.zip" "TILE01");
    reflexivity.
Defined.

(** X24.  A manifest that is a JSON document of another value than an
    object ([null], a string, a number, a boolean, a list) stops the
    download: [json.load] returns that value, the assignment of the date
    raises [TypeError], and by then the archive is stored and the manifest
    has been emptied by [open(..., 'w')].  Nothing else is written. *)
Theorem download_tile_manifest_not_object {U : Unpacker} (net : Network)
    (self : Dmr5gParser) (id : Z) (fs : gmap string FileContent)
    (tile_zip tile_code text : string) (members : list (string * string)) :
  get_tile_zip net self id = Ok tile_zip ->
  get_tile_code self id = Ok tile_code ->
  urlretrieve net tile_zip = Some (ZipArchive members) ->
  fs !! (cache_dir self +:+ "update_dates.json") = Some (JsonNotObject text) ->
  download_tile net self id fs
  = (Raise TypeError,
     <[cache_dir self +:+ "update_dates.json" := Text ""]>
       (<[cache_dir self +:+ tile_code +:+ ".zip" := ZipArchive members]> fs)).
Proof.
  intros Hzip Hcode Hget Hman.
  destruct (manifest_path_differs (cache_dir self) tile_code) as [Hmz _].
  unfold download_tile. rewrite Hzip, Hcode, Hget. cbv zeta.
  rewrite load_update_dict_stored by exact Hmz.
  unfold load_update_dict. rewrite Hman.
  now rewrite lookup_insert_ne, Hman by congruence.
Qed.

Lemma download_tile_manifest_not_object_witness :
  download_tile Example.net_up Example.parser 1 Example.listed_cache
  = (Raise TypeError,
     <[cache_dir Example.parser +:+ "update_dates.json" := Text ""]>
       (<[cache_dir Example.parser +:+ "TILE01" +:+ ".zip" :=
            ZipArchive [("TILE.laz", "points")]]> Example.listed_cache)).
Proof.
  apply (download_tile_manifest_not_object Example.net_up Example.parser 1
           Example.listed_cache "https://openzu.cuzk.cz/TILE.zip" "TILE01" "[1, 2]"
           [("TILE.laz", "points")]);
    reflexivity.
Defined.



(** The directory of [Example.bare_parser] is written "/cache": the
    archive goes to "/cacheTILE01.zip", the member to "/cache/TILE.laz",
    and [os.rename] looks for "/cacheTILE.laz". *)
Example download_tile_without_separator :
  cache_dir Example.bare_parser = "/cache"
  /\ extract_target (cache_dir Example.bare_parser) "TILE.laz" = "/cache/TILE.laz"
  /\ fst (download_tile Example.net_up Example.bare_parser 1 Example.cache)
     = Raise FileNotFoundError_rename
  /\ snd (download_tile Example.net_up Example.bare_parser 1 Example.cache)
     !! "/cacheTILE01.zip" = Some (ZipArchive [("TILE.laz", "points")]).
Proof. repeat split; reflexivity. Qed.

(** ** The normaliser moves a vertex to the nearest point of the grid *)

(** X15.  For a closed polygon whose coordinates are float64 numbers that
    are not negative or are -2048 at most, each vertex of the polygon that
    the normaliser returns, in the arithmetic of float64, is a point of
    the grid, half a cell at most from the vertex it comes from on each
    axis (1250 on x, 1000 on y), and no point of the grid is nearer to
    that vertex on either axis. *)
Theorem fix_tile_coords_nearest_grid_point (tile : Polygon) (i : nat) (v : point) :
  ring_closed (exterior_coords tile) = true ->
  Forall float_safe_vertex (exterior_coords tile) ->
  exterior_coords tile !! i = Some v ->
  exists v',
    exterior_coords (fix_tile_coords_float64 tile) !! i = Some v'
    /\ on_grid v'
    /\ Qabs (fst v' - fst v) <= 1250 /\ Qabs (snd v' - snd v) <= 1000
    /\ (forall g, on_grid g ->
          Qabs (fst v' - fst v) <= Qabs (fst g - fst v)
          /\ Qabs (snd v' - snd v) <= Qabs (snd g - snd v)).
Proof.
  intros Hclosed Hsafe Hv.
  pose proof (fix_tile_coords_float64_exact tile Hsafe) as Hexact.
  unfold polygon_equiv in Hexact.
  rewrite (fix_tile_coords_of_closed tile Hclosed) in Hexact.
  assert (Hs : map snap_vertex (exterior_coords tile) !! i = Some (snap_vertex v))
    by now rewrite list_lookup_fmap, Hv.
  destruct (Forall2_lookup_r _ _ _ _ _ Hexact Hs) as (v' & Hv' & [Ex Ey]).
  exists v'. split; [exact Hv'|].
  split; [apply (on_grid_comp (snap_vertex v) v'); [split; now symmetry|];
          apply snap_vertex_on_grid|].
  rewrite Ex, Ey. cbn [snap_vertex fst snd].
  destruct (snap_nearest 2500 (fst v) 0 ltac:(reflexivity)) as [Hx _].
  destruct (snap_nearest 2000 (snd v) 0 ltac:(reflexivity)) as [Hy _].
  split; [eapply Qle_trans; [exact Hx | discriminate]|].
  split; [eapply Qle_trans; [exact Hy | discriminate]|].
  intros g [[k Hk] [j Hj]]. rewrite Hk, Hj, Ex, Ey. cbn [snap_vertex fst snd]. split.
  - apply (snap_nearest 2500 (fst v) k). reflexivity.
  - apply (snap_nearest 2000 (snd v) j). reflexivity.
Qed.

Lemma fix_tile_coords_nearest_grid_point_witness :
  exists v',
    exterior_coords (fix_tile_coords_float64 (mkPolygon Example.projected_ring)) !! 1%nat
    = Some v'
    /\ on_grid v'
    /\ Qabs (fst v' - fst (-2969963 # 4, -4167981 # 4)) <= 1250
    /\ Qabs (snd v' - snd (-2969963 # 4, -4167981 # 4)) <= 1000
    /\ (forall g, on_grid g ->
          Qabs (fst v' - fst (-2969963 # 4, -4167981 # 4))
          <= Qabs (fst g - fst (-2969963 # 4, -4167981 # 4))
          /\ Qabs (snd v' - snd (-2969963 # 4, -4167981 # 4))
             <= Qabs (snd g - snd (-2969963 # 4, -4167981 # 4))).
Proof.
  apply (fix_tile_coords_nearest_grid_point (mkPolygon Example.projected_ring) 1
           (-2969963 # 4, -4167981 # 4)); [reflexivity | | reflexivity].
  unfold Example.projected_ring. cbn [exterior_coords]. quarters_are_float_safe.
Defined.

(** ** The circle-rectangle test decides the intersection *)

Lemma Qabs_cases (a : Q) : (0 <= a /\ Qabs a == a) \/ (a <= 0 /\ Qabs a == - a).
Proof.
  destruct (Qlt_le_dec a 0) as [H|H].
  - right. split; [lra | apply Qabs_neg; lra].
  - left. split; [exact H | now apply Qabs_pos].
Qed.

(** On one axis: the point of the segment about [rc] of half length [hw]
    that is nearest to [c], and its distance [e] to [c]. *)
Lemma nearest_on_axis (c rc hw : Q) :
  0 <= hw ->
  exists x e : Q,
    Qabs (x - rc) <= hw /\ 0 <= e /\ (x - c) ^ 2 == e ^ 2
    /\ ((Qabs (c - rc) <= hw /\ e == 0)
        \/ (hw < Qabs (c - rc) /\ e == Qabs (c - rc) - hw)).
Proof.
  intros Hhw. destruct (Qabs_cases (c - rc)) as [[Sa Ea]|[Sa Ea]];
    remember (Qabs (c - rc)) as d eqn:Ed; clear Ed.
  - destruct (Qlt_le_dec hw (c - rc)) as [Out|In_].
    + exists (rc + hw), (c - rc - hw). rewrite Qabs_Qle_condition.
      split; [lra|]. split; [lra|]. split; [ring|]. right; split; lra.
    + exists c, 0. rewrite Qabs_Qle_condition.
      split; [lra|]. split; [lra|]. split; [ring|]. left; split; lra.
  - destruct (Qlt_le_dec hw (- (c - rc))) as [Out|In_].
    + exists (rc - hw), (- (c - rc) - hw). rewrite Qabs_Qle_condition.
      split; [lra|]. split; [lra|]. split; [ring|]. right; split; lra.
    + exists c, 0. rewrite Qabs_Qle_condition.
      split; [lra|]. split; [lra|]. split; [ring|]. left; split; lra.
Qed.

(** On one axis: a point [x] of the segment is at least as far from [c] as
    the segment is. *)
Lemma distance_on_axis (x c rc hw : Q) :
  Qabs (x - rc) <= hw ->
  exists d : Q, 0 <= d /\ d ^ 2 == (x - c) ^ 2 /\ Qabs (c - rc) <= hw + d.
Proof.
  intros Hx. apply Qabs_Qle_condition in Hx.
  destruct (Qabs_cases (c - rc)) as [[Sa Ea]|[Sa Ea]];
    remember (Qabs (c - rc)) as d0 eqn:Ed; clear Ed;
    destruct (Qlt_le_dec (x - c) 0) as [Neg|Pos].
  - exists (- (x - c)). split; [lra|]. split; [ring | lra].
  - exists (x - c). split; [lra|]. split; [ring | lra].
  - exists (- (x - c)). split; [lra|]. split; [ring | lra].
  - exists (x - c). split; [lra|]. split; [ring | lra].
Qed.

(** X16.  For a rectangle of width and height that are not negative and a radius
    that is not negative, [c_r_intersects] holds exactly when some point of
    the rectangle is within the radius of the centre. *)
Theorem c_r_intersects_geometric (circle : Circle) (rect : Rectangle) :
  0 <= rect_w rect -> 0 <= rect_h rect -> 0 <= circle_r circle ->
  c_r_intersects circle rect = true <-> disc_meets_rectangle circle rect.
Proof.
  intros Hw Hh Hr. rewrite c_r_intersects_spec.
  unfold circle_meets_rectangle, disc_meets_rectangle. cbv zeta.
  destruct circle as [cx cy r], rect as [rx ry w h].
  cbn [circle_x circle_y circle_r rect_x rect_y rect_w rect_h] in *.
  assert (Hw2 : 0 <= w / 2) by (apply Qle_shift_div_l; lra).
  assert (Hh2 : 0 <= h / 2) by (apply Qle_shift_div_l; lra).
  remember (w / 2) as hw eqn:Ehw. remember (h / 2) as hh eqn:Ehh. clear Ehw Ehh.
  split.
  - intros (Hx & Hy & Hc).
    destruct (nearest_on_axis cx rx hw Hw2) as (x & ex & Hxin & Hex & Hxd & Hxe).
    destruct (nearest_on_axis cy ry hh Hh2) as (y & ey & Hyin & Hey & Hyd & Hye).
    exists x, y. split; [exact Hxin|]. split; [exact Hyin|].
    rewrite Hxd, Hyd.
    remember (Qabs (cx - rx)) as dx eqn:Edx. remember (Qabs (cy - ry)) as dy eqn:Edy.
    clear Edx Edy Hxd Hyd Hxin Hyin.
    destruct Hxe as [[Ix Ex]|[Ox Ex]]; destruct Hye as [[Iy Ey]|[Oy Ey]];
      rewrite Ex, Ey.
    + nra.
    + nra.
    + nra.
    + destruct Hc as [?|[?|?]]; [lra | lra | nra].
  - intros (x & y & Hxin & Hyin & Hd).
    destruct (distance_on_axis x cx rx hw Hxin) as (p & Hp & Ep & Hpx).
    destruct (distance_on_axis y cy ry hh Hyin) as (q & Hq & Eq & Hqy).
    rewrite <- Ep, <- Eq in Hd.
    remember (Qabs (cx - rx)) as dx eqn:Edx. remember (Qabs (cy - ry)) as dy eqn:Edy.
    clear Edx Edy Ep Eq Hxin Hyin.
    assert (Hpr : p <= r) by nra. assert (Hqr : q <= r) by nra.
    split; [lra|]. split; [lra|].
    destruct (Qlt_le_dec hw dx) as [Ox|Ix]; [|now left].
    destruct (Qlt_le_dec hh dy) as [Oy|Iy]; [|right; now left].
    right; right. nra.
Qed.

Lemma c_r_intersects_geometric_witness :
  c_r_intersects (Circle_new (2600, 2100) 150) (mkRectangle 1250 1000 2500 2000) = true
  <-> disc_meets_rectangle (Circle_new (2600, 2100) 150) (mkRectangle 1250 1000 2500 2000).
Proof.
  apply (c_r_intersects_geometric (Circle_new (2600, 2100) 150)
           (mkRectangle 1250 1000 2500 2000)); discriminate.
Defined.

(** ** Rectangle resolution *)

Lemma get_tile_ids_rect_loop_filter (C : Collaborators) (dir : string)
    (root : list Entry) (self : Dmr5gParser) (poly2check : Polygon)
    (tile_ids ids : list Z) :
  Dmr5gParser_init dir root = Ok self ->
  (forall id, In id tile_ids -> (0 <= id < n self)%Z) ->
  get_tile_ids_rect_loop self poly2check tile_ids ids
  = Ok (ids ++ List.filter
                 (fun id => intersects poly2check (normalized_footprint self id))
                 tile_ids).
Proof.
  intros Hinit. revert ids.
  induction tile_ids as [|id tile_ids IH]; intros ids Hrange.
  - cbn. now rewrite app_nil_r.
  - cbn [get_tile_ids_rect_loop List.filter].
    rewrite (get_tile_candidate dir root self Hinit id) by (apply Hrange; now left).
    cbn [mbind Result_bind]. fold (normalized_footprint self id).
    destruct (intersects poly2check _).
    + rewrite IH by (intros id' Hid'; apply Hrange; now right).
      now rewrite <- app_assoc.
    + apply IH. intros id' Hid'. apply Hrange. now right.
Qed.

(** X17.  [get_tile_ids_rect] returns, in the order of the index answer, exactly
    the candidates whose normalised footprint shapely finds to intersect
    the polygon of the four corners, listed top-left, bottom-left,
    bottom-right, top-right; the candidates are the nearest ones to the
    mean of the corners.  The call returns a list, maybe empty, and raises
    nothing. *)
Theorem get_tile_ids_rect_resolution (C : Collaborators) (dir : string)
    (root : list Entry) (self : Dmr5gParser) (tl tr bl br : point) :
  rtree_sound C ->
  Dmr5gParser_init dir root = Ok self ->
  let centre_wgs :=
    SJTSK_TO_WGS ((fst tl + fst br + fst tr + fst bl) / 4)
                 ((snd tl + snd br + snd tr + snd bl) / 4) in
  let candidates :=
    rtree_nearest (tile_idx self) (snd centre_wgs, fst centre_wgs)
      (necessary_num_near_tiles (rect_radius tr bl)) in
  get_tile_ids_rect self tl tr bl br
  = Ok (List.filter
          (fun id => intersects (Polygon_new [tl; bl; br; tr])
                                (normalized_footprint self id))
          candidates)
  /\ (forall id, In id candidates -> (0 <= id < n self)%Z).
Proof.
  intros Hsound Hinit centre_wgs candidates.
  assert (Hrange : forall id, In id candidates -> (0 <= id < n self)%Z).
  { intros id Hid. eapply (nearest_in_range dir root self Hsound Hinit). exact Hid. }
  split; [|exact Hrange].
  unfold get_tile_ids_rect. cbn [fst snd]. fold centre_wgs. fold candidates.
  now rewrite (get_tile_ids_rect_loop_filter C dir root self _ candidates [] Hinit Hrange).
Qed.

Lemma get_tile_ids_rect_resolution_witness :
  let centre_wgs :=
    SJTSK_TO_WGS ((fst (0, 2000) + fst (2500, 0) + fst (2500, 2000) + fst (0, 0)) / 4)
                 ((snd (0, 2000) + snd (2500, 0) + snd (2500, 2000) + snd (0, 0)) / 4) in
  let candidates :=
    rtree_nearest (tile_idx Example.parser) (snd centre_wgs, fst centre_wgs)
      (necessary_num_near_tiles (rect_radius (2500, 2000) (0, 0))) in
  get_tile_ids_rect Example.parser (0, 2000) (2500, 2000) (0, 0) (2500, 0)
  = Ok (List.filter
          (fun id => intersects (Polygon_new [(0, 2000); (0, 0); (2500, 0); (2500, 2000)])
                                (normalized_footprint Example.parser id))
          candidates)
  /\ (forall id, In id candidates -> (0 <= id < n Example.parser)%Z).
Proof.
  apply (get_tile_ids_rect_resolution Example.chart "/cache/" Example.catalogue
           Example.parser (0, 2000) (2500, 2000) (0, 0) (2500, 0)).
  - exact chart_sound.
  - reflexivity.
Defined.

(** ** What the resolver returns can be looked up *)

(** X18.  Every ordinal that [get_tile_id], [get_tile_ids] or
    [get_tile_ids_rect] returns is the ordinal of an entry of the
    catalogue: [get_tile] returns its reported footprint, without
    raising, and [get_tile_xml] and [get_tile_update_date] return the
    text of the [atom:id] and [atom:updated] elements of that entry, which
    is [None] only when the element has no text. *)
Theorem resolved_ids_are_entries (C : Collaborators) (dir : string)
    (entries : list Entry) (self : Dmr5gParser) (id : Z) :
  rtree_sound C ->
  Dmr5gParser_init dir entries = Ok self ->
  ((exists point, get_tile_id self point = Ok id)
   \/ (exists point_sjtsk radius ids,
         get_tile_ids self point_sjtsk radius = Ok ids /\ In id ids)
   \/ (exists tl tr bl br ids,
         get_tile_ids_rect self tl tr bl br = Ok ids /\ In id ids)) ->
  exists entry,
    entries !! Z.to_nat id = Some entry
    /\ (0 <= id < n self)%Z
    /\ get_tile self id = Ok (reported_footprint (entry_polygon entry))
    /\ get_tile_xml self id = entry_id entry
    /\ get_tile_update_date self id = entry_updated entry.
Proof.
  intros Hsound Hinit Hres.
  assert (Hrange : (0 <= id < n self)%Z).
  { destruct Hres as [[point Hp] | [(p & r & ids & Hids & Hin) | (tl & tr & bl & br & ids & Hids & Hin)]].
    - apply (get_tile_id_returns_hit C dir entries self point id Hsound Hinit) in Hp as [Hc _].
      eapply (intersection_in_range dir entries self Hsound Hinit). exact Hc.
    - revert Hids. unfold get_tile_ids.
      rewrite (get_tile_ids_loop_filter C dir entries self _ _ [] Hinit)
        by (intros id' Hid'; eapply (nearest_in_range dir entries self Hsound Hinit);
            exact Hid').
      intros [= <-]. apply filter_In in Hin as [Hin _].
      eapply (nearest_in_range dir entries self Hsound Hinit). exact Hin.
    - revert Hids. unfold get_tile_ids_rect.
      rewrite (get_tile_ids_rect_loop_filter C dir entries self _ _ [] Hinit)
        by (intros id' Hid'; eapply (nearest_in_range dir entries self Hsound Hinit);
            exact Hid').
      intros [= <-]. apply filter_In in Hin as [Hin _].
      eapply (nearest_in_range dir entries self Hsound Hinit). exact Hin. }
  destruct (get_tile_reported dir entries self id Hinit Hrange) as (entry & Hentry & Htile).
  exists entry. split; [exact Hentry|]. split; [exact Hrange|]. split; [exact Htile|].
  assert (Hroot : root self = entries) by
    (apply Dmr5gParser_init_spec in Hinit as [_ ->]; reflexivity).
  unfold get_tile_xml, get_tile_update_date. rewrite Hroot, !enumerate_find_lookup.
  destruct (id <? 0)%Z eqn:E; [apply Z.ltb_lt in E; lia|].
  now rewrite Hentry.
Qed.

Lemma resolved_ids_are_entries_witness :
  exists entry,
    Example.catalogue !! Z.to_nat 1 = Some entry
    /\ (0 <= 1 < n Example.parser)%Z
    /\ get_tile Example.parser 1 = Ok (reported_footprint (entry_polygon entry))
    /\ get_tile_xml Example.parser 1 = entry_id entry
    /\ get_tile_update_date Example.parser 1 = entry_updated entry.
Proof.
  apply (resolved_ids_are_entries Example.chart "/cache/" Example.catalogue
           Example.parser 1 chart_sound eq_refl).
  left. exists (3, 1). reflexivity.
Defined.

(** ** The tile under the centre, and larger radii *)

(** X19.  A candidate whose rectangle holds the centre of the circle is returned
    by [get_tile_ids], whatever the radius from 0 on. *)
Theorem get_tile_ids_holds_centre_tile (C : Collaborators) (dir : string)
    (entries : list Entry) (self : Dmr5gParser) (point_sjtsk : point)
    (radius : Q) (id : Z) :
  rtree_sound C ->
  Dmr5gParser_init dir entries = Ok self ->
  0 <= radius ->
  In id (rtree_nearest (tile_idx self)
           (snd (SJTSK_TO_WGS (fst point_sjtsk) (snd point_sjtsk)),
            fst (SJTSK_TO_WGS (fst point_sjtsk) (snd point_sjtsk)))
           (necessary_num_near_tiles radius)) ->
  Qabs (fst point_sjtsk - rect_x (footprint_rectangle (normalized_footprint self id)))
  <= rect_w (footprint_rectangle (normalized_footprint self id)) / 2 ->
  Qabs (snd point_sjtsk - rect_y (footprint_rectangle (normalized_footprint self id)))
  <= rect_h (footprint_rectangle (normalized_footprint self id)) / 2 ->
  exists ids, get_tile_ids self point_sjtsk radius = Ok ids /\ In id ids.
Proof.
  intros Hsound Hinit Hr Hcand Hx Hy. unfold get_tile_ids.
  rewrite (get_tile_ids_loop_filter C dir entries self _ _ [] Hinit)
    by (intros id' Hid'; eapply (nearest_in_range dir entries self Hsound Hinit);
        exact Hid').
  eexists. split; [reflexivity|]. cbn [app].
  apply filter_In. split; [exact Hcand|].
  apply c_r_intersects_spec. unfold circle_meets_rectangle. cbv zeta.
  cbn [Circle_new circle_x circle_y circle_r].
  split; [lra|]. split; [lra|]. now left.
Qed.

Lemma get_tile_ids_holds_centre_tile_witness :
  exists ids, get_tile_ids Example.parser (3000, 500) 0 = Ok ids /\ In 1%Z ids.
Proof.
  apply (get_tile_ids_holds_centre_tile Example.chart "/cache/" Example.catalogue
           Example.parser (3000, 500) 0 1 chart_sound eq_refl).
  - discriminate.
  - vm_compute. tauto.
  - vm_compute. discriminate.
  - vm_compute. discriminate.
Defined.

(** X20.  The circle-rectangle test never loses a rectangle when the radius
    grows: accepted with a radius that is not negative, a rectangle is
    accepted with every larger one. *)
Theorem c_r_intersects_monotone (centre : point) (r1 r2 : Q) (rect : Rectangle) :
  0 <= r1 -> r1 <= r2 ->
  c_r_intersects (Circle_new centre r1) rect = true ->
  c_r_intersects (Circle_new centre r2) rect = true.
Proof.
  intros H0 Hle. rewrite !c_r_intersects_spec.
  unfold circle_meets_rectangle. cbv zeta.
  cbn [Circle_new circle_x circle_y circle_r].
  remember (Qabs (fst centre - rect_x rect)) as dx eqn:Edx.
  remember (Qabs (snd centre - rect_y rect)) as dy eqn:Edy.
  intros (Hx & Hy & Hc). split; [lra|]. split; [lra|].
  destruct Hc as [?|[?|?]]; [now left | right; now left | right; right; nra].
Qed.

Lemma c_r_intersects_monotone_witness :
  c_r_intersects (Circle_new (2600, 2100) 150) (mkRectangle 1250 1000 2500 2000) = true
  /\ c_r_intersects (Circle_new (2600, 2100) 400) (mkRectangle 1250 1000 2500 2000) = true.
Proof.
  split; [reflexivity|].
  apply (c_r_intersects_monotone (2600, 2100) 150 400 (mkRectangle 1250 1000 2500 2000));
    [discriminate | discriminate | reflexivity].
Defined.

(** ** One candidate that contains the point *)

Lemma find_unique {A} (f : A -> bool) (l : list A) (x : A) :
  In x l -> f x = true -> (forall y, In y l -> f y = true -> y = x) ->
  List.find f l = Some x.
Proof.
  induction l as [|a l IH]; intros Hin Hx Huniq; [destruct Hin|].
  cbn [List.find]. destruct (f a) eqn:E.
  - f_equal. apply Huniq; [now left | exact E].
  - destruct Hin as [->|Hin]; [congruence|].
    apply IH; [exact Hin | exact Hx |].
    intros y Hy. apply Huniq. now right.
Qed.

(** X21.  When the normalised footprint of exactly one candidate contains the
    point, [get_tile_id] returns that candidate, wherever it stands in the
    answer of the index. *)
Theorem get_tile_id_unique_hit (C : Collaborators) (dir : string)
    (entries : list Entry) (self : Dmr5gParser) (point : point) (id : Z) :
  rtree_sound C ->
  Dmr5gParser_init dir entries = Ok self ->
  In id (get_intersection_tile_ids self point) ->
  contains (normalized_footprint self id) (WGS_TO_SJTSK (snd point) (fst point)) = true ->
  (forall id', In id' (get_intersection_tile_ids self point) ->
               contains (normalized_footprint self id')
                        (WGS_TO_SJTSK (snd point) (fst point)) = true ->
               id' = id) ->
  get_tile_id self point = Ok id.
Proof.
  intros Hsound Hinit Hin Hhit Huniq.
  rewrite (get_tile_id_cases dir entries self Hsound Hinit point). cbv zeta.
  unfold get_intersection_tile_ids in *.
  destruct (rtree_intersection (tile_idx self) point) as [|a [|b l]] eqn:E.
  - destruct Hin.
  - destruct Hin as [->|[]]. now rewrite Hhit.
  - now rewrite (find_unique _ _ id Hin Hhit Huniq).
Qed.

Lemma get_tile_id_unique_hit_witness :
  get_tile_id Example.parser (252 # 100, 1) = Ok 1%Z.
Proof.
  apply (get_tile_id_unique_hit Example.chart "/cache/" Example.catalogue
           Example.parser (252 # 100, 1) 1 chart_sound eq_refl).
  - vm_compute. tauto.
  - reflexivity.
  - intros id' Hin. vm_compute in Hin.
    destruct Hin as [<-|[<-|[]]]; [intros H; vm_compute in H; discriminate | reflexivity].
Defined.

(** ** A catalogue without entries *)

Lemma sound_nil_intersection (C : Collaborators) (q : point) :
  rtree_sound C -> rtree_intersection ([] : Index) q = [].
Proof.
  intros Hsound. destruct (rtree_intersection [] q) as [|id l] eqn:E; [reflexivity|].
  destruct (Hsound [] q id) as [H _]. rewrite E in H. destruct H. now left.
Qed.

Lemma sound_nil_nearest (C : Collaborators) (q : point) (k : Z) :
  rtree_sound C -> rtree_nearest ([] : Index) q k = [].
Proof.
  intros Hsound. destruct (rtree_nearest [] q k) as [|id l] eqn:E; [reflexivity|].
  destruct (Hsound [] q id) as [_ H]. specialize (H k). rewrite E in H.
  destruct H. now left.
Qed.

(** X22.  The constructor accepts a catalogue without entries.  On the parser
    it builds, [get_tile_id] raises for every point, saying that no tile
    was found; [get_tile_ids] and [get_tile_ids_rect] return the empty
    list; and [get_tile] raises for every id. *)
Theorem empty_catalogue_resolves_nothing (C : Collaborators) (dir : string) :
  rtree_sound C ->
  exists self,
    Dmr5gParser_init dir [] = Ok self
    /\ (forall p, get_tile_id self p = Raise (PointOutOfTileError NoTileFound p))
    /\ (forall p radius, get_tile_ids self p radius = Ok [])
    /\ (forall tl tr bl br, get_tile_ids_rect self tl tr bl br = Ok [])
    /\ (forall id, (0 <= id)%Z -> get_tile self id = Raise (IndexError_out_of_bounds id 0))
    /\ (forall id, (id < 0)%Z -> get_tile self id = Raise IndexError_sequence).
Proof.
  intros Hsound. exists (mkParser dir [] 0 [] []). split; [reflexivity|].
  split; [|split; [|split; [|split]]].
  - intros p. unfold get_tile_id, get_intersection_tile_ids. cbn [tile_idx].
    now rewrite (sound_nil_intersection C p Hsound).
  - intros p radius. unfold get_tile_ids. cbn [tile_idx].
    now rewrite (sound_nil_nearest C _ _ Hsound).
  - intros tl tr bl br. unfold get_tile_ids_rect. cbv zeta. cbn [tile_idx].
    now rewrite (sound_nil_nearest C _ _ Hsound).
  - intros id Hid. unfold get_tile. cbn [n].
    destruct (Z.leb_spec 0 id); [reflexivity | lia].
  - intros id Hid. unfold get_tile. cbn [n tile_polygons].
    destruct (Z.leb_spec 0 id); [lia|].
    unfold py_getitem. cbv zeta.
    destruct (Z.ltb_spec id 0); [|lia].
    replace ((Z.of_nat (length (@nil (list point))) + id <? 0)%Z) with true
      by (symmetry; apply Z.ltb_lt; cbn [length]; lia).
    reflexivity.
Qed.

Lemma empty_catalogue_resolves_nothing_witness :
  exists self,
    Dmr5gParser_init "/cache/" [] = Ok self
    /\ (forall p, get_tile_id self p = Raise (PointOutOfTileError NoTileFound p))
    /\ (forall p radius, get_tile_ids self p radius = Ok [])
    /\ (forall tl tr bl br, get_tile_ids_rect self tl tr bl br = Ok [])
    /\ (forall id, (0 <= id)%Z -> get_tile self id = Raise (IndexError_out_of_bounds id 0))
    /\ (forall id, (id < 0)%Z -> get_tile self id = Raise IndexError_sequence).
Proof.
  exact (empty_catalogue_resolves_nothing Example.chart "/cache/" chart_sound).
Defined.

(** ** The rectangle of a ring *)

(** X23.  [Rectangle] needs three vertices: on a ring with fewer it raises an
    IndexError.  On a ring with three or more it returns a rectangle whose
    sides stand where the vertices it read are: the left and the right side
    at the x of the first and of the second vertex, the bottom and the top
    at the y of the first and of the third. *)
Theorem Rectangle_new_sides (poly : Polygon) :
  ((length (exterior_coords poly) < 3)%nat ->
   Rectangle_new (coords_xy poly) = Raise IndexError_sequence)
  /\ ((3 <= length (exterior_coords poly))%nat ->
      exists rect,
        Rectangle_new (coords_xy poly) = Ok rect
        /\ rect_x rect - rect_w rect / 2 == nth 0 (map fst (exterior_coords poly)) 0
        /\ rect_x rect + rect_w rect / 2 == nth 1 (map fst (exterior_coords poly)) 0
        /\ rect_y rect - rect_h rect / 2 == nth 0 (map snd (exterior_coords poly)) 0
        /\ rect_y rect + rect_h rect / 2 == nth 2 (map snd (exterior_coords poly)) 0).
Proof.
  split.
  - intros Hlen. unfold Rectangle_new, coords_xy. cbn [fst snd].
    destruct (exterior_coords poly) as [|p0 [|p1 [|p2 l]]] eqn:E;
      cbn [length] in Hlen; try lia.
    + reflexivity.
    + reflexivity.
    + reflexivity.
  - intros Hlen. exists (footprint_rectangle poly).
    split; [now apply Rectangle_new_footprint|].
    unfold footprint_rectangle. cbv zeta. cbn [rect_x rect_y rect_w rect_h].
    repeat split; field.
Qed.

Lemma Rectangle_new_sides_witness :
  Rectangle_new (coords_xy (mkPolygon [(0, 0); (2500, 0)])) = Raise IndexError_sequence
  /\ exists rect,
       Rectangle_new (coords_xy (mkPolygon Example.grid_ring)) = Ok rect
       /\ rect_x rect - rect_w rect / 2 == nth 0 (map fst Example.grid_ring) 0
       /\ rect_x rect + rect_w rect / 2 == nth 1 (map fst Example.grid_ring) 0
       /\ rect_y rect - rect_h rect / 2 == nth 0 (map snd Example.grid_ring) 0
       /\ rect_y rect + rect_h rect / 2 == nth 2 (map snd Example.grid_ring) 0.
Proof.
  split.
  - apply (proj1 (Rectangle_new_sides (mkPolygon [(0, 0); (2500, 0)]))).
    cbn. lia.
  - apply (proj2 (Rectangle_new_sides (mkPolygon Example.grid_ring))).
    vm_compute. lia.
Defined.
